(** * AQ virtual machine: the bytecode interpreter, embedded and verified

    The interpreter is a single C translation unit: a tagged memory
    ([struct Memory]: a byte buffer [data] and a nibble-packed [type] array),
    an operand decoder ([Get1Parament] .. [Get4Parament]), one handler per
    opcode ([LOAD], [ADD], [CMP], [IF], [GOTO], ...) and the fetch/dispatch
    loop of [main].

    Conventions of the embedding.
    - The target is LP64 little-endian (x86-64 Linux): [int8_t], [int], [long]
      are 8, 32 and 64 bits, [size_t] and pointers are 64 bits.
    - Machine integers are [Z] with the wrap-around written out ([to_int],
      [to_long], [to_size_t]).  As in CompCert C, signed overflow wraps,
      while shifts by an out-of-range count, division by zero, the division
      INT_MIN / -1 and float-to-integer conversions whose result does not fit
      are undefined: the operation has no result ([None]).
    - [float] and [double] are IEEE-754 binary32 and binary64 values of the
      standard library's [spec_float], which has a single NaN: NaN signs and
      payloads are not modelled (see [bits_of_SF]).
    - The whole file image sits in one heap block obtained from [malloc]; the
      data segment, the type array and the code all live in it, at the
      addresses [main] computes.  Every access is by absolute address
      ([uintptr_t] arithmetic, modulo 2^64); an access outside the block has
      no result ([None]).  The blocks NEW obtains are known by their
      addresses only, for FREE; their contents are not modelled, so that a
      copy into or out of such a block has no result here either ([STORE]).
    - Bytes are integers 0 .. 255, in memory order.
    - What [fprintf (stderr, ...)] and [printf] write is not part of the
      state; the memory reads that compute their arguments are modelled. *)

From Stdlib Require Import ZArith Lia Bool.
From Stdlib Require Import Floats.SpecFloat.
From stdpp Require Import base option list.

Local Open Scope Z_scope.

(** ** C scalars *)

Module Scalar.

(** Unsigned and signed reduction to [w] bits. *)
Definition wrap (w z : Z) : Z := z mod 2 ^ w.
Definition sext (w z : Z) : Z := (z + 2 ^ (w - 1)) mod 2 ^ w - 2 ^ (w - 1).

Definition to_int8 : Z -> Z := sext 8.
Definition to_int : Z -> Z := sext 32.
Definition to_long : Z -> Z := sext 64.
Definition to_size_t : Z -> Z := wrap 64.

Definition INT_MIN : Z := - 2 ^ 31.
Definition INT_MAX : Z := 2 ^ 31 - 1.
Definition LONG_MIN : Z := - 2 ^ 63.
Definition LONG_MAX : Z := 2 ^ 63 - 1.

(** Little-endian byte strings. *)
Fixpoint le_decode (bs : list Z) : Z :=
  match bs with
  | [] => 0
  | b :: rest => b + 256 * le_decode rest
  end.

Fixpoint le_encode (n : nat) (z : Z) : list Z :=
  match n with
  | O => []
  | S k => z mod 256 :: le_encode k (z / 256)
  end.

(** Big-endian decoding, for the header field read through
    [__builtin_bswap64]. *)
Definition be_decode (bs : list Z) : Z := le_decode (reverse bs).

(** A value of arithmetic type: an integer of some width (held exactly) or a
    floating-point number. *)
Inductive num : Type :=
  | I (z : Z)
  | F (x : spec_float).

Definition round32 (x : spec_float) : spec_float :=
  match x with
  | S754_finite s m e => binary_round 24 128 s m e
  | _ => x
  end.

Definition round64 (x : spec_float) : spec_float :=
  match x with
  | S754_finite s m e => binary_round 53 1024 s m e
  | _ => x
  end.

(** Truncation toward zero of a finite floating-point number. *)
Definition SFtrunc (x : spec_float) : option Z :=
  match x with
  | S754_zero _ => Some 0
  | S754_finite s m e =>
      Some (cond_Zopp s (if 0 <=? e then Z.pos m * 2 ^ e
                         else Z.pos m / 2 ^ (- e)))
  | _ => None
  end.

(** The implicit conversions of C assignment and [return]. *)
Definition cast_int (v : num) : option Z :=
  match v with
  | I z => Some (to_int z)
  | F x => z ← SFtrunc x;
           if (INT_MIN <=? z) && (z <=? INT_MAX) then Some z else None
  end.

Definition cast_long (v : num) : option Z :=
  match v with
  | I z => Some (to_long z)
  | F x => z ← SFtrunc x;
           if (LONG_MIN <=? z) && (z <=? LONG_MAX) then Some z else None
  end.

Definition cast_int8 (v : num) : option Z :=
  match v with
  | I z => Some (to_int8 z)
  | F x => z ← SFtrunc x;
           if (-128 <=? z) && (z <=? 127) then Some z else None
  end.

Definition cast_float (v : num) : spec_float :=
  match v with
  | I z => binary_normalize 24 128 z 0 false
  | F x => round32 x
  end.

Definition cast_double (v : num) : spec_float :=
  match v with
  | I z => binary_normalize 53 1024 z 0 false
  | F x => round64 x
  end.

(** IEEE-754 interchange encodings: [mw] mantissa bits, [ew] exponent bits.
    Every NaN pattern decodes to the one NaN of [spec_float], and that NaN
    is encoded as the default NaN of x86-64 (sign set, quiet bit set, the
    other mantissa bits clear): the sign and payload a processor would keep
    from a NaN operand are not modelled, and nothing stated below depends on
    which NaN pattern a store writes. *)
Definition SF_of_bits (mw ew : Z) (bits : Z) : spec_float :=
  let prec := mw + 1 in
  let emax := 2 ^ (ew - 1) in
  let s := Z.testbit bits (mw + ew) in
  let e := Z.land (Z.shiftr bits mw) (2 ^ ew - 1) in
  let m := Z.land bits (2 ^ mw - 1) in
  if e =? 0 then
    match m with
    | Z.pos p => S754_finite s p (emin prec emax)
    | _ => S754_zero s
    end
  else if e =? 2 ^ ew - 1 then
    if m =? 0 then S754_infinity s else S754_nan
  else
    match m + 2 ^ mw with
    | Z.pos p => S754_finite s p (e - 1 + emin prec emax)
    | _ => S754_nan
    end.

Definition bits_of_SF (mw ew : Z) (x : spec_float) : Z :=
  let prec := mw + 1 in
  let emax := 2 ^ (ew - 1) in
  let sign (s : bool) := if s then 2 ^ (mw + ew) else 0 in
  match x with
  | S754_zero s => sign s
  | S754_infinity s => sign s + (2 ^ ew - 1) * 2 ^ mw
  | S754_nan => sign true + (2 ^ ew - 1) * 2 ^ mw + 2 ^ (mw - 1)
  | S754_finite s m e =>
      if Z.pos m <? 2 ^ mw then sign s + Z.pos m
      else sign s + (e - emin prec emax + 1) * 2 ^ mw + (Z.pos m - 2 ^ mw)
  end.

Definition float_of_bits : Z -> spec_float := SF_of_bits 23 8.
Definition bits_of_float : spec_float -> Z := bits_of_SF 23 8.
Definition double_of_bits : Z -> spec_float := SF_of_bits 52 11.
Definition bits_of_double : spec_float -> Z := bits_of_SF 52 11.

End Scalar.
Import Scalar.

(** ** The process image and the tagged memory *)

(** [struct Memory]: the three fields are addresses and a byte count. *)
Record Memory : Type := { type : Z; data : Z; size : Z }.

(** The heap block [bytecode_begin .. bytecode_begin + length image) that
    holds the file, and the global [memory] that points into it. *)
Record State : Type := {
  bytecode_begin : Z;
  image : list Z;
  memory : Memory
}.

Definition set_image (s : State) (l : list Z) : State :=
  {| bytecode_begin := bytecode_begin s; image := l; memory := memory s |}.

(** Index in [image] of the [n] bytes at address [a], when they all lie in
    the block. *)
Definition offset_of (s : State) (a n : Z) : option nat :=
  let off := a - bytecode_begin s in
  if (0 <=? off) && (off + n <=? Z.of_nat (length (image s)))
  then Some (Z.to_nat off) else None.

Definition load_bytes (s : State) (a : Z) (n : nat) : option (list Z) :=
  i ← offset_of s a (Z.of_nat n); Some (take n (drop i (image s))).

Definition store_bytes (s : State) (a : Z) (bs : list Z) : option State :=
  i ← offset_of s a (Z.of_nat (length bs));
  Some (set_image s (list_inserts i bs (image s))).

(** The byte at address [a]. *)
Definition byte_at (s : State) (a : Z) : option Z :=
  i ← offset_of s a 1; image s !! i.

(** [(uintptr_t)memory->data + index] *)
Definition slot_addr (s : State) (index : Z) : Z :=
  to_size_t (data (memory s) + index).

Definition InitializeMemory (data type size : Z) : Memory :=
  {| type := type; data := data; size := size |}.

Definition GetType (s : State) (index : Z) : option Z :=
  b ← byte_at s (to_size_t (type (memory s) + index / 2));
  if negb (index mod 2 =? 0)
  then Some (Z.land b 0x0F)
  else Some (Z.shiftr (Z.land b 0xF0) 4).

(** [SetType] has the body of [GetType]: it returns the nibble and stores
    nothing. *)
Definition SetType (s : State) (index : Z) (type_ : Z) : option Z :=
  b ← byte_at s (to_size_t (type (memory s) + index / 2));
  if negb (index mod 2 =? 0)
  then Some (Z.land b 0x0F)
  else Some (Z.shiftr (Z.land b 0xF0) 4).

(** [GET_SIZE]: the sixth arm tests [0x02] a second time. *)
Definition GET_SIZE (x : Z) : Z :=
  if x =? 0x00 then 0
  else if x =? 0x01 then 1
  else if x =? 0x02 then 4
  else if x =? 0x03 then 8
  else if x =? 0x04 then 4
  else if x =? 0x02 then 8
  else 0.

(** [memcpy (dst, src, n)], given the [n] bytes found at [src]. A copy of no
    bytes touches nothing. *)
Definition memcpy (s : State) (dst : Z) (src : list Z) : option State :=
  match src with
  | [] => Some s
  | _ => store_bytes s dst src
  end.

(** [data_ptr] stands for the [size] bytes at that address: a place in the
    image for LOAD, a local variable of the caller for NEW. *)
Definition WriteData (s : State) (index : Z) (data_ptr : list Z) : option State :=
  memcpy s (slot_addr s index) data_ptr.

(** Typed dereferences [*(T* )p]. *)
Definition read_int8 (s : State) (p : Z) : option Z :=
  bs ← load_bytes s p 1; Some (to_int8 (le_decode bs)).
Definition read_int (s : State) (p : Z) : option Z :=
  bs ← load_bytes s p 4; Some (to_int (le_decode bs)).
Definition read_long (s : State) (p : Z) : option Z :=
  bs ← load_bytes s p 8; Some (to_long (le_decode bs)).
Definition read_float (s : State) (p : Z) : option spec_float :=
  bs ← load_bytes s p 4; Some (float_of_bits (le_decode bs)).
Definition read_double (s : State) (p : Z) : option spec_float :=
  bs ← load_bytes s p 8; Some (double_of_bits (le_decode bs)).
Definition read_ptr (s : State) (p : Z) : option Z :=
  bs ← load_bytes s p 8; Some (le_decode bs).

Definition GetPtrData (s : State) (index : Z) : option Z :=
  _ ← GetType s index; read_ptr s (slot_addr s index).

Definition GetByteData (s : State) (index : Z) : option Z :=
  t ← GetType s index;
  match t with
  | 0x01 => v ← read_int8 s (slot_addr s index); cast_int8 (I v)
  | 0x02 => v ← read_int s (slot_addr s index); cast_int8 (I v)
  | 0x03 => v ← read_long s (slot_addr s index); cast_int8 (I v)
  | 0x04 => x ← read_float s (slot_addr s index); cast_int8 (F x)
  | 0x05 => x ← read_double s (slot_addr s index); cast_int8 (F x)
  | _ => Some 0
  end.

Definition GetIntData (s : State) (index : Z) : option Z :=
  t ← GetType s index;
  match t with
  | 0x01 => v ← read_int8 s (slot_addr s index); cast_int (I v)
  | 0x02 => v ← read_int s (slot_addr s index); cast_int (I v)
  | 0x03 => v ← read_long s (slot_addr s index); cast_int (I v)
  | 0x04 => x ← read_float s (slot_addr s index); cast_int (F x)
  | 0x05 => x ← read_double s (slot_addr s index); cast_int (F x)
  | _ => Some 0
  end.

Definition GetLongData (s : State) (index : Z) : option Z :=
  t ← GetType s index;
  match t with
  | 0x01 => v ← read_int8 s (slot_addr s index); cast_long (I v)
  | 0x02 => v ← read_int s (slot_addr s index); cast_long (I v)
  | 0x03 => v ← read_long s (slot_addr s index); cast_long (I v)
  | 0x04 => x ← read_float s (slot_addr s index); cast_long (F x)
  | 0x05 => x ← read_double s (slot_addr s index); cast_long (F x)
  | _ => Some 0
  end.

Definition GetFloatData (s : State) (index : Z) : option spec_float :=
  t ← GetType s index;
  match t with
  | 0x01 => v ← read_int8 s (slot_addr s index); Some (cast_float (I v))
  | 0x02 => v ← read_int s (slot_addr s index); Some (cast_float (I v))
  | 0x03 => v ← read_long s (slot_addr s index); Some (cast_float (I v))
  | 0x04 => x ← read_float s (slot_addr s index); Some (cast_float (F x))
  | 0x05 => x ← read_double s (slot_addr s index); Some (cast_float (F x))
  | _ => Some (cast_float (I 0))
  end.

Definition GetDoubleData (s : State) (index : Z) : option spec_float :=
  t ← GetType s index;
  match t with
  | 0x01 => v ← read_int8 s (slot_addr s index); Some (cast_double (I v))
  | 0x02 => v ← read_int s (slot_addr s index); Some (cast_double (I v))
  | 0x03 => v ← read_long s (slot_addr s index); Some (cast_double (I v))
  | 0x04 => x ← read_float s (slot_addr s index); Some (cast_double (F x))
  | 0x05 => x ← read_double s (slot_addr s index); Some (cast_double (F x))
  | _ => Some (cast_double (I 0))
  end.

(** Typed stores [*(T* )((uintptr_t)memory->data + index) = v]. *)
Definition put_int8 (s : State) (index v : Z) : option State :=
  store_bytes s (slot_addr s index) (le_encode 1 v).
Definition put_int (s : State) (index v : Z) : option State :=
  store_bytes s (slot_addr s index) (le_encode 4 v).
Definition put_long (s : State) (index v : Z) : option State :=
  store_bytes s (slot_addr s index) (le_encode 8 v).
Definition put_float (s : State) (index : Z) (x : spec_float) : option State :=
  store_bytes s (slot_addr s index) (le_encode 4 (bits_of_float x)).
Definition put_double (s : State) (index : Z) (x : spec_float) : option State :=
  store_bytes s (slot_addr s index) (le_encode 8 (bits_of_double x)).

(** One [case] of the [switch (GetType (memory, index))] found in every
    store: the value is converted to the C type of tag [t] and stored. *)
Definition assign (s : State) (t : Z) (index : Z) (v : num) : option State :=
  match t with
  | 0x01 => i ← cast_int8 v; put_int8 s index i
  | 0x02 => i ← cast_int v; put_int s index i
  | 0x03 => i ← cast_long v; put_long s index i
  | 0x04 => put_float s index (cast_float v)
  | 0x05 => put_double s index (cast_double v)
  | _ => Some s
  end.

(** [switch (GetType (memory, index))] with the cases [0x01] .. [n] present and
    [default: break]; the right-hand side is evaluated inside the case. *)
Definition switch (n : Z) (s : State) (index : Z) (rhs : option num)
  : option State :=
  t ← GetType s index;
  if (1 <=? t) && (t <=? n) then v ← rhs; assign s t index v else Some s.

Definition SetPtrData (s : State) (index : Z) (ptr : Z) : option State :=
  _ ← GetType s index; store_bytes s (slot_addr s index) (le_encode 8 ptr).

Definition SetByteData (s : State) (index : Z) (value : Z) : option State :=
  switch 5 s index (Some (I value)).
Definition SetIntData (s : State) (index : Z) (value : Z) : option State :=
  switch 5 s index (Some (I value)).
Definition SetLongData (s : State) (index : Z) (value : Z) : option State :=
  switch 5 s index (Some (I value)).
Definition SetFloatData (s : State) (index : Z) (value : spec_float)
  : option State :=
  switch 5 s index (Some (F value)).
Definition SetDoubleData (s : State) (index : Z) (value : spec_float)
  : option State :=
  switch 5 s index (Some (F value)).

(** ** The operand decoder *)

(** The bytes of the block from address [ptr] on. *)
Definition bytes_from (s : State) (ptr : Z) : list Z :=
  match offset_of s ptr 0 with
  | Some i => drop i (image s)
  | None => []
  end.

(** The [while (state == 0)] loop shared by all decoders; [size] is an [int].
    It yields the pointer after the terminal byte and the value stored
    through the [size_t*]. Running off the block has no result. *)
Fixpoint Parament_loop (bytes : list Z) (ptr : Z) (size : Z) : option (Z * Z) :=
  match bytes with
  | [] => None
  | b :: rest =>
      if b <? 255
      then Some (to_size_t (ptr + 1), to_size_t (to_int (255 * size + b)))
      else Parament_loop rest (to_size_t (ptr + 1)) (to_int (size + 1))
  end.

Definition Get1Parament (s : State) (ptr : Z) : option (Z * Z) :=
  Parament_loop (bytes_from s ptr) ptr 0.

Definition Get2Parament (s : State) (ptr : Z) : option (Z * Z * Z) :=
  '(ptr, first) ← Get1Parament s ptr;
  '(ptr, second) ← Get1Parament s ptr;
  Some (ptr, first, second).

Definition Get3Parament (s : State) (ptr : Z) : option (Z * Z * Z * Z) :=
  '(ptr, first) ← Get1Parament s ptr;
  '(ptr, second) ← Get1Parament s ptr;
  '(ptr, third) ← Get1Parament s ptr;
  Some (ptr, first, second, third).

Definition Get4Parament (s : State) (ptr : Z) : option (Z * Z * Z * Z * Z) :=
  '(ptr, first) ← Get1Parament s ptr;
  '(ptr, second) ← Get1Parament s ptr;
  '(ptr, third) ← Get1Parament s ptr;
  '(ptr, fourth) ← Get1Parament s ptr;
  Some (ptr, first, second, third, fourth).

(** [read_arg] further operands, for the call frame of INVOKE. *)
Fixpoint GetParaments (n : nat) (s : State) (ptr : Z) : option (Z * list Z) :=
  match n with
  | O => Some (ptr, [])
  | S k =>
      '(ptr, arg) ← Get1Parament s ptr;
      '(ptr, args) ← GetParaments k s ptr;
      Some (ptr, arg :: args)
  end.

(** ** C operators at the four working types

    [double] and [float] arithmetic is IEEE-754; [long] and [int] wrap.
    [int8_t] operands are promoted to [int], so the byte tier of every
    handler uses the [int] operators. *)

Module Op.

Definition double_add (a b : spec_float) : option num := Some (F (SFadd 53 1024 a b)).
Definition double_sub (a b : spec_float) : option num := Some (F (SFsub 53 1024 a b)).
Definition double_mul (a b : spec_float) : option num := Some (F (SFmul 53 1024 a b)).
Definition double_div (a b : spec_float) : option num := Some (F (SFdiv 53 1024 a b)).
Definition double_neg (a : spec_float) : option num := Some (F (SFopp a)).

Definition float_add (a b : spec_float) : option num := Some (F (SFadd 24 128 a b)).
Definition float_sub (a b : spec_float) : option num := Some (F (SFsub 24 128 a b)).
Definition float_mul (a b : spec_float) : option num := Some (F (SFmul 24 128 a b)).
Definition float_div (a b : spec_float) : option num := Some (F (SFdiv 24 128 a b)).
Definition float_neg (a : spec_float) : option num := Some (F (SFopp a)).

Definition long_add (a b : Z) : option num := Some (I (to_long (a + b))).
Definition long_sub (a b : Z) : option num := Some (I (to_long (a - b))).
Definition long_mul (a b : Z) : option num := Some (I (to_long (a * b))).
Definition long_div (a b : Z) : option num :=
  if (b =? 0) || ((a =? LONG_MIN) && (b =? -1)) then None else Some (I (a ÷ b)).
Definition long_rem (a b : Z) : option num :=
  if (b =? 0) || ((a =? LONG_MIN) && (b =? -1)) then None else Some (I (Z.rem a b)).
Definition long_neg (a : Z) : option num := Some (I (to_long (- a))).
Definition long_shl (a b : Z) : option num :=
  if (0 <=? b) && (b <? 64) then Some (I (to_long (Z.shiftl a b))) else None.
Definition long_shr (a b : Z) : option num :=
  if (0 <=? b) && (b <? 64) then Some (I (Z.shiftr a b)) else None.
Definition long_and (a b : Z) : option num := Some (I (Z.land a b)).
Definition long_or (a b : Z) : option num := Some (I (Z.lor a b)).
Definition long_xor (a b : Z) : option num := Some (I (Z.lxor a b)).

Definition int_add (a b : Z) : option num := Some (I (to_int (a + b))).
Definition int_sub (a b : Z) : option num := Some (I (to_int (a - b))).
Definition int_mul (a b : Z) : option num := Some (I (to_int (a * b))).
Definition int_div (a b : Z) : option num :=
  if (b =? 0) || ((a =? INT_MIN) && (b =? -1)) then None else Some (I (a ÷ b)).
Definition int_rem (a b : Z) : option num :=
  if (b =? 0) || ((a =? INT_MIN) && (b =? -1)) then None else Some (I (Z.rem a b)).
Definition int_neg (a : Z) : option num := Some (I (to_int (- a))).
Definition int_shl (a b : Z) : option num :=
  if (0 <=? b) && (b <? 32) then Some (I (to_int (Z.shiftl a b))) else None.
Definition int_shr (a b : Z) : option num :=
  if (0 <=? b) && (b <? 32) then Some (I (Z.shiftr a b)) else None.
Definition int_and (a b : Z) : option num := Some (I (Z.land a b)).
Definition int_or (a b : Z) : option num := Some (I (Z.lor a b)).
Definition int_xor (a b : Z) : option num := Some (I (Z.lxor a b)).

(** Comparisons yield the [int] 0 or 1. *)
Definition truth (b : bool) : option num := Some (I (Z.b2z b)).

Definition double_eq (a b : spec_float) : option num := truth (SFeqb a b).
Definition double_ne (a b : spec_float) : option num := truth (negb (SFeqb a b)).
Definition double_lt (a b : spec_float) : option num := truth (SFltb a b).
Definition double_le (a b : spec_float) : option num := truth (SFleb a b).
Definition double_gt (a b : spec_float) : option num := truth (SFltb b a).
Definition double_ge (a b : spec_float) : option num := truth (SFleb b a).

Definition float_eq : spec_float -> spec_float -> option num := double_eq.
Definition float_ne : spec_float -> spec_float -> option num := double_ne.
Definition float_lt : spec_float -> spec_float -> option num := double_lt.
Definition float_le : spec_float -> spec_float -> option num := double_le.
Definition float_gt : spec_float -> spec_float -> option num := double_gt.
Definition float_ge : spec_float -> spec_float -> option num := double_ge.

Definition long_eq (a b : Z) : option num := truth (a =? b).
Definition long_ne (a b : Z) : option num := truth (negb (a =? b)).
Definition long_lt (a b : Z) : option num := truth (a <? b).
Definition long_le (a b : Z) : option num := truth (a <=? b).
Definition long_gt (a b : Z) : option num := truth (a >? b).
Definition long_ge (a b : Z) : option num := truth (a >=? b).

Definition int_eq : Z -> Z -> option num := long_eq.
Definition int_ne : Z -> Z -> option num := long_ne.
Definition int_lt : Z -> Z -> option num := long_lt.
Definition int_le : Z -> Z -> option num := long_le.
Definition int_gt : Z -> Z -> option num := long_gt.
Definition int_ge : Z -> Z -> option num := long_ge.

End Op.
Import Op.

(** ** The opcode handlers *)

Definition NOP (s : State) : option State := Some s.

Definition read_mem (s : State) (a : Z) (n : Z) : option (list Z) :=
  if n =? 0 then Some [] else load_bytes s a (Z.to_nat n).

(** The bytes at [data + ptr] are copied to [data + operand]; the source is
    read before the destination is written. *)
Definition LOAD (s : State) (ptr operand : Z) : option State :=
  t ← GetType s operand;
  src ← read_mem s (slot_addr s ptr) (GET_SIZE t);
  WriteData s operand src.

(** The destination is the pointer stored at [data + ptr]; it is read without
    consulting the tag of [ptr]. The model holds the block of the file only:
    a copy to another address, a block NEW returned included, has no result
    here (the conventions above), so what is stated of STORE is stated of
    destinations inside the file's block. *)
Definition STORE (s : State) (ptr operand : Z) : option State :=
  dst ← read_ptr s (slot_addr s ptr);
  t ← GetType s operand;
  src ← read_mem s (slot_addr s operand) (GET_SIZE t);
  memcpy s dst src.

(** [fresh] is the address [malloc] returns; the new block itself is outside
    the image. *)
Definition NEW (fresh : Z) (s : State) (ptr size : Z) : option State :=
  size_value ← GetLongData s size;
  WriteData s ptr (le_encode 8 fresh).

(** [blocks] lists the addresses [malloc] returned to NEW and [free] has not
    released yet; the value is that list after the call. [free (NULL)] does
    nothing, and [free] of any other address that is not in the list is
    invalid (that of the image itself leaves the loop running on released
    memory). *)
Definition FREE (blocks : list Z) (s : State) (ptr : Z) : option (list Z) :=
  free_ptr ← GetPtrData s ptr;
  if free_ptr =? 0 then Some blocks
  else if decide (free_ptr ∈ blocks)
       then Some (filter (λ b, b ≠ free_ptr) blocks)
       else None.

Definition PTR (s : State) (index ptr : Z) : option State :=
  SetPtrData s ptr (to_size_t (data (memory s) + index)).

(** The test [GetType (result) == t || GetType (operand1) == t || ...]; the
    operator [||] evaluates left to right and stops at the first true. *)
Definition tag_is (s : State) (index t : Z) : option bool :=
  u ← GetType s index; Some (u =? t).

Definition orelse (a b : option bool) : option bool :=
  x ← a; if (x : bool) then Some true else b.

(** [if (c) { th } else { el }] for a condition that reads memory. *)
Definition ifelse {A : Type} (c : option bool) (th el : option A) : option A :=
  x ← c; if (x : bool) then th else el.

Definition tier3 (s : State) (t : Z) (result operand1 operand2 : Z) : option bool :=
  orelse (tag_is s result t) (orelse (tag_is s operand1 t) (tag_is s operand2 t)).

Definition tier2 (s : State) (t : Z) (result operand1 : Z) : option bool :=
  orelse (tag_is s result t) (tag_is s operand1 t).

Definition binop {A : Type} (get : State -> Z -> option A) (f : A -> A -> option num)
    (s : State) (operand1 operand2 : Z) : option num :=
  a ← get s operand1; b ← get s operand2; f a b.

Definition unop {A : Type} (get : State -> Z -> option A) (f : A -> option num)
    (s : State) (operand1 : Z) : option num :=
  a ← get s operand1; f a.

(** The arithmetic handlers share one shape: an [if] / [else if] chain over
    the working types from [double] down to [byte], each branch entered when
    one of the slots has that tag, and holding a [switch] on the tag of
    [result] whose cases assign the operation on the operands read at that
    type. The bitwise handlers, the shifts and REM have the three integer
    tiers only. *)
Definition ADD (s : State) (result operand1 operand2 : Z) : option State :=
  ifelse (tier3 s 0x05 result operand1 operand2)
    (switch 5 s result (binop GetDoubleData double_add s operand1 operand2)) $
  ifelse (tier3 s 0x04 result operand1 operand2)
    (switch 4 s result (binop GetFloatData float_add s operand1 operand2)) $
  ifelse (tier3 s 0x03 result operand1 operand2)
    (switch 3 s result (binop GetLongData long_add s operand1 operand2)) $
  ifelse (tier3 s 0x02 result operand1 operand2)
    (switch 2 s result (binop GetIntData int_add s operand1 operand2)) $
  ifelse (tier3 s 0x01 result operand1 operand2)
    (switch 1 s result (binop GetByteData int_add s operand1 operand2)) $
  Some s.

Definition SUB (s : State) (result operand1 operand2 : Z) : option State :=
  ifelse (tier3 s 0x05 result operand1 operand2)
    (switch 5 s result (binop GetDoubleData double_sub s operand1 operand2)) $
  ifelse (tier3 s 0x04 result operand1 operand2)
    (switch 4 s result (binop GetFloatData float_sub s operand1 operand2)) $
  ifelse (tier3 s 0x03 result operand1 operand2)
    (switch 3 s result (binop GetLongData long_sub s operand1 operand2)) $
  ifelse (tier3 s 0x02 result operand1 operand2)
    (switch 2 s result (binop GetIntData int_sub s operand1 operand2)) $
  ifelse (tier3 s 0x01 result operand1 operand2)
    (switch 1 s result (binop GetByteData int_sub s operand1 operand2)) $
  Some s.

Definition MUL (s : State) (result operand1 operand2 : Z) : option State :=
  ifelse (tier3 s 0x05 result operand1 operand2)
    (switch 5 s result (binop GetDoubleData double_mul s operand1 operand2)) $
  ifelse (tier3 s 0x04 result operand1 operand2)
    (switch 4 s result (binop GetFloatData float_mul s operand1 operand2)) $
  ifelse (tier3 s 0x03 result operand1 operand2)
    (switch 3 s result (binop GetLongData long_mul s operand1 operand2)) $
  ifelse (tier3 s 0x02 result operand1 operand2)
    (switch 2 s result (binop GetIntData int_mul s operand1 operand2)) $
  ifelse (tier3 s 0x01 result operand1 operand2)
    (switch 1 s result (binop GetByteData int_mul s operand1 operand2)) $
  Some s.

Definition DIV (s : State) (result operand1 operand2 : Z) : option State :=
  ifelse (tier3 s 0x05 result operand1 operand2)
    (switch 5 s result (binop GetDoubleData double_div s operand1 operand2)) $
  ifelse (tier3 s 0x04 result operand1 operand2)
    (switch 4 s result (binop GetFloatData float_div s operand1 operand2)) $
  ifelse (tier3 s 0x03 result operand1 operand2)
    (switch 3 s result (binop GetLongData long_div s operand1 operand2)) $
  ifelse (tier3 s 0x02 result operand1 operand2)
    (switch 2 s result (binop GetIntData int_div s operand1 operand2)) $
  ifelse (tier3 s 0x01 result operand1 operand2)
    (switch 1 s result (binop GetByteData int_div s operand1 operand2)) $
  Some s.

Definition REM (s : State) (result operand1 operand2 : Z) : option State :=
  ifelse (tier3 s 0x03 result operand1 operand2)
    (switch 3 s result (binop GetLongData long_rem s operand1 operand2)) $
  ifelse (tier3 s 0x02 result operand1 operand2)
    (switch 2 s result (binop GetIntData int_rem s operand1 operand2)) $
  ifelse (tier3 s 0x01 result operand1 operand2)
    (switch 1 s result (binop GetByteData int_rem s operand1 operand2)) $
  Some s.

Definition NEG (s : State) (result operand1 : Z) : option State :=
  ifelse (tier2 s 0x05 result operand1)
    (switch 5 s result (unop GetDoubleData double_neg s operand1)) $
  ifelse (tier2 s 0x04 result operand1)
    (switch 4 s result (unop GetFloatData float_neg s operand1)) $
  ifelse (tier2 s 0x03 result operand1)
    (switch 3 s result (unop GetLongData long_neg s operand1)) $
  ifelse (tier2 s 0x02 result operand1)
    (switch 2 s result (unop GetIntData int_neg s operand1)) $
  ifelse (tier2 s 0x01 result operand1)
    (switch 1 s result (unop GetByteData int_neg s operand1)) $
  Some s.

Definition SHL (s : State) (result operand1 operand2 : Z) : option State :=
  ifelse (tier3 s 0x03 result operand1 operand2)
    (switch 3 s result (binop GetLongData long_shl s operand1 operand2)) $
  ifelse (tier3 s 0x02 result operand1 operand2)
    (switch 2 s result (binop GetIntData int_shl s operand1 operand2)) $
  ifelse (tier3 s 0x01 result operand1 operand2)
    (switch 1 s result (binop GetByteData int_shl s operand1 operand2)) $
  Some s.

Definition SHR (s : State) (result operand1 operand2 : Z) : option State :=
  ifelse (tier3 s 0x03 result operand1 operand2)
    (switch 3 s result (binop GetLongData long_shr s operand1 operand2)) $
  ifelse (tier3 s 0x02 result operand1 operand2)
    (switch 2 s result (binop GetIntData int_shr s operand1 operand2)) $
  ifelse (tier3 s 0x01 result operand1 operand2)
    (switch 1 s result (binop GetByteData int_shr s operand1 operand2)) $
  Some s.

Definition SAR (s : State) (result operand1 operand2 : Z) : option State :=
  ifelse (tier3 s 0x03 result operand1 operand2)
    (switch 3 s result (binop GetLongData long_shr s operand1 operand2)) $
  ifelse (tier3 s 0x02 result operand1 operand2)
    (switch 2 s result (binop GetIntData int_shr s operand1 operand2)) $
  ifelse (tier3 s 0x01 result operand1 operand2)
    (switch 1 s result (binop GetByteData int_shr s operand1 operand2)) $
  Some s.

(** [ptr] is the base the caller passes; the value is the branch target. *)
Definition IF (s : State) (ptr : Z) (condition true_branche false_branche : Z)
  : option Z :=
  c ← GetByteData s condition;
  if negb (c =? 0)
  then o ← GetLongData s true_branche; Some (to_size_t (ptr + o))
  else o ← GetLongData s false_branche; Some (to_size_t (ptr + o)).

Definition AND (s : State) (result operand1 operand2 : Z) : option State :=
  ifelse (tier3 s 0x03 result operand1 operand2)
    (switch 3 s result (binop GetLongData long_and s operand1 operand2)) $
  ifelse (tier3 s 0x02 result operand1 operand2)
    (switch 2 s result (binop GetIntData int_and s operand1 operand2)) $
  ifelse (tier3 s 0x01 result operand1 operand2)
    (switch 1 s result (binop GetByteData int_and s operand1 operand2)) $
  Some s.

Definition OR (s : State) (result operand1 operand2 : Z) : option State :=
  ifelse (tier3 s 0x03 result operand1 operand2)
    (switch 3 s result (binop GetLongData long_or s operand1 operand2)) $
  ifelse (tier3 s 0x02 result operand1 operand2)
    (switch 2 s result (binop GetIntData int_or s operand1 operand2)) $
  ifelse (tier3 s 0x01 result operand1 operand2)
    (switch 1 s result (binop GetByteData int_or s operand1 operand2)) $
  Some s.

Definition XOR (s : State) (result operand1 operand2 : Z) : option State :=
  ifelse (tier3 s 0x03 result operand1 operand2)
    (switch 3 s result (binop GetLongData long_xor s operand1 operand2)) $
  ifelse (tier3 s 0x02 result operand1 operand2)
    (switch 2 s result (binop GetIntData int_xor s operand1 operand2)) $
  ifelse (tier3 s 0x01 result operand1 operand2)
    (switch 1 s result (binop GetByteData int_xor s operand1 operand2)) $
  Some s.

Definition CMP (s : State) (result opcode operand1 operand2 : Z) : option State :=
  o ← GetByteData s opcode;
  match o with
  | 0x00 =>
      ifelse (tier3 s 0x05 result operand1 operand2)
        (switch 5 s result (binop GetDoubleData double_eq s operand1 operand2)) $
      ifelse (tier3 s 0x04 result operand1 operand2)
        (switch 4 s result (binop GetFloatData float_eq s operand1 operand2)) $
      ifelse (tier3 s 0x03 result operand1 operand2)
        (switch 3 s result (binop GetLongData long_eq s operand1 operand2)) $
      ifelse (tier3 s 0x02 result operand1 operand2)
        (switch 2 s result (binop GetIntData int_eq s operand1 operand2)) $
      ifelse (tier3 s 0x01 result operand1 operand2)
        (switch 1 s result (binop GetByteData int_eq s operand1 operand2)) $
      Some s
  | 0x01 =>
      ifelse (tier3 s 0x05 result operand1 operand2)
        (switch 5 s result (binop GetDoubleData double_ne s operand1 operand2)) $
      ifelse (tier3 s 0x04 result operand1 operand2)
        (switch 4 s result (binop GetFloatData float_ne s operand1 operand2)) $
      ifelse (tier3 s 0x03 result operand1 operand2)
        (switch 3 s result (binop GetLongData long_ne s operand1 operand2)) $
      ifelse (tier3 s 0x02 result operand1 operand2)
        (switch 2 s result (binop GetIntData int_ne s operand1 operand2)) $
      ifelse (tier3 s 0x01 result operand1 operand2)
        (switch 1 s result (binop GetByteData int_ne s operand1 operand2)) $
      Some s
  | 0x02 =>
      ifelse (tier3 s 0x05 result operand1 operand2)
        (switch 5 s result (binop GetDoubleData double_lt s operand1 operand2)) $
      ifelse (tier3 s 0x04 result operand1 operand2)
        (switch 4 s result (binop GetFloatData float_lt s operand1 operand2)) $
      ifelse (tier3 s 0x03 result operand1 operand2)
        (switch 3 s result (binop GetLongData long_lt s operand1 operand2)) $
      ifelse (tier3 s 0x02 result operand1 operand2)
        (switch 2 s result (binop GetIntData int_lt s operand1 operand2)) $
      ifelse (tier3 s 0x01 result operand1 operand2)
        (switch 1 s result (binop GetByteData int_lt s operand1 operand2)) $
      Some s
  | 0x03 =>
      ifelse (tier3 s 0x05 result operand1 operand2)
        (switch 5 s result (binop GetDoubleData double_le s operand1 operand2)) $
      ifelse (tier3 s 0x04 result operand1 operand2)
        (switch 4 s result (binop GetFloatData float_le s operand1 operand2)) $
      ifelse (tier3 s 0x03 result operand1 operand2)
        (switch 3 s result (binop GetLongData long_le s operand1 operand2)) $
      ifelse (tier3 s 0x02 result operand1 operand2)
        (switch 2 s result (binop GetIntData int_le s operand1 operand2)) $
      ifelse (tier3 s 0x01 result operand1 operand2)
        (switch 1 s result (binop GetByteData int_le s operand1 operand2)) $
      Some s
  | 0x04 =>
      ifelse (tier3 s 0x05 result operand1 operand2)
        (switch 5 s result (binop GetDoubleData double_gt s operand1 operand2)) $
      ifelse (tier3 s 0x04 result operand1 operand2)
        (switch 4 s result (binop GetFloatData float_gt s operand1 operand2)) $
      ifelse (tier3 s 0x03 result operand1 operand2)
        (switch 3 s result (binop GetLongData long_gt s operand1 operand2)) $
      ifelse (tier3 s 0x02 result operand1 operand2)
        (switch 2 s result (binop GetIntData int_gt s operand1 operand2)) $
      ifelse (tier3 s 0x01 result operand1 operand2)
        (switch 1 s result (binop GetByteData int_gt s operand1 operand2)) $
      Some s
  | 0x05 =>
      ifelse (tier3 s 0x05 result operand1 operand2)
        (switch 5 s result (binop GetDoubleData double_ge s operand1 operand2)) $
      ifelse (tier3 s 0x04 result operand1 operand2)
        (switch 4 s result (binop GetFloatData float_ge s operand1 operand2)) $
      ifelse (tier3 s 0x03 result operand1 operand2)
        (switch 3 s result (binop GetLongData long_ge s operand1 operand2)) $
      ifelse (tier3 s 0x02 result operand1 operand2)
        (switch 2 s result (binop GetIntData int_ge s operand1 operand2)) $
      ifelse (tier3 s 0x01 result operand1 operand2)
        (switch 1 s result (binop GetByteData int_ge s operand1 operand2)) $
      Some s
  | _ => Some s
  end.

Definition RETURN (s : State) : option State := Some s.

Definition GOTO (s : State) (ptr : Z) (offset : Z) : option Z :=
  o ← GetLongData s offset; Some (to_size_t (ptr + o)).

Definition THROW (s : State) : option State := Some s.
Definition WIDE (s : State) : option State := Some s.

(** ** Host calls *)

(** The bytes of a NUL-terminated string. *)
Fixpoint c_string (bytes : list Z) : option (list Z) :=
  match bytes with
  | [] => None
  | b :: rest => if b =? 0 then Some [] else cs ← c_string rest; Some (b :: cs)
  end.

(** Number of characters [printf (fmt)] writes when called without further
    arguments: a conversion specification other than [%%] would read an
    argument that was not passed. *)
Fixpoint printf_count (fmt : list Z) : option Z :=
  match fmt with
  | [] => Some 0
  | 37 :: 37 :: rest => n ← printf_count rest; Some (n + 1)
  | 37 :: _ => None
  | _ :: rest => n ← printf_count rest; Some (n + 1)
  end.

(** The host function [print]: [args] and [return_value] are the [index]
    arrays of the two [Object]s. *)
Definition print (s : State) (args return_value : list Z) : option State :=
  arg0 ← head args;
  fmt_ptr ← GetPtrData s arg0;
  fmt ← c_string (bytes_from s fmt_ptr);
  return_value_num ← printf_count fmt;
  ret ← head return_value;
  SetIntData s ret (to_int return_value_num).

(** [InitializeNameTable] registers [print] alone: its bucket holds that pair
    followed by an uninitialised node, and every other bucket has a null
    name, so looking up any other name dereferences an invalid pointer. *)
Definition GetFunction (name : list Z)
  : option (State -> list Z -> list Z -> option State) :=
  if decide (name = [112; 114; 105; 110; 116]) then Some print else None.

Definition INVOKE (s : State) (func : Z) (return_value args : list Z)
  : option State :=
  func_name_ptr ← GetPtrData s func;
  name ← c_string (bytes_from s func_name_ptr);
  invoke_func ← GetFunction name;
  invoke_func s args return_value.

(** ** The interpreter loop of [main] *)

(** The locals of [main] that survive the loader, and the blocks the C
    library holds for the program. *)
Record Machine : Type := {
  state : State;
  run_code : Z;
  bytecode_file : Z;
  bytecode_end : Z;
  blocks : list Z
}.

Definition goto (m : Machine) (s : State) (pc : Z) : Machine :=
  {| state := s; run_code := run_code m;
     bytecode_file := pc; bytecode_end := bytecode_end m;
     blocks := blocks m |}.

Definition set_blocks (m : Machine) (bs : list Z) : Machine :=
  {| state := state m; run_code := run_code m;
     bytecode_file := bytecode_file m; bytecode_end := bytecode_end m;
     blocks := bs |}.

(** A [case] of the dispatch [switch] with its operands decoded. *)
Inductive instr : Type :=
  | iNOP
  | iLOAD (first second : Z)
  | iSTORE (first second : Z)
  | iNEW (first second : Z)
  | iFREE (first : Z)
  | iPTR (first second : Z)
  | iADD (result operand1 operand2 : Z)
  | iSUB (result operand1 operand2 : Z)
  | iMUL (result operand1 operand2 : Z)
  | iDIV (result operand1 operand2 : Z)
  | iREM (result operand1 operand2 : Z)
  | iNEG (result operand1 : Z)
  | iSHL (result operand1 operand2 : Z)
  | iSHR (result operand1 operand2 : Z)
  | iSAR (result operand1 operand2 : Z)
  | iIF (result operand1 operand2 : Z)
  | iAND (result operand1 operand2 : Z)
  | iOR (result operand1 operand2 : Z)
  | iXOR (result operand1 operand2 : Z)
  | iCMP (result opcode operand1 operand2 : Z)
  | iINVOKE (func return_value : Z) (args : list Z)
  | iRETURN
  | iGOTO (operand1 : Z)
  | iTHROW
  | iWIDE
  | iDefault.

(** The call frame of INVOKE; the number of argument operands is the [long]
    found in memory at [arg_count]. Each operand takes at least one byte, so
    a count beyond the length of the block cannot be decoded. *)
Definition GetUnknownCountParament (s : State) (ptr : Z)
  : option (Z * Z * Z * list Z) :=
  '(ptr, func) ← Get1Parament s ptr;
  '(ptr, return_value) ← Get1Parament s ptr;
  '(ptr, arg_count) ← Get1Parament s ptr;
  n ← GetLongData s arg_count;
  let arg_count_num := to_size_t n in
  if Z.of_nat (length (image s)) <? arg_count_num then None
  else
    '(ptr, args) ← GetParaments (Z.to_nat arg_count_num) s ptr;
    Some (ptr, func, return_value, args).

(** Opcode fetch and operand decoding: the instruction at [bytecode_file] and
    the value [bytecode_file] has once its operands are read. The [default]
    branch leaves the pointer where it is. *)
Definition fetch (m : Machine) : option (instr * Z) :=
  let s := state m in
  let next := to_size_t (bytecode_file m + 1) in
  op ← byte_at s (bytecode_file m);
  match op with
  | 0x00 => Some (iNOP, next)
  | 0x01 => '(p, first, second) ← Get2Parament s next; Some (iLOAD first second, p)
  | 0x02 => '(p, first, second) ← Get2Parament s next; Some (iSTORE first second, p)
  | 0x03 => '(p, first, second) ← Get2Parament s next; Some (iNEW first second, p)
  | 0x04 => '(p, first) ← Get1Parament s next; Some (iFREE first, p)
  | 0x05 => '(p, first, second) ← Get2Parament s next; Some (iPTR first second, p)
  | 0x06 => '(p, r, o1, o2) ← Get3Parament s next; Some (iADD r o1 o2, p)
  | 0x07 => '(p, r, o1, o2) ← Get3Parament s next; Some (iSUB r o1 o2, p)
  | 0x08 => '(p, r, o1, o2) ← Get3Parament s next; Some (iMUL r o1 o2, p)
  | 0x09 => '(p, r, o1, o2) ← Get3Parament s next; Some (iDIV r o1 o2, p)
  | 0x0A => '(p, r, o1, o2) ← Get3Parament s next; Some (iREM r o1 o2, p)
  | 0x0B => '(p, r, o1) ← Get2Parament s next; Some (iNEG r o1, p)
  | 0x0C => '(p, r, o1, o2) ← Get3Parament s next; Some (iSHL r o1 o2, p)
  | 0x0D => '(p, r, o1, o2) ← Get3Parament s next; Some (iSHR r o1 o2, p)
  | 0x0E => '(p, r, o1, o2) ← Get3Parament s next; Some (iSAR r o1 o2, p)
  | 0x0F => '(p, r, o1, o2) ← Get3Parament s next; Some (iIF r o1 o2, p)
  | 0x10 => '(p, r, o1, o2) ← Get3Parament s next; Some (iAND r o1 o2, p)
  | 0x11 => '(p, r, o1, o2) ← Get3Parament s next; Some (iOR r o1 o2, p)
  | 0x12 => '(p, r, o1, o2) ← Get3Parament s next; Some (iXOR r o1 o2, p)
  | 0x13 => '(p, r, o, o1, o2) ← Get4Parament s next; Some (iCMP r o o1 o2, p)
  | 0x14 =>
      '(p, func, ret, args) ← GetUnknownCountParament s next;
      Some (iINVOKE func ret args, p)
  | 0x15 => Some (iRETURN, next)
  | 0x16 => '(p, o1) ← Get1Parament s next; Some (iGOTO o1, p)
  | 0x17 => Some (iTHROW, next)
  | 0xFF => Some (iWIDE, next)
  | _ => Some (iDefault, bytecode_file m)
  end.

(** The handler call of each [case]. [p] is [bytecode_file] after decoding.
    The value of [IF] is not assigned; that of [GOTO] is. *)
Definition execute (fresh : Z) (m : Machine) (i : instr) (p : Z)
  : option Machine :=
  let s := state m in
  match i with
  | iNOP => s' ← NOP s; Some (goto m s' p)
  | iLOAD first second => s' ← LOAD s first second; Some (goto m s' p)
  | iSTORE first second => s' ← STORE s first second; Some (goto m s' p)
  | iNEW first second =>
      s' ← NEW fresh s first second;
      Some (set_blocks (goto m s' p) (fresh :: blocks m))
  | iFREE first =>
      bs ← FREE (blocks m) s first; Some (set_blocks (goto m s p) bs)
  | iPTR first second => s' ← PTR s first second; Some (goto m s' p)
  | iADD r o1 o2 => s' ← ADD s r o1 o2; Some (goto m s' p)
  | iSUB r o1 o2 => s' ← SUB s r o1 o2; Some (goto m s' p)
  | iMUL r o1 o2 => s' ← MUL s r o1 o2; Some (goto m s' p)
  | iDIV r o1 o2 => s' ← DIV s r o1 o2; Some (goto m s' p)
  | iREM r o1 o2 => s' ← REM s r o1 o2; Some (goto m s' p)
  | iNEG r o1 => s' ← NEG s r o1; Some (goto m s' p)
  | iSHL r o1 o2 => s' ← SHL s r o1 o2; Some (goto m s' p)
  | iSHR r o1 o2 => s' ← SHR s r o1 o2; Some (goto m s' p)
  | iSAR r o1 o2 => s' ← SAR s r o1 o2; Some (goto m s' p)
  | iIF r o1 o2 => _ ← IF s (run_code m) r o1 o2; Some (goto m s p)
  | iAND r o1 o2 => s' ← AND s r o1 o2; Some (goto m s' p)
  | iOR r o1 o2 => s' ← OR s r o1 o2; Some (goto m s' p)
  | iXOR r o1 o2 => s' ← XOR s r o1 o2; Some (goto m s' p)
  | iCMP r o o1 o2 => s' ← CMP s r o o1 o2; Some (goto m s' p)
  | iINVOKE func ret args => s' ← INVOKE s func [ret] args; Some (goto m s' p)
  | iRETURN => s' ← RETURN s; Some (goto m s' p)
  | iGOTO o1 => q ← GOTO s (run_code m) o1; Some (goto m s q)
  | iTHROW => s' ← THROW s; Some (goto m s' p)
  | iWIDE => s' ← WIDE s; Some (goto m s' p)
  | iDefault => Some (goto m s p)
  end.

(** One iteration of [while (bytecode_file < bytecode_end)]. *)
Definition step (fresh : Z) (m : Machine) : option Machine :=
  '(i, p) ← fetch m; execute fresh m i p.

Inductive outcome : Type :=
  | Finished (m : Machine)
  | Crashed
  | Running (m : Machine).

(** The loop. [host] lists, per iteration, the address a call to [malloc]
    would return in it; the loop is cut ([Running]) when the list is used
    up. *)
Fixpoint run (host : list Z) (m : Machine) : outcome :=
  if bytecode_file m <? bytecode_end m then
    match host with
    | [] => Running m
    | fresh :: host' =>
        match step fresh m with
        | Some m' => run host' m'
        | None => Crashed
        end
    end
  else Finished m.

(** ** The loader at the head of [main] *)

Inductive loaded : Type :=
  | Loaded (m : Machine)
  | BadMagic
  | ShortFile.

(** [bytecode_begin] is the address of the buffer [malloc] returned for the
    [file] bytes. The magic test reads the first four bytes in turn and stops
    at the first mismatch; the header is 16 bytes, and the diagnostic printed
    before the loop reads the eight bytes at the start of the type array. A
    file too short for one of these reads is read past its end
    ([ShortFile]). *)
Definition load (bytecode_begin : Z) (file : list Z) : loaded :=
  let differs (i : nat) (c : Z) : option bool :=
    b ← file !! i; Some (negb (b =? c)) in
  match orelse (differs 0%nat 0x41) (orelse (differs 1%nat 0x51)
          (orelse (differs 2%nat 0x42) (differs 3%nat 0x43))) with
  | None => ShortFile
  | Some true => BadMagic
  | Some false =>
      if Z.of_nat (length file) <? 16 then ShortFile
      else
        let bytecode_end := to_size_t (bytecode_begin + Z.of_nat (length file)) in
        let bytecode_file := to_size_t (bytecode_begin + 8) in
        let memory_size := be_decode (take 8 (drop 8 file)) in
        let bytecode_file := to_size_t (bytecode_file + 8) in
        let data := bytecode_file in
        let bytecode_file := to_size_t (bytecode_file + memory_size) in
        let type := bytecode_file in
        let memory := InitializeMemory data type memory_size in
        let s := {| bytecode_begin := bytecode_begin;
                    image := file; memory := memory |} in
        match load_bytes s type 8 with
        | None => ShortFile
        | Some diagnostic =>
            let bytecode_file := to_size_t (bytecode_file + memory_size / 2) in
            Loaded {| state := s;
                      run_code := bytecode_file;
                      bytecode_file := bytecode_file;
                      bytecode_end := bytecode_end;
                      blocks := [] |}
        end
  end.

(** ** Vocabulary of the properties *)

(** [s'] is [s] except, at most, for the bytes at addresses [a .. a + n). *)
Definition same_outside (s s' : State) (a n : Z) : Prop :=
  bytecode_begin s' = bytecode_begin s /\
  memory s' = memory s /\
  length (image s') = length (image s) /\
  forall x, ~ (a <= x < a + n) -> byte_at s' x = byte_at s x.

(** Width of the C type a typed store uses for tag [t]. *)
Definition sizeof_tag (t : Z) : Z :=
  match t with
  | 0x01 => 1
  | 0x02 => 4
  | 0x03 => 8
  | 0x04 => 4
  | 0x05 => 8
  | _ => 0
  end.

(** A computation that, when it yields a state, changed at most the bytes of
    slot [r], and nothing when the tag of [r] is not 1..5. *)
Definition framed (s : State) (r : Z) (res : option State) : Prop :=
  forall s' t, res = Some s' -> GetType s r = Some t ->
    same_outside s s' (slot_addr s r) (sizeof_tag t) /\
    (~ (1 <= t <= 5) -> s' = s).

(** The destination slot of the thirteen arithmetic, bitwise and comparison
    instructions. *)
Definition alu_dest (i : instr) : option Z :=
  match i with
  | iADD r _ _ | iSUB r _ _ | iMUL r _ _ | iDIV r _ _ | iREM r _ _
  | iNEG r _ | iSHL r _ _ | iSHR r _ _ | iSAR r _ _
  | iAND r _ _ | iOR r _ _ | iXOR r _ _ | iCMP r _ _ _ => Some r
  | _ => None
  end.

(** Address and length of the only range a handler stores to, as determined
    by the state before it runs. *)
Definition footprint (s : State) (i : instr) : option (Z * Z) :=
  match i with
  | iLOAD _ second =>
      t ← GetType s second; Some (slot_addr s second, GET_SIZE t)
  | iSTORE first second =>
      dst ← read_ptr s (slot_addr s first);
      t ← GetType s second; Some (dst, GET_SIZE t)
  | iNEW first _ => Some (slot_addr s first, 8)
  | iPTR _ second => Some (slot_addr s second, 8)
  | iINVOKE _ ret _ => t ← GetType s ret; Some (slot_addr s ret, sizeof_tag t)
  | iCMP r opcode _ _ =>
      o ← GetByteData s opcode;
      if (0 <=? o) && (o <=? 5)
      then t ← GetType s r; Some (slot_addr s r, sizeof_tag t)
      else Some (0, 0)
  | _ =>
      match alu_dest i with
      | Some r => t ← GetType s r; Some (slot_addr s r, sizeof_tag t)
      | None => Some (0, 0)
      end
  end.

(** The layout [main] sets up when the segments fit below 2^64: the type
    array starts where the data segment ends. *)
Definition layout (s : State) : Prop :=
  0 <= data (memory s) /\
  0 <= size (memory s) /\
  type (memory s) = data (memory s) + size (memory s) /\
  type (memory s) + size (memory s) / 2 < 2 ^ 64.

(** The range [a .. a + n) is empty or lies in the data segment. *)
Definition writes_within_data (s : State) (a n : Z) : Prop :=
  n = 0 \/
  (data (memory s) <= a /\ a + n <= data (memory s) + size (memory s)).

(** Every slot has the tag it had. *)
Definition preserves_types (s s' : State) : Prop :=
  forall i, 0 <= i < size (memory s) -> GetType s' i = GetType s i.

(** A run of loop iterations each of which writes inside the data segment
    or not at all. *)
Inductive within_data_run : Machine -> Machine -> Prop :=
  | within_data_done m : within_data_run m m
  | within_data_next fresh m i p a n m1 m2 :
      fetch m = Some (i, p) ->
      execute fresh m i p = Some m1 ->
      footprint (state m) i = Some (a, n) ->
      writes_within_data (state m) a n ->
      within_data_run m1 m2 ->
      within_data_run m m2.

(** Modelled from the spec: the encoder is not part of the interpreter (the
    compiler emits operands); the ULEB-255 form of [v] is floor(v/255) bytes
    255 followed by the terminal byte v mod 255. *)
Definition encode (v : Z) : list Z :=
  replicate (Z.to_nat (v / 255)) 255 ++ [v mod 255].

(** ** The arithmetic kernel as described *)

(** The following definitions follow the words of the specification, for
    comparison with the handlers. They are written on the bytes of the block
    ([load_bytes], [store_bytes], [byte_at]) and use none of the
    interpreter's functions: [type_of], [read_as] and [write_as] are the
    tagged-memory operations as described, with the C conversions and the
    encodings written out. *)
Module Described.

(** Storage width of a tag, in bytes. *)
Definition width (t : Z) : Z :=
  match t with
  | 0x01 => 1
  | 0x02 => 4
  | 0x03 => 8
  | 0x04 => 4
  | 0x05 => 8
  | _ => 0
  end.

(** Rank of a tag: double > float > long > int > byte. *)
Definition rank (t : Z) : Z :=
  match t with
  | 0x05 => 5
  | 0x04 => 4
  | 0x03 => 3
  | 0x02 => 2
  | 0x01 => 1
  | _ => 0
  end.

(** The highest-ranked tag among result, lhs and rhs. *)
Definition working_type (tr ta tb : Z) : Z :=
  let best (x y : Z) := if rank x <? rank y then y else x in
  best tr (best ta tb).

(** [type_of (i)]: nibble [i] of the type array, [(byte[i/2] >> 4) & 0xF]
    when [i] is even and [byte[i/2] & 0xF] when it is odd. *)
Definition type_of (s : State) (i : Z) : option Z :=
  b ← byte_at s ((type (memory s) + i / 2) mod 2 ^ 64);
  Some (if Z.even i then Z.land (Z.shiftr b 4) 0xF else Z.land b 0xF).

(** The address [data + i] of slot [i]. *)
Definition address (s : State) (i : Z) : Z := (data (memory s) + i) mod 2 ^ 64.

(** The two's-complement integer of [bits] bits congruent to [z]. *)
Definition signed (bits z : Z) : Z :=
  let r := z mod 2 ^ bits in
  if r <? 2 ^ (bits - 1) then r else r - 2 ^ bits.

(** The native value at offset [i], read with the storage width of the tag
    [t]: a little-endian two's-complement integer, or the number a
    little-endian IEEE-754 pattern stands for. *)
Definition native (s : State) (i t : Z) : option num :=
  bs ← load_bytes s (address s i) (Z.to_nat (width t));
  match t with
  | 0x01 | 0x02 | 0x03 => Some (I (signed (8 * width t) (le_decode bs)))
  | 0x04 => Some (F (SF_of_bits 23 8 (le_decode bs)))
  | 0x05 => Some (F (SF_of_bits 52 11 (le_decode bs)))
  | _ => None
  end.

(** The integral part of a floating-point number (truncation toward zero);
    a NaN and the infinities have none. *)
Definition trunc (x : spec_float) : option Z :=
  match x with
  | S754_zero _ => Some 0
  | S754_finite sg m e =>
      let n := if sg then Z.neg m else Z.pos m in
      Some (if 0 <=? e then n * 2 ^ e else n ÷ 2 ^ (- e))
  | _ => None
  end.

(** Rounding to the format of precision [prec]. *)
Definition round (prec emax : Z) (x : spec_float) : spec_float :=
  match x with
  | S754_finite sg m e => binary_round prec emax sg m e
  | _ => x
  end.

(** C numeric conversion of [v] to the kind [k]: integers wrap in two's
    complement, a floating-point number goes to an integer kind by
    truncation toward zero when the result fits (no result otherwise), and
    to a floating kind by IEEE rounding to nearest. *)
Definition convert (k : Z) (v : num) : option num :=
  match v with
  | I z =>
      match k with
      | 0x01 | 0x02 | 0x03 => Some (I (signed (8 * width k) z))
      | 0x04 => Some (F (binary_normalize 24 128 z 0 false))
      | 0x05 => Some (F (binary_normalize 53 1024 z 0 false))
      | _ => None
      end
  | F x =>
      match k with
      | 0x01 | 0x02 | 0x03 =>
          q ← trunc x;
          if (- 2 ^ (8 * width k - 1) <=? q) && (q <=? 2 ^ (8 * width k - 1) - 1)
          then Some (I q) else None
      | 0x04 => Some (F (round 24 128 x))
      | 0x05 => Some (F (round 53 1024 x))
      | _ => None
      end
  end.

(** [read_as (i, kind)]: the native value at [i], read with the width of
    [type_of (i)], then converted to [kind]. *)
Definition read_as (s : State) (i : Z) (kind : Z) : option num :=
  t ← type_of s i; v ← native s i t; convert kind v.

(** The IEEE-754 patterns of [x] in the format of [mw] mantissa and [ew]
    exponent bits, the exponent bias being 2^(ew-1) - 1: sign bit, exponent
    field and fraction. A number m * 2^e with m < 2^mw is subnormal
    (exponent field 0, fraction m); otherwise the exponent field is
    e + mw + bias and the fraction is m without its leading bit. For a NaN,
    every pattern with all exponent bits set and a fraction that is not zero
    stands (which one is stored is the processor's choice). *)
Definition ieee (mw ew : Z) (x : spec_float) (bits : Z) : Prop :=
  let bias := 2 ^ (ew - 1) - 1 in
  let sign (sg : bool) := if sg then 2 ^ (mw + ew) else 0 in
  match x with
  | S754_zero sg => bits = sign sg
  | S754_infinity sg => bits = sign sg + (2 ^ ew - 1) * 2 ^ mw
  | S754_nan =>
      0 <= bits < 2 ^ (mw + ew + 1) /\
      Z.land (Z.shiftr bits mw) (2 ^ ew - 1) = 2 ^ ew - 1 /\
      Z.land bits (2 ^ mw - 1) <> 0
  | S754_finite sg m e =>
      if Z.pos m <? 2 ^ mw then bits = sign sg + Z.pos m
      else bits = sign sg + (e + mw + bias) * 2 ^ mw + (Z.pos m - 2 ^ mw)
  end.

(** The bytes that hold the value [c] in a slot of tag [t]. *)
Definition encoding (t : Z) (c : num) (bs : list Z) : Prop :=
  match c with
  | I z =>
      match t with
      | 0x01 | 0x02 | 0x03 => bs = le_encode (Z.to_nat (width t)) z
      | _ => False
      end
  | F x =>
      match t with
      | 0x04 => exists bits, ieee 23 8 x bits /\ bs = le_encode 4 bits
      | 0x05 => exists bits, ieee 52 11 x bits /\ bs = le_encode 8 bits
      | _ => False
      end
  end.

(** [write_as (i, value)]: [value] is converted to the tag of [i] and stored
    at [i] with that tag's width; [outcome] is what the store comes to. *)
Definition write_as (s : State) (i : Z) (v : num) (outcome : option State)
  : Prop :=
  match t ← type_of s i; c ← convert t v; Some (t, c) with
  | Some (t, c) =>
      exists bs, encoding t c bs /\ outcome = store_bytes s (address s i) bs
  | None => outcome = None
  end.

(** [write_as] for a destination with an integer tag, where the bytes are
    determined. *)
Definition write_int (s : State) (i : Z) (v : num) : option State :=
  t ← type_of s i;
  c ← convert t v;
  match c with
  | I z => store_bytes s (address s i) (le_encode (Z.to_nat (width t)) z)
  | F _ => None
  end.

(** Addition performed in the working type. *)
Definition add_in (kind : Z) (a b : num) : option num :=
  match a, b with
  | I x, I y =>
      match kind with
      | 0x01 | 0x02 | 0x03 => Some (I (signed (8 * width kind) (x + y)))
      | _ => None
      end
  | F x, F y =>
      match kind with
      | 0x04 => Some (F (SFadd 24 128 x y))
      | 0x05 => Some (F (SFadd 53 1024 x y))
      | _ => None
      end
  | _, _ => None
  end.

(** ADD as described: the operands are read as the working type, added in
    it, and the sum is written to the destination; [outcome] is what the
    instruction comes to. *)
Definition ADD_described (s : State) (result lhs rhs : Z)
    (outcome : option State) : Prop :=
  match tr ← type_of s result;
        ta ← type_of s lhs;
        tb ← type_of s rhs;
        let w := working_type tr ta tb in
        a ← read_as s lhs w;
        b ← read_as s rhs w;
        add_in w a b with
  | Some v => write_as s result v outcome
  | None => outcome = None
  end.

(** Number of value bits the shifted operand has once promoted: [int8_t]
    is promoted to [int]. *)
Definition shift_bits (kind : Z) : Z :=
  match kind with
  | 0x03 => 64
  | _ => 32
  end.

(** Arithmetic right shift in the working type: the quotient by 2^n rounded
    toward minus infinity, which keeps the sign. The count is valid from 0
    up to the width of the promoted operand. *)
Definition asr_in (kind : Z) (a n : num) : option num :=
  match kind, a, n with
  | (0x01 | 0x02 | 0x03), I x, I k =>
      if (0 <=? k) && (k <? shift_bits kind) then Some (I (x / 2 ^ k)) else None
  | _, _, _ => None
  end.

Definition ASR_described (s : State) (result lhs rhs : Z) : option State :=
  tr ← type_of s result;
  ta ← type_of s lhs;
  tb ← type_of s rhs;
  let w := working_type tr ta tb in
  a ← read_as s lhs w;
  n ← read_as s rhs w;
  v ← asr_in w a n;
  write_int s result v.

End Described.

(** ** Concrete images *)

Module Example.

(** The 16-byte header: magic, four reserved bytes, [memory_size] big-endian. *)
Definition header (memory_size : Z) : list Z :=
  [0x41; 0x51; 0x42; 0x43; 0; 0; 0; 0] ++ reverse (le_encode 8 memory_size).

Definition file_of (data types code : list Z) : list Z :=
  header (Z.of_nat (length data)) ++ data ++ types ++ code.

(** The machine [main] enters its loop with, the buffer being at 4096. *)
Definition boot (file : list Z) : option Machine :=
  match load 4096 file with
  | Loaded m => Some m
  | _ => None
  end.

Definition int32 (z : Z) : list Z := le_encode 4 z.
Definition int64 (z : Z) : list Z := le_encode 8 z.

(** Offset of the program counter in the code segment. *)
Definition pc (m : Machine) : Z := bytecode_file m - run_code m.

(** The data segment. *)
Definition data_of (m : Machine) : list Z :=
  take (Z.to_nat (size (memory (state m))))
       (drop (Z.to_nat (data (memory (state m)) - bytecode_begin (state m)))
             (image (state m))).

Definition halted : Machine :=
  {| state := {| bytecode_begin := 0; image := [];
                 memory := InitializeMemory 0 0 0 |};
     run_code := 0; bytecode_file := 0; bytecode_end := 0; blocks := [] |}.

Definition booted (file : list Z) : Machine := default halted (boot file).

(** Three [int] slots 0, 4, 8 holding 3, 4, 0, and the code [code]. *)
Definition ints_3_4_0 (code : list Z) : list Z :=
  file_of (int32 3 ++ int32 4 ++ int32 0) [0x20; 0; 0x20; 0; 0x20; 0] code.

(** ADD 8, 0, 4 on the three [int] slots. *)
Definition add_before : Machine :=
  Eval vm_compute in booted (ints_3_4_0 [0x06; 8; 0; 4]).
Definition add_after : Machine :=
  Eval vm_compute in default halted (step 0 add_before).

(** Two [byte] slots, and PTR 0, 1: the address of slot 0 is stored at
    slot 1, the last byte of the data segment. *)
Definition ptr_file : list Z :=
  file_of [0; 0] [0x11] [0x05; 0; 1; 0; 0; 0; 0; 0; 0].
Definition ptr_before : Machine := Eval vm_compute in booted ptr_file.
Definition ptr_after : Machine :=
  Eval vm_compute in default halted (step 0 ptr_before).

(** FREE with an operand of [n] bytes 255 and the terminal byte 0, as the
    only instruction of an image without data. *)
Definition long_operand_file (n : nat) : list Z :=
  header 0 ++ 0x04 :: replicate n 255 ++ [0].

Definition long_operand_machine (n : nat) : Machine :=
  {| state := {| bytecode_begin := 4096; image := long_operand_file n;
                 memory := InitializeMemory 4112 4112 0 |};
     run_code := 4112; bytecode_file := 4112;
     bytecode_end := 4114 + Z.of_nat n; blocks := [] |}.

End Example.

Module Example1.

(** Slot 0 is a [byte] holding 1, slots 1 and 9 are [long]s holding 7 and 3.
    The code is NOP; IF 0, 1, 9. *)
Definition if_file : list Z :=
  Example.file_of ([1] ++ Example.int64 7 ++ Example.int64 3 ++ [0])
    [0x13; 0; 0; 0; 0x03; 0; 0; 0; 0] [0x00; 0x0F; 0; 1; 9].
Definition if_boot : Machine := Eval vm_compute in Example.booted if_file.
Definition if_before : Machine :=
  Eval vm_compute in default Example.halted (step 0 if_boot).
Definition if_after : Machine :=
  Eval vm_compute in default Example.halted (step 0 if_before).

End Example1.

Module Example2.

(** RETURN followed by ADD 8, 0, 4 on the [int] slots 3, 4, 0. *)
Definition ret_file : list Z := Example.ints_3_4_0 [0x15; 0x06; 8; 0; 4].
Definition ret_boot : Machine := Eval vm_compute in Example.booted ret_file.
Definition ret_next : Machine :=
  Eval vm_compute in default Example.halted (step 0 ret_boot).
Definition ret_end : Machine :=
  Eval vm_compute in default Example.halted (step 0 ret_next).

End Example2.

Module Example4.

(** Slot 0 holds the [double] 2.5, slot 8 the [int] 1, slots 12 and 16 are
    [int]s holding 0; ADD 16, 0, 8. *)
Definition mixed_file : list Z :=
  Example.file_of
    (Example.int64 0x4004000000000000 ++ Example.int32 1
     ++ Example.int32 0 ++ Example.int32 0)
    [0x50; 0; 0; 0; 0x20; 0; 0x20; 0; 0x20; 0] [0x06; 16; 0; 8].
Definition mixed_before : Machine :=
  Eval vm_compute in Example.booted mixed_file.
Definition mixed_after : Machine :=
  Eval vm_compute in default Example.halted (step 0 mixed_before).

End Example4.

Module Example5.

(** [int] slots 0, 4, 8 holding -8, 1, 0, with SHR 8, 0, 4 or SAR 8, 0, 4. *)
Definition shift_file (opcode : Z) : list Z :=
  Example.file_of (Example.int32 (-8) ++ Example.int32 1 ++ Example.int32 0)
    [0x20; 0; 0x20; 0; 0x20; 0] [opcode; 8; 0; 4].
Definition shr_before : Machine :=
  Eval vm_compute in Example.booted (shift_file 0x0D).
Definition shr_after : Machine :=
  Eval vm_compute in default Example.halted (step 0 shr_before).
Definition sar_before : Machine :=
  Eval vm_compute in Example.booted (shift_file 0x0E).
Definition sar_after : Machine :=
  Eval vm_compute in default Example.halted (step 0 sar_before).

End Example5.

Module Example6.

(** Slot 0 is a [long]. *)
Definition long_slot (v : Z) (code : list Z) : list Z :=
  Example.file_of (Example.int64 v) [0x30; 0; 0; 0] code.

(** Offset 0; the code is NOP; GOTO 0; NOP. *)
Definition back_file : list Z := long_slot 0 [0x00; 0x16; 0; 0x00].
Definition back_boot : Machine := Eval vm_compute in Example.booted back_file.
Definition back_before : Machine :=
  Eval vm_compute in default Example.halted (step 0 back_boot).
Definition back_after : Machine :=
  Eval vm_compute in default Example.halted (step 0 back_before).

(** Offset +2; the code is GOTO 0; NOP; RETURN. *)
Definition skip_file : list Z := long_slot 2 [0x16; 0; 0; 0x15].
Definition skip_boot : Machine := Eval vm_compute in Example.booted skip_file.
Definition skip_1 : Machine :=
  Eval vm_compute in default Example.halted (step 0 skip_boot).
Definition skip_2 : Machine :=
  Eval vm_compute in default Example.halted (step 0 skip_1).
Definition skip_3 : Machine :=
  Eval vm_compute in default Example.halted (step 0 skip_2).

(** Offset +2; the code is the four bytes 16 00 00 00. *)
Definition nops_file : list Z := long_slot 2 [0x16; 0; 0; 0].
Definition nops_boot : Machine := Eval vm_compute in Example.booted nops_file.
Definition nops_1 : Machine :=
  Eval vm_compute in default Example.halted (step 0 nops_boot).
Definition nops_2 : Machine :=
  Eval vm_compute in default Example.halted (step 0 nops_1).
Definition nops_3 : Machine :=
  Eval vm_compute in default Example.halted (step 0 nops_2).

End Example6.

Module Example7.

(** [memory_size] = 1: one data byte, one type byte (slot 0 is a [byte]),
    then the code, a NOP followed by eight WIDE. *)
Definition odd_file : list Z :=
  Example.file_of [0xAA] [0x10] (0x00 :: replicate 8 0xFF).
Definition odd_machine : Machine := Eval vm_compute in Example.booted odd_file.

End Example7.

Module Example8.

(** Slot 0 holds the [double] 2.5, slot 8 is a [double] holding 0;
    LOAD 0, 8. *)
Definition double_file : list Z :=
  Example.file_of (Example.int64 0x4004000000000000 ++ Example.int64 0)
    [0x50; 0; 0; 0; 0x50; 0; 0; 0] [0x01; 0; 8].
Definition double_before : Machine :=
  Eval vm_compute in Example.booted double_file.

End Example8.

(** ** The name table *)

Module NameTable.

(** A host function, as [print]: the state and the two index arrays. *)
Definition func_ptr : Type := State -> list Z -> list Z -> option State.

(** [struct LinkedList] as a pointer sees it: [Null] is the null pointer,
    [Uninit] a node from [malloc] that was never written, [Node] a node with
    its [pair.first] (a string, or null), [pair.second] (a function, or
    null) and [next]. *)
Inductive LinkedList : Type :=
  | Null
  | Uninit
  | Node (first : option (list Z)) (second : option func_ptr)
         (next : LinkedList).

(** The loop of [hash]: [hash] is an [unsigned long], [c] the [char] read,
    as an [int]. *)
Fixpoint hash_loop (str : list Z) (hash : Z) : Z :=
  match str with
  | [] => hash
  | c :: rest =>
      hash_loop rest
        (to_size_t (to_size_t (to_size_t (Z.shiftl hash 5) + hash) + to_int8 c))
  end.

(** djb2 of the characters before the terminating NUL, modulo 1024. *)
Definition hash (str : list Z) : Z := hash_loop str 5381 mod 1024.

(** The characters of the string literal "print". *)
Definition print_name : list Z := [112; 114; 105; 110; 116].

(** The global [name_table] before [main] runs: 1024 zeroed nodes. *)
Definition name_table : list LinkedList := replicate 1024 (Node None None Null).

(** [while (table != NULL) table = table->next;] *)
Fixpoint walk_to_end (table : LinkedList) : option unit :=
  match table with
  | Null => Some ()
  | Uninit => None
  | Node _ _ next => walk_to_end next
  end.

(** The table after [InitializeNameTable]; the head of the bucket of "print"
    is overwritten and its [next] is a fresh node left as [malloc] gave it. *)
Definition InitializeNameTable (table : list LinkedList)
  : option (list LinkedList) :=
  let name_hash := Z.to_nat (hash print_name) in
  head ← table !! name_hash;
  _ ← walk_to_end head;
  Some (<[name_hash := Node (Some print_name) (Some print) Uninit]> table).

(** What a lookup comes to: a function pointer (possibly null) found with
    the name, the null pointer returned at the end of a chain, or a read
    through an invalid pointer. *)
Inductive lookup : Type :=
  | Found (f : option func_ptr)
  | NotFound
  | Invalid.

(** The loop of [GetFunction]; [strcmp] dereferences [pair.first]. *)
Fixpoint GetFunction_loop (table : LinkedList) (name : list Z) : lookup :=
  match table with
  | Null => NotFound
  | Uninit => Invalid
  | Node first second next =>
      match first with
      | None => Invalid
      | Some str =>
          if decide (str = name) then Found second
          else GetFunction_loop next name
      end
  end.

Definition GetFunction_in (table : list LinkedList) (name : list Z) : lookup :=
  match table !! Z.to_nat (hash name) with
  | Some head => GetFunction_loop head name
  | None => Invalid
  end.

End NameTable.

Module Example9.

(** Slot 0 is a [long] holding the address of slot 8; slots 8 and 12 are
    [int]s holding 0 and 77. The code is STORE 0, 12. *)
Definition store_file : list Z :=
  Example.file_of
    (Example.int64 4120 ++ Example.int32 0 ++ Example.int32 77)
    [0x30; 0; 0; 0; 0x20; 0; 0x20; 0] [0x02; 0; 12].
Definition store_before : Machine :=
  Eval vm_compute in Example.booted store_file.
Definition store_after : Machine :=
  Eval vm_compute in default Example.halted (step 0 store_before).

(** The code is NOP; the byte 0x18, which is no opcode; NOP; NOP. *)
Definition stuck_file : list Z :=
  Example6.long_slot 0 [0x00; 0x18; 0x00; 0x00].
Definition stuck_boot : Machine :=
  Eval vm_compute in Example.booted stuck_file.
Definition stuck_1 : Machine :=
  Eval vm_compute in default Example.halted (step 0 stuck_boot).

(** The code is NOP; RETURN; THROW; WIDE. *)
Definition quiet_file : list Z :=
  Example6.long_slot 0 [0x00; 0x15; 0x17; 0xFF].
Definition quiet_boot : Machine :=
  Eval vm_compute in Example.booted quiet_file.

(** Slot 0 is a [long] holding the address of the string "print", slot 8 a
    [long] holding the address of the string "hi", slot 16 an [int], slot 20
    a [long] holding 1; the strings are at the offsets 28 and 34 of the data
    segment. The code is INVOKE 0, 16, 20 with the one argument 8. *)
Definition invoke_file : list Z :=
  Example.file_of
    (Example.int64 4140 ++ Example.int64 4146 ++ Example.int32 0
     ++ Example.int64 1
     ++ [112; 114; 105; 110; 116; 0] ++ [104; 105; 0; 0])
    ([0x30; 0; 0; 0; 0x30; 0; 0; 0; 0x20; 0; 0x30] ++ replicate 8 0)
    [0x14; 0; 16; 20; 8].
Definition invoke_before : Machine :=
  Eval vm_compute in Example.booted invoke_file.
Definition invoke_after : Machine :=
  Eval vm_compute in default Example.halted (step 0 invoke_before).

(** Slot 0 is a [float] holding 200.0, slots 4 and 8 are [int]s; the code
    is four NOPs. *)
Definition float_file : list Z :=
  Example.file_of
    (Example.int32 0x43480000 ++ Example.int32 0 ++ Example.int32 0)
    [0x40; 0; 0x20; 0; 0x20; 0] [0; 0; 0; 0].
Definition float_boot : Machine :=
  Eval vm_compute in Example.booted float_file.

End Example9.

(** ** Vocabulary of the further properties *)

(** The block lies in the address space, the address after its last byte
    included. *)
Definition block_ok (s : State) : Prop :=
  0 <= bytecode_begin s /\
  bytecode_begin s + Z.of_nat (length (image s)) < 2 ^ 64.

(** The two cases of the dispatch that do not move the program counter
    forward: the jump, and the byte the dispatch does not know. *)
Definition jumps_or_stays (i : instr) : bool :=
  match i with
  | iGOTO _ | iDefault => true
  | _ => false
  end.

(** No iteration of the loop run from [m] with [host] fetches a jump or an
    unknown byte. *)
Fixpoint straight_line (host : list Z) (m : Machine) : Prop :=
  if bytecode_file m <? bytecode_end m then
    match host, fetch m with
    | fresh :: host', Some (i, p) =>
        jumps_or_stays i = false /\
        match execute fresh m i p with
        | Some m' => straight_line host' m'
        | None => True
        end
    | _, _ => True
    end
  else True.

(** * Properties *)

(** ** Frame of the store primitives *)

Lemma same_outside_refl s a n : same_outside s s a n.
Proof. repeat split. Qed.

Lemma same_outside_weaken s s' a n b k :
  same_outside s s' a n -> b <= a -> a + n <= b + k -> same_outside s s' b k.
Proof.
  intros (Hb & Hm & Hl & Hx) H1 H2. repeat split; auto.
  intros x Hout. apply Hx. lia.
Qed.

Lemma offset_of_Some s a n i :
  offset_of s a n = Some i ->
  0 <= a - bytecode_begin s /\
  a - bytecode_begin s + n <= Z.of_nat (length (image s)) /\
  i = Z.to_nat (a - bytecode_begin s).
Proof.
  unfold offset_of. intros H.
  destruct (0 <=? a - bytecode_begin s) eqn:E1; [|discriminate].
  destruct (a - bytecode_begin s + n <=? Z.of_nat (length (image s))) eqn:E2;
    [|discriminate].
  simpl in H. inversion H. lia.
Qed.

Lemma store_bytes_same_outside s a bs s' :
  store_bytes s a bs = Some s' -> same_outside s s' a (Z.of_nat (length bs)).
Proof.
  unfold store_bytes. intros H.
  destruct (offset_of s a (Z.of_nat (length bs))) as [i|] eqn:Hi; [|discriminate].
  simpl in H. inversion H; subst s'; clear H.
  apply offset_of_Some in Hi. destruct Hi as (H0 & H1 & ->).
  unfold same_outside, set_image; simpl. rewrite length_inserts.
  repeat split. intros x Hx.
  unfold byte_at, offset_of; simpl. rewrite length_inserts.
  destruct ((0 <=? x - bytecode_begin s)
            && (x - bytecode_begin s + 1 <=? Z.of_nat (length (image s))))
    eqn:E; [|reflexivity].
  simpl. apply andb_prop in E. destruct E as [E1 E2].
  apply Z.leb_le in E1, E2.
  destruct (Z_lt_le_dec x a) as [Hlt|Hge].
  - apply list_lookup_inserts_lt. lia.
  - apply list_lookup_inserts_ge. lia.
Qed.

Lemma length_le_encode n z : length (le_encode n z) = n.
Proof. revert z. induction n; intros; simpl; auto. Qed.

Lemma memcpy_same_outside s dst src s' :
  memcpy s dst src = Some s' -> same_outside s s' dst (Z.of_nat (length src)).
Proof.
  destruct src as [|b src]; simpl.
  - intros H. inversion H. apply same_outside_refl.
  - apply store_bytes_same_outside.
Qed.

Lemma WriteData_same_outside s index bytes s' :
  WriteData s index bytes = Some s' ->
  same_outside s s' (slot_addr s index) (Z.of_nat (length bytes)).
Proof. apply memcpy_same_outside. Qed.

Lemma SetPtrData_same_outside s index ptr s' :
  SetPtrData s index ptr = Some s' -> same_outside s s' (slot_addr s index) 8.
Proof.
  unfold SetPtrData. intros H.
  destruct (GetType s index); [|discriminate]. simpl in H.
  apply store_bytes_same_outside in H.
  rewrite ?length_le_encode in H. exact H.
Qed.

(** The typed store of tag [t] writes [sizeof_tag t] bytes at the slot. *)
Lemma assign_same_outside s t index v s' :
  assign s t index v = Some s' ->
  same_outside s s' (slot_addr s index) (sizeof_tag t).
Proof.
  unfold assign, put_int8, put_int, put_long, put_float, put_double.
  intros H.
  repeat (case_match; try discriminate; simplify_option_eq;
          try apply same_outside_refl);
    match goal with
    | H : store_bytes _ _ _ = Some _ |- _ =>
        apply store_bytes_same_outside in H;
        rewrite ?length_le_encode in H; exact H
    end.
Qed.

Lemma switch_frame n s index rhs s' t :
  switch n s index rhs = Some s' ->
  GetType s index = Some t ->
  same_outside s s' (slot_addr s index) (sizeof_tag t) /\
  (~ (1 <= t <= n) -> s' = s).
Proof.
  unfold switch. intros H Ht. rewrite Ht in H. simpl in H.
  destruct ((1 <=? t) && (t <=? n)) eqn:E.
  - destruct rhs as [v|]; [|discriminate]. simpl in H.
    split; [eapply assign_same_outside; eauto|].
    apply andb_prop in E. destruct E as [E1 E2].
    apply Z.leb_le in E1, E2. lia.
  - inversion H. split; [apply same_outside_refl|auto].
Qed.

(** ** Frame of the arithmetic, bitwise and comparison handlers *)

Lemma framed_Some s r : framed s r (Some s).
Proof. intros s' t H _. inversion H. split; [apply same_outside_refl|auto]. Qed.

Lemma framed_None s r : framed s r None.
Proof. intros s' t H. discriminate. Qed.

Lemma framed_switch n s r rhs : n <= 5 -> framed s r (switch n s r rhs).
Proof.
  intros Hn s' t H Ht. destruct (switch_frame _ _ _ _ _ _ H Ht) as [H1 H2].
  split; [exact H1|]. intros Hout. apply H2. lia.
Qed.

Lemma framed_ifelse s r c th el :
  framed s r th -> framed s r el -> framed s r (ifelse c th el).
Proof.
  intros Hth Hel. unfold ifelse. destruct c as [[|]|]; simpl; auto.
  apply framed_None.
Qed.

Create HintDb frame.
#[local] Hint Resolve framed_Some framed_None framed_ifelse : frame.
#[local] Hint Extern 1 (framed _ _ (switch _ _ _ _)) =>
  apply framed_switch; lia : frame.

Ltac frame_chain := repeat (apply framed_ifelse); auto with frame.

Lemma ADD_framed s r a b : framed s r (ADD s r a b).
Proof. unfold ADD. frame_chain. Qed.
Lemma SUB_framed s r a b : framed s r (SUB s r a b).
Proof. unfold SUB. frame_chain. Qed.
Lemma MUL_framed s r a b : framed s r (MUL s r a b).
Proof. unfold MUL. frame_chain. Qed.
Lemma DIV_framed s r a b : framed s r (DIV s r a b).
Proof. unfold DIV. frame_chain. Qed.
Lemma REM_framed s r a b : framed s r (REM s r a b).
Proof. unfold REM. frame_chain. Qed.
Lemma NEG_framed s r a : framed s r (NEG s r a).
Proof. unfold NEG. frame_chain. Qed.
Lemma SHL_framed s r a b : framed s r (SHL s r a b).
Proof. unfold SHL. frame_chain. Qed.
Lemma SHR_framed s r a b : framed s r (SHR s r a b).
Proof. unfold SHR. frame_chain. Qed.
Lemma SAR_framed s r a b : framed s r (SAR s r a b).
Proof. unfold SAR. frame_chain. Qed.
Lemma AND_framed s r a b : framed s r (AND s r a b).
Proof. unfold AND. frame_chain. Qed.
Lemma OR_framed s r a b : framed s r (OR s r a b).
Proof. unfold OR. frame_chain. Qed.
Lemma XOR_framed s r a b : framed s r (XOR s r a b).
Proof. unfold XOR. frame_chain. Qed.
Lemma CMP_framed s r o a b : framed s r (CMP s r o a b).
Proof.
  unfold CMP. destruct (GetByteData s o) as [v|]; simpl; [|apply framed_None].
  repeat case_match; frame_chain.
Qed.

Lemma execute_alu_framed fresh m i p r :
  alu_dest i = Some r ->
  framed (state m) r (state <$> execute fresh m i p).
Proof.
  intros Hi s' t H Ht.
  assert (Hgen : forall res, framed (state m) r res ->
            (res ≫= λ s1, Some (goto m s1 p)) = (execute fresh m i p) ->
            same_outside (state m) s' (slot_addr (state m) r) (sizeof_tag t) /\
            (~ (1 <= t <= 5) -> s' = state m)).
  { intros res Hres Heq. rewrite <- Heq in H.
    destruct res as [s1|]; simpl in H; [|discriminate].
    inversion H; subst s'. apply Hres; auto. }
  destruct i; simpl in Hi; try discriminate; inversion Hi; subst;
    eapply Hgen; try reflexivity;
    auto using ADD_framed, SUB_framed, MUL_framed, DIV_framed, REM_framed,
      NEG_framed, SHL_framed, SHR_framed, SAR_framed, AND_framed, OR_framed,
      XOR_framed, CMP_framed.
Qed.

(** ** What an instruction may write *)

Lemma GET_SIZE_nonneg t : 0 <= GET_SIZE t.
Proof. unfold GET_SIZE. repeat case_match; lia. Qed.

Lemma read_mem_length s a n bs :
  0 <= n -> read_mem s a n = Some bs -> Z.of_nat (length bs) <= n.
Proof.
  unfold read_mem, load_bytes. intros Hn H.
  destruct (n =? 0) eqn:E.
  - inversion H. simpl. apply Z.eqb_eq in E. lia.
  - destruct (offset_of _ _ _) as [i|] eqn:Hi; [|discriminate].
    simpl in H. inversion H. rewrite length_take. lia.
Qed.

Lemma LOAD_same_outside s ptr operand s' t :
  LOAD s ptr operand = Some s' -> GetType s operand = Some t ->
  same_outside s s' (slot_addr s operand) (GET_SIZE t).
Proof.
  unfold LOAD. intros H Ht. rewrite Ht in H. simpl in H.
  destruct (read_mem _ _ _) as [src|] eqn:Hsrc; [|discriminate]. simpl in H.
  apply WriteData_same_outside in H.
  apply read_mem_length in Hsrc; [|apply GET_SIZE_nonneg].
  eapply same_outside_weaken; eauto; lia.
Qed.

Lemma STORE_same_outside s ptr operand s' dst t :
  STORE s ptr operand = Some s' ->
  read_ptr s (slot_addr s ptr) = Some dst -> GetType s operand = Some t ->
  same_outside s s' dst (GET_SIZE t).
Proof.
  unfold STORE. intros H Hd Ht. rewrite Hd in H. simpl in H.
  rewrite Ht in H. simpl in H.
  destruct (read_mem _ _ _) as [src|] eqn:Hsrc; [|discriminate]. simpl in H.
  apply memcpy_same_outside in H.
  apply read_mem_length in Hsrc; [|apply GET_SIZE_nonneg].
  eapply same_outside_weaken; eauto; lia.
Qed.

Lemma NEW_same_outside fresh s ptr size s' :
  NEW fresh s ptr size = Some s' -> same_outside s s' (slot_addr s ptr) 8.
Proof.
  unfold NEW. intros H. destruct (GetLongData s size); [|discriminate].
  change (WriteData s ptr (le_encode 8 fresh) = Some s') in H.
  apply WriteData_same_outside in H.
  rewrite length_le_encode in H. exact H.
Qed.

Lemma SetIntData_framed s index value : framed s index (SetIntData s index value).
Proof. apply framed_switch. lia. Qed.

Lemma INVOKE_framed s func ret args : framed s ret (INVOKE s func [ret] args).
Proof.
  unfold INVOKE. destruct (GetPtrData s func); simpl; [|apply framed_None].
  destruct (c_string _) as [name|]; simpl; [|apply framed_None].
  unfold GetFunction. case_decide; simpl; [|apply framed_None].
  unfold print. destruct (head args); simpl; [|apply framed_None].
  destruct (GetPtrData _ _); simpl; [|apply framed_None].
  destruct (c_string _); simpl; [|apply framed_None].
  destruct (printf_count _); simpl; [|apply framed_None].
  apply SetIntData_framed.
Qed.

(** Every instruction that completes has a footprint and changes no byte
    outside it. *)
Lemma footprint_sound fresh m i p m' :
  execute fresh m i p = Some m' ->
  exists a n, footprint (state m) i = Some (a, n) /\
              same_outside (state m) (state m') a n.
Proof.
  intros H.
  destruct (alu_dest i) as [r|] eqn:Hr.
  - pose proof (execute_alu_framed fresh m i p r Hr) as Hf.
    destruct (GetType (state m) r) as [t|] eqn:Ht.
    + assert (Hfp : footprint (state m) i
                    = Some (slot_addr (state m) r, sizeof_tag t)
                  \/ footprint (state m) i = Some (0, 0) /\ state m' = state m).
      { destruct i; simpl in Hr; try discriminate; inversion Hr; subst;
          simpl; rewrite ?Ht; auto.
        simpl in H. unfold CMP in H.
        destruct (GetByteData _ _) as [o|]; simpl in *; [|discriminate].
        destruct ((0 <=? o) && (o <=? 5)) eqn:E; auto.
        right. split; auto.
        assert (Ho : ~ (0 <= o <= 5)).
        { intros [H0 H5]. apply Z.leb_le in H0, H5. rewrite H0, H5 in E.
          discriminate. }
        repeat case_match; try lia; inversion H; reflexivity. }
      destruct Hfp as [Hfp|[Hfp Hsame]]; rewrite Hfp; eexists _, _;
        (split; [reflexivity|]).
      * eapply Hf; [rewrite H; reflexivity|exact Ht].
      * rewrite Hsame. apply same_outside_refl.
    + destruct i; simpl in Hr; try discriminate; inversion Hr; subst;
        simpl in H;
        unfold ADD, SUB, MUL, DIV, REM, NEG, SHL, SHR, SAR, AND, OR, XOR,
          ifelse, tier3, tier2, orelse, tag_is, switch in H;
        rewrite ?Ht in H; simpl in H; try discriminate.
      unfold CMP in H. simpl.
      destruct (GetByteData _ _) as [o|]; simpl in *; [|discriminate].
      destruct ((0 <=? o) && (o <=? 5)) eqn:E.
      * exfalso. apply andb_prop in E. destruct E as [E0 E5].
        apply Z.leb_le in E0, E5.
        assert (Ho : o = 0 \/ o = 1 \/ o = 2 \/ o = 3 \/ o = 4 \/ o = 5) by lia.
        unfold ifelse, tier3, tier2, orelse, tag_is, switch in H.
        rewrite ?Ht in H.
        destruct Ho as [->|[->|[->|[->|[->| ->]]]]]; discriminate.
      * assert (Ho : ~ (0 <= o <= 5)).
        { intros [H0 H5]. apply Z.leb_le in H0, H5. rewrite H0, H5 in E.
          discriminate. }
        eexists _, _. split; [reflexivity|].
        repeat case_match; try lia; inversion H; apply same_outside_refl.
  - destruct i; simpl in Hr; try discriminate; simpl in H; simpl footprint;
      try (inversion H; subst; eexists _, _; split;
           [reflexivity|apply same_outside_refl]).
    + (* LOAD *)
      destruct (LOAD _ _ _) as [s1|] eqn:E; [|discriminate]. inversion H; subst.
      assert (exists t, GetType (state m) second = Some t) as [t Ht].
      { unfold LOAD in E. destruct (GetType _ _); [eauto|discriminate]. }
      rewrite Ht. simpl. eexists _, _. split; [reflexivity|].
      eapply LOAD_same_outside; eauto.
    + (* STORE *)
      destruct (STORE _ _ _) as [s1|] eqn:E; [|discriminate]. inversion H; subst.
      assert (exists d, read_ptr (state m) (slot_addr (state m) first) = Some d)
        as [d Hd].
      { unfold STORE in E. destruct (read_ptr _ _); [eauto|discriminate]. }
      assert (exists t, GetType (state m) second = Some t) as [t Ht].
      { unfold STORE in E. rewrite Hd in E. simpl in E.
        destruct (GetType _ _); [eauto|discriminate]. }
      rewrite Hd. simpl. rewrite Ht. simpl. eexists _, _.
      split; [reflexivity|]. eapply STORE_same_outside; eauto.
    + (* NEW *)
      destruct (NEW _ _ _ _) as [s1|] eqn:E; [|discriminate]. inversion H; subst.
      eexists _, _. split; [reflexivity|]. eapply NEW_same_outside; eauto.
    + (* FREE *)
      destruct (FREE _ _ _) as [bs|] eqn:E; [|discriminate]. inversion H; subst.
      eexists _, _. split; [reflexivity|apply same_outside_refl].
    + (* PTR *)
      destruct (PTR _ _ _) as [s1|] eqn:E; [|discriminate]. inversion H; subst.
      eexists _, _. split; [reflexivity|].
      eapply SetPtrData_same_outside; eauto.
    + (* IF *)
      destruct (IF _ _ _ _ _); [|discriminate]. inversion H; subst.
      eexists _, _. split; [reflexivity|apply same_outside_refl].
    + (* INVOKE *)
      destruct (INVOKE _ _ _ _) as [s1|] eqn:E; [|discriminate].
      inversion H; subst.
      assert (exists t, GetType (state m) return_value = Some t) as [t Ht].
      { unfold INVOKE, GetFunction, print, SetIntData, switch in E.
        repeat (simplify_option_eq || case_decide || case_match);
          try discriminate; eauto. }
      rewrite Ht. simpl. eexists _, _. split; [reflexivity|].
      eapply INVOKE_framed; eauto.
    + (* GOTO *)
      destruct (GOTO _ _ _); [|discriminate]. inversion H; subst.
      eexists _, _. split; [reflexivity|apply same_outside_refl].
Qed.

(** ** The type array under stores *)

Lemma to_size_t_small z : 0 <= z < 2 ^ 64 -> to_size_t z = z.
Proof. intros H. unfold to_size_t, wrap. apply Z.mod_small. exact H. Qed.

Lemma same_outside_preserves_types s s' a n :
  layout s -> same_outside s s' a n -> writes_within_data s a n ->
  preserves_types s s'.
Proof.
  intros (Hd & Hs & Ht & Hlt) (Hb & Hm & Hl & Hx) Hw i Hi.
  unfold GetType. rewrite Hm.
  assert (Hdiv : 0 <= i / 2 <= size (memory s) / 2).
  { split; [apply Z.div_pos; lia|apply Z.div_le_mono; lia]. }
  rewrite to_size_t_small by lia.
  rewrite Hx; [reflexivity|].
  destruct Hw as [->|[H1 H2]]; lia.
Qed.

Lemma load_layout b file m :
  load b file = Loaded m ->
  0 <= b -> 0 <= size (memory (state m)) ->
  b + 16 + size (memory (state m)) + size (memory (state m)) / 2 < 2 ^ 64 ->
  layout (state m) /\
  data (memory (state m)) = b + 16 /\
  run_code m = b + 16 + size (memory (state m)) + size (memory (state m)) / 2.
Proof.
  unfold load. intros H Hb.
  destruct (orelse _ _) as [[|]|]; try discriminate.
  destruct (_ <? 16); [discriminate|].
  destruct (load_bytes _ _ 8); [|discriminate].
  inversion H; subst m; clear H. simpl.
  set (n := be_decode (take 8 (drop 8 file))). intros Hn Hlt.
  assert (Hq : 0 <= n / 2) by (apply Z.div_pos; lia).
  rewrite (to_size_t_small (b + 8)) by lia.
  rewrite (to_size_t_small (b + 8 + 8)) by lia.
  rewrite (to_size_t_small (b + 8 + 8 + n)) by lia.
  rewrite (to_size_t_small (b + 8 + 8 + n + n / 2)) by lia.
  unfold layout; simpl. repeat split; lia.
Qed.

(** ** The operand decoder *)

Lemma sext_congr w x : exists q, sext w x = x + q * 2 ^ w.
Proof.
  unfold sext. exists (- ((x + 2 ^ (w - 1)) / 2 ^ w)).
  destruct (Z.eq_dec (2 ^ w) 0) as [E|E].
  - rewrite E. rewrite Z.mod_0_r. lia.
  - pose proof (Z.div_mod (x + 2 ^ (w - 1)) (2 ^ w) E). lia.
Qed.

Lemma sext_sext_add w x y : sext w (sext w x + y) = sext w (x + y).
Proof.
  destruct (sext_congr w x) as [q Hq]. rewrite Hq. unfold sext.
  replace (x + q * 2 ^ w + y + 2 ^ (w - 1))
    with (x + y + 2 ^ (w - 1) + q * 2 ^ w) by lia.
  now rewrite Z_mod_plus_full.
Qed.

Lemma sext_mul_sext_add w c x y : sext w (c * sext w x + y) = sext w (c * x + y).
Proof.
  destruct (sext_congr w x) as [q Hq]. rewrite Hq. unfold sext.
  replace (c * (x + q * 2 ^ w) + y + 2 ^ (w - 1))
    with (c * x + y + 2 ^ (w - 1) + (c * q) * 2 ^ w) by lia.
  now rewrite Z_mod_plus_full.
Qed.

Lemma sext_small w x :
  0 < w -> - 2 ^ (w - 1) <= x < 2 ^ (w - 1) -> sext w x = x.
Proof.
  intros Hw Hx. unfold sext.
  assert (H2 : 2 ^ w = 2 * 2 ^ (w - 1)).
  { replace w with (w - 1 + 1) at 1 by lia. rewrite Z.pow_add_r by lia. lia. }
  rewrite Z.mod_small; lia.
Qed.

Lemma wrap_wrap_add w x y : wrap w (wrap w x + y) = wrap w (x + y).
Proof. unfold wrap. apply Zplus_mod_idemp_l. Qed.

(** [k] bytes 255 and a terminal byte: the loop stops after the terminal
    byte with the value formed from the wrapped counter. *)
Lemma Parament_loop_replicate k : forall b rest ptr size,
  0 <= b < 255 ->
  Parament_loop (replicate k 255 ++ b :: rest) ptr size
  = Some (to_size_t (ptr + Z.of_nat k + 1),
          to_size_t (to_int (255 * (size + Z.of_nat k) + b))).
Proof.
  induction k as [|k IH]; intros b rest ptr size Hb.
  - simpl. destruct (b <? 255) eqn:E; [|apply Z.ltb_ge in E; lia].
    repeat f_equal; lia.
  - change (replicate (S k) 255 ++ b :: rest)
      with (255 :: (replicate k 255 ++ b :: rest)).
    cbn [Parament_loop]. rewrite Z.ltb_irrefl.
    rewrite IH by exact Hb. unfold to_size_t, to_int.
    f_equal. f_equal.
    + rewrite <- Z.add_assoc, wrap_wrap_add. f_equal. lia.
    + f_equal.
      replace (255 * (sext 32 (size + 1) + Z.of_nat k) + b)
        with (255 * sext 32 (size + 1) + (255 * Z.of_nat k + b)) by lia.
      rewrite sext_mul_sext_add. f_equal. lia.
Qed.

Lemma bytes_from_begin s : bytes_from s (bytecode_begin s) = image s.
Proof.
  unfold bytes_from, offset_of. rewrite Z.sub_diag.
  rewrite (proj2 (Z.leb_le (0 + 0) (Z.of_nat (length (image s))))) by lia.
  reflexivity.
Qed.

Lemma Get1Parament_replicate s ptr k b rest :
  bytes_from s ptr = replicate k 255 ++ b :: rest ->
  0 <= b < 255 ->
  Get1Parament s ptr
  = Some (to_size_t (ptr + Z.of_nat k + 1),
          to_size_t (to_int (255 * Z.of_nat k + b))).
Proof.
  intros Hbytes Hb. unfold Get1Parament. rewrite Hbytes.
  rewrite Parament_loop_replicate by exact Hb. reflexivity.
Qed.

(** Bytes away from the written range read back as before. *)
Lemma byte_at_lookup s x :
  0 <= x - bytecode_begin s < Z.of_nat (length (image s)) ->
  byte_at s x = image s !! Z.to_nat (x - bytecode_begin s).
Proof.
  intros H. unfold byte_at, offset_of.
  rewrite (proj2 (Z.leb_le 0 _)) by lia.
  rewrite (proj2 (Z.leb_le (x - bytecode_begin s + 1) _)) by lia.
  reflexivity.
Qed.

Lemma same_outside_load_bytes s s' a n b k :
  same_outside s s' a n ->
  b + Z.of_nat k <= a \/ a + n <= b ->
  load_bytes s' b k = load_bytes s b k.
Proof.
  intros (Hb & Hm & Hl & Hx) Hdisj. unfold load_bytes, offset_of.
  rewrite Hb, Hl.
  destruct ((0 <=? b - bytecode_begin s)
            && (b - bytecode_begin s + Z.of_nat k
                <=? Z.of_nat (length (image s)))) eqn:E; [|reflexivity].
  apply andb_prop in E. destruct E as [E1 E2]. apply Z.leb_le in E1, E2.
  simpl. f_equal. apply list_eq. intros j.
  rewrite !lookup_take. case_decide; [|reflexivity].
  rewrite !lookup_drop.
  set (x := b + Z.of_nat j).
  assert (Hin : 0 <= x - bytecode_begin s < Z.of_nat (length (image s)))
    by (unfold x; lia).
  assert (Hj : (Z.to_nat (b - bytecode_begin s) + j)%nat
               = Z.to_nat (x - bytecode_begin s)) by (unfold x; lia).
  rewrite Hj.
  rewrite <- (byte_at_lookup s x) by exact Hin.
  rewrite <- Hb, <- (byte_at_lookup s' x) by (rewrite Hb, Hl; exact Hin).
  apply Hx. unfold x. lia.
Qed.

(** ** Claims on the frame of the handlers *)

(** C10. For each of ADD, SUB, MUL, DIV, REM, NEG, SHL, SHR, SAR, AND, OR,
    XOR and CMP, executing the instruction changes at most the bytes of the
    destination slot [r] (the [sizeof_tag t] bytes at [data + r], [t] being
    its tag): every byte outside that range, hence every operand whose bytes
    do not overlap it and all other memory, reads back as before; and when
    the tag of [r] is 0 or greater than 5 the state is unchanged. *)
Theorem C10_alu_frame fresh m i p m' r t :
  alu_dest i = Some r ->
  execute fresh m i p = Some m' ->
  GetType (state m) r = Some t ->
  same_outside (state m) (state m') (slot_addr (state m) r) (sizeof_tag t) /\
  (forall b k,
      b + Z.of_nat k <= slot_addr (state m) r \/
      slot_addr (state m) r + sizeof_tag t <= b ->
      load_bytes (state m') b k = load_bytes (state m) b k) /\
  (t = 0 \/ 5 < t -> state m' = state m).
Proof.
  intros Hi He Ht.
  destruct (execute_alu_framed fresh m i p r Hi (state m') t) as [Hs Hn];
    [rewrite He; reflexivity|exact Ht|].
  split; [exact Hs|]. split.
  - intros b k Hd. eapply same_outside_load_bytes; eauto.
  - intros Hout. apply Hn. lia.
Qed.

Lemma C10_alu_frame_witness :
  alu_dest (iADD 8 0 4) = Some 8 /\
  execute 0 Example.add_before (iADD 8 0 4) 4134 = Some Example.add_after /\
  GetType (state Example.add_before) 8 = Some 2 /\
  same_outside (state Example.add_before) (state Example.add_after)
    (slot_addr (state Example.add_before) 8) (sizeof_tag 2).
Proof.
  split; [reflexivity|]. split; [vm_compute; reflexivity|].
  split; [vm_compute; reflexivity|].
  apply (C10_alu_frame 0 Example.add_before (iADD 8 0 4) 4134
           Example.add_after 8 2);
    vm_compute; reflexivity.
Defined.

(** ** Claims on the type array *)

Lemma execute_preserves_types fresh m i p m' a n :
  layout (state m) ->
  execute fresh m i p = Some m' ->
  footprint (state m) i = Some (a, n) ->
  writes_within_data (state m) a n ->
  preserves_types (state m) (state m') /\ memory (state m') = memory (state m).
Proof.
  intros Hl He Hf Hw.
  destruct (footprint_sound _ _ _ _ _ He) as (a' & n' & Hf' & Hs).
  rewrite Hf in Hf'. inversion Hf'; subst a' n'.
  split; [eapply same_outside_preserves_types; eauto|].
  destruct Hs as (_ & Hm & _). exact Hm.
Qed.

Lemma within_data_run_preserves_types m m' :
  within_data_run m m' ->
  layout (state m) -> preserves_types (state m) (state m').
Proof.
  induction 1 as [m|fresh m i p a n m1 m2 Hf He Hfp Hw Hrun IH]; intros Hl.
  - intros j _. reflexivity.
  - destruct (execute_preserves_types _ _ _ _ _ _ _ Hl He Hfp Hw) as [H1 Hm].
    assert (Hl1 : layout (state m1)) by (unfold layout; rewrite Hm; exact Hl).
    intros j Hj. rewrite IH; [apply H1; exact Hj|exact Hl1|].
    rewrite Hm. exact Hj.
Qed.

(** C9, as the code has it. The data segment, the type array and the code are
    consecutive parts of one buffer and no store is bounds-checked. Under the
    layout of the loader, every write operation ([WriteData], [SetPtrData],
    the typed [Set*Data] stores, and every instruction the loop executes)
    leaves the tag of every slot as it was provided the range it writes is
    empty or lies inside the data segment; so does every sequence of loop
    iterations that each meet the proviso. *)
Theorem C9_types_preserved_within_data s :
  layout s ->
  (forall index bytes s',
      WriteData s index bytes = Some s' ->
      writes_within_data s (slot_addr s index) (Z.of_nat (length bytes)) ->
      preserves_types s s') /\
  (forall index ptr s',
      SetPtrData s index ptr = Some s' ->
      writes_within_data s (slot_addr s index) 8 ->
      preserves_types s s') /\
  (forall index t s',
      GetType s index = Some t ->
      writes_within_data s (slot_addr s index) (sizeof_tag t) ->
      (exists v, SetByteData s index v = Some s') \/
      (exists v, SetIntData s index v = Some s') \/
      (exists v, SetLongData s index v = Some s') \/
      (exists v, SetFloatData s index v = Some s') \/
      (exists v, SetDoubleData s index v = Some s') ->
      preserves_types s s') /\
  (forall fresh m i p m' a n,
      state m = s ->
      execute fresh m i p = Some m' ->
      footprint s i = Some (a, n) ->
      writes_within_data s a n ->
      preserves_types s (state m')) /\
  (forall m m',
      state m = s -> within_data_run m m' -> preserves_types s (state m')).
Proof.
  intros Hl. split; [|split; [|split; [|split]]].
  - intros index bytes s' H Hw.
    eapply same_outside_preserves_types; eauto using WriteData_same_outside.
  - intros index ptr s' H Hw.
    eapply same_outside_preserves_types; eauto using SetPtrData_same_outside.
  - intros index t s' Ht Hw H.
    eapply same_outside_preserves_types; [exact Hl| |exact Hw].
    destruct H as [[v H]|[[v H]|[[v H]|[[v H]|[v H]]]]];
      (eapply switch_frame; [exact H|exact Ht]).
  - intros fresh m i p m' a n <- He Hf Hw.
    eapply (proj1 (execute_preserves_types _ _ _ _ _ _ _ Hl He Hf Hw)).
  - intros m m' <- Hrun. eapply within_data_run_preserves_types; eauto.
Qed.

Lemma C9_types_preserved_within_data_witness :
  layout (state Example.add_before) /\
  execute 0 Example.add_before (iADD 8 0 4) 4134 = Some Example.add_after /\
  footprint (state Example.add_before) (iADD 8 0 4) = Some (4120, 4) /\
  writes_within_data (state Example.add_before) 4120 4 /\
  preserves_types (state Example.add_before) (state Example.add_after).
Proof.
  assert (Hl : layout (state Example.add_before)).
  { unfold layout; simpl. repeat split; lia. }
  assert (Hw : writes_within_data (state Example.add_before) 4120 4).
  { right. simpl. lia. }
  split; [exact Hl|]. split; [vm_compute; reflexivity|].
  split; [vm_compute; reflexivity|]. split; [exact Hw|].
  destruct (C9_types_preserved_within_data (state Example.add_before) Hl)
    as (_ & _ & _ & Hexec & _).
  apply (Hexec 0 Example.add_before (iADD 8 0 4) 4134 Example.add_after 4120 4);
    [reflexivity|vm_compute; reflexivity|vm_compute; reflexivity|exact Hw].
Defined.

(** C9 as stated fails. The image has two [byte] slots (so every slot lies
    in the data segment with its width); PTR 0, 1 stores the eight bytes of
    an address at slot 1, the last data byte, and the next byte is the type
    array: the tag of slot 1 changes from 1 to 0. *)
Lemma C9_counterexample :
  load 4096 Example.ptr_file = Loaded Example.ptr_before /\
  fetch Example.ptr_before = Some (iPTR 0 1, 4118) /\
  step 0 Example.ptr_before = Some Example.ptr_after /\
  GetType (state Example.ptr_before) 1 = Some 1 /\
  GetType (state Example.ptr_after) 1 = Some 0 /\
  ~ preserves_types (state Example.ptr_before) (state Example.ptr_after).
Proof.
  split; [vm_compute; reflexivity|]. split; [vm_compute; reflexivity|].
  split; [vm_compute; reflexivity|]. split; [vm_compute; reflexivity|].
  assert (Hafter : GetType (state Example.ptr_after) 1 = Some 0)
    by (vm_compute; reflexivity).
  split; [exact Hafter|].
  intros H.
  assert (Hr : 0 <= 1 < size (memory (state Example.ptr_before)))
    by (simpl; lia).
  specialize (H 1 Hr). rewrite Hafter in H. vm_compute in H. discriminate.
Qed.

(** ** Claims on the operand decoder *)

Lemma encode_form k b :
  0 <= b < 255 -> encode (255 * Z.of_nat k + b) = replicate k 255 ++ [b].
Proof.
  intros Hb. unfold encode.
  replace (255 * Z.of_nat k + b) with (b + Z.of_nat k * 255) by lia.
  rewrite Z_div_plus by lia. rewrite Z_mod_plus by lia.
  rewrite (Z.div_small b 255) by lia. rewrite (Z.mod_small b 255) by lia.
  rewrite Z.add_0_l, Nat2Z.id. reflexivity.
Qed.

(** Below INT_MAX neither the counter nor the product wraps. *)
Lemma Get1Parament_within_int s ptr k b rest :
  bytes_from s ptr = replicate k 255 ++ b :: rest ->
  0 <= b < 255 ->
  255 * Z.of_nat k + b <= INT_MAX ->
  0 <= ptr -> ptr + Z.of_nat k + 1 < 2 ^ 64 ->
  Get1Parament s ptr = Some (ptr + Z.of_nat k + 1, 255 * Z.of_nat k + b).
Proof.
  intros Hbytes Hb Hmax Hptr Hend. unfold INT_MAX in Hmax.
  rewrite (Get1Parament_replicate s ptr k b rest Hbytes Hb).
  rewrite to_size_t_small by lia.
  unfold to_int. rewrite sext_small by lia.
  rewrite to_size_t_small by lia. reflexivity.
Qed.

(** C3, as the code has it. The decoder counts the 255 bytes in an [int] and
    forms [255 * size + b] in [int] arithmetic. For an operand of [k] bytes
    255 and a terminal byte [b < 255] whose value [k * 255 + b] is at most
    INT_MAX, the decoder yields that value and the pointer just after the
    terminal byte; the bytes are the encoding of the value, so decoding
    inverts encoding on 0 .. INT_MAX, and the encoding of [v] has
    floor(v/255) + 1 bytes. The values 0, 255 and 510 are encoded as [00],
    [FF 00] and [FF FF 00]. *)
Theorem C3_decode_within_int s ptr k b rest :
  bytes_from s ptr = replicate k 255 ++ b :: rest ->
  0 <= b < 255 ->
  255 * Z.of_nat k + b <= INT_MAX ->
  0 <= ptr -> ptr + Z.of_nat k + 1 < 2 ^ 64 ->
  let v := 255 * Z.of_nat k + b in
  Get1Parament s ptr = Some (ptr + Z.of_nat k + 1, v) /\
  encode v = replicate k 255 ++ [b] /\
  Z.of_nat (length (encode v)) = v / 255 + 1 /\
  encode 0 = [0x00] /\ encode 255 = [0xFF; 0x00] /\
  encode 510 = [0xFF; 0xFF; 0x00].
Proof.
  intros Hbytes Hb Hmax Hptr Hend v.
  split; [|split; [|split]].
  - apply Get1Parament_within_int with (rest := rest); assumption.
  - apply encode_form. exact Hb.
  - unfold v. rewrite encode_form by exact Hb.
    rewrite length_app, length_replicate. simpl.
    replace (255 * Z.of_nat k + b) with (b + Z.of_nat k * 255) by lia.
    rewrite Z_div_plus by lia. rewrite (Z.div_small b 255) by lia. lia.
  - repeat split; reflexivity.
Qed.

Lemma C3_decode_within_int_witness :
  bytes_from (state Example.add_before) 4131 = replicate 0 255 ++ 8 :: [0; 4] /\
  Get1Parament (state Example.add_before) 4131 = Some (4132, 8).
Proof.
  split; [vm_compute; reflexivity|].
  apply (C3_decode_within_int (state Example.add_before) 4131 0 8 [0; 4]);
    [vm_compute; reflexivity|lia|unfold INT_MAX; lia|lia|lia].
Defined.

(** Decoding inverts encoding for every value up to INT_MAX. *)
Corollary decode_encode s ptr v rest :
  0 <= v <= INT_MAX ->
  bytes_from s ptr = encode v ++ rest ->
  0 <= ptr -> ptr + v / 255 + 1 < 2 ^ 64 ->
  Get1Parament s ptr = Some (ptr + Z.of_nat (length (encode v)), v).
Proof.
  intros Hv Hbytes Hptr Hend. unfold INT_MAX in Hv.
  assert (Hq : 0 <= v / 255) by (apply Z.div_pos; lia).
  assert (Hm : 0 <= v mod 255 < 255) by (apply Z.mod_pos_bound; lia).
  assert (Hk : Z.of_nat (Z.to_nat (v / 255)) = v / 255) by lia.
  assert (Hv' : 255 * Z.of_nat (Z.to_nat (v / 255)) + v mod 255 = v).
  { rewrite Hk. symmetry. apply Z.div_mod. lia. }
  unfold encode in *. rewrite <- app_assoc in Hbytes. simpl in Hbytes.
  rewrite length_app, length_replicate. simpl length.
  rewrite (Get1Parament_within_int s ptr (Z.to_nat (v / 255)) (v mod 255) rest);
    try exact Hbytes; try exact Hm; try exact Hptr.
  - rewrite Hv'. do 2 f_equal. lia.
  - rewrite Hv'. unfold INT_MAX. lia.
  - rewrite Hk. exact Hend.
Qed.

Lemma length_long_operand_file n :
  Z.of_nat (length (Example.long_operand_file n)) = 18 + Z.of_nat n.
Proof.
  unfold Example.long_operand_file. rewrite length_app. simpl length.
  rewrite length_app, length_replicate. simpl length. lia.
Qed.

Lemma load_long_operand n :
  (6 <= n)%nat -> Z.of_nat n < 2 ^ 32 ->
  load 4096 (Example.long_operand_file n)
  = Loaded (Example.long_operand_machine n).
Proof.
  intros H6 Hn. unfold load.
  change (orelse _ _) with (Some false).
  rewrite length_long_operand_file.
  destruct (Z.ltb_spec (18 + Z.of_nat n) 16); [lia|].
  change (be_decode (take 8 (drop 8 (Example.long_operand_file n)))) with 0.
  change (to_size_t (to_size_t (to_size_t (4096 + 8) + 8) + 0)) with 4112.
  unfold load_bytes at 1, offset_of. cbn [bytecode_begin image].
  rewrite length_long_operand_file.
  change (4112 - 4096) with 16.
  rewrite (proj2 (Z.leb_le 0 16)) by lia.
  rewrite (proj2 (Z.leb_le (16 + Z.of_nat 8) (18 + Z.of_nat n))) by lia.
  cbn [andb mbind option_bind].
  unfold Example.long_operand_machine. f_equal. f_equal.
  rewrite to_size_t_small by lia. lia.
Qed.

Lemma bytes_from_drop s ptr :
  0 <= ptr - bytecode_begin s <= Z.of_nat (length (image s)) ->
  bytes_from s ptr = drop (Z.to_nat (ptr - bytecode_begin s)) (image s).
Proof.
  intros H. unfold bytes_from, offset_of.
  rewrite (proj2 (Z.leb_le 0 _)) by lia.
  rewrite (proj2 (Z.leb_le (ptr - bytecode_begin s + 0) _)) by lia.
  reflexivity.
Qed.

Lemma Get1Parament_long_operand n :
  Z.of_nat n < 2 ^ 32 ->
  bytes_from (state (Example.long_operand_machine n)) 4113
  = replicate n 255 ++ [0] /\
  Get1Parament (state (Example.long_operand_machine n)) 4113
  = Some (4114 + Z.of_nat n, to_size_t (to_int (255 * Z.of_nat n))).
Proof.
  intros Hn.
  assert (Hbytes : bytes_from (state (Example.long_operand_machine n)) 4113
                   = replicate n 255 ++ [0]).
  { rewrite bytes_from_drop; [reflexivity|].
    cbn [Example.long_operand_machine state image bytecode_begin].
    rewrite length_long_operand_file. lia. }
  split; [exact Hbytes|].
  rewrite (Get1Parament_replicate _ _ n 0 []) by (exact Hbytes || lia).
  rewrite to_size_t_small by lia.
  replace (255 * Z.of_nat n + 0) with (255 * Z.of_nat n) by lia.
  replace (4113 + Z.of_nat n + 1) with (4114 + Z.of_nat n) by lia.
  reflexivity.
Qed.

(** C3 as stated fails for values beyond INT_MAX. The image holds FREE with
    an operand of 8421505 bytes 255 and the terminal byte 0, a well-formed
    encoding of 8421505 * 255 + 0 = 2147483775; the [int] product wraps and
    the decoder yields 18446744071562068095. *)
Lemma C3_counterexample :
  load 4096 (Example.long_operand_file (Z.to_nat 8421505))
  = Loaded (Example.long_operand_machine (Z.to_nat 8421505)) /\
  bytes_from (state (Example.long_operand_machine (Z.to_nat 8421505))) 4113
  = replicate (Z.to_nat 8421505) 255 ++ [0] /\
  Get1Parament (state (Example.long_operand_machine (Z.to_nat 8421505))) 4113
  = Some (8425619, 18446744071562068095) /\
  18446744071562068095 <> 8421505 * 255 + 0.
Proof.
  assert (Hn : Z.of_nat (Z.to_nat 8421505) < 2 ^ 32)
    by (rewrite Z2Nat.id by lia; lia).
  split; [apply load_long_operand; [lia|exact Hn]|].
  destruct (Get1Parament_long_operand _ Hn) as [Hb Hg].
  split; [exact Hb|]. split; [|lia].
  rewrite Hg. rewrite Z2Nat.id by lia. reflexivity.
Qed.

(** ** Claims on the loader *)

(** The code segment starts [memory_size / 2] bytes (rounded down) after the
    data segment. *)
Lemma load_run_code b file m :
  load b file = Loaded m ->
  run_code m
  = to_size_t (to_size_t (to_size_t (to_size_t (b + 8) + 8)
                          + size (memory (state m)))
               + size (memory (state m)) / 2) /\
  type (memory (state m))
  = to_size_t (to_size_t (to_size_t (b + 8) + 8) + size (memory (state m))) /\
  bytecode_file m = run_code m.
Proof.
  unfold load. intros H.
  destruct (orelse _ _) as [[|]|]; try discriminate.
  destruct (_ <? 16); [discriminate|].
  destruct (load_bytes _ _ 8); [|discriminate].
  inversion H; subst m; clear H. simpl. repeat split.
Qed.

(** C7 at the failing input. With [memory_size] = 1 the loader advances by
    [1 / 2 = 0] bytes over the type array: the code segment starts at file
    offset 17, not at 16 + 1 + ceil(1/2) = 18, and the byte [GetType] reads
    for slot 0 is the byte the loop fetches as the first opcode (0x10); the
    loop runs AND on it and reads past the end of the file. *)
Theorem C7_odd_memory_size :
  load 4096 Example7.odd_file = Loaded Example7.odd_machine /\
  size (memory (state Example7.odd_machine)) = 1 /\
  run_code Example7.odd_machine - 4096 = 17 /\
  16 + 1 + (1 + 1) / 2 = 18 /\
  type (memory (state Example7.odd_machine)) = run_code Example7.odd_machine /\
  GetType (state Example7.odd_machine) 0 = Some 1 /\
  byte_at (state Example7.odd_machine) (bytecode_file Example7.odd_machine)
  = Some 0x10 /\
  step 0 Example7.odd_machine = None.
Proof. repeat split; vm_compute; reflexivity. Qed.

(** ** Claims on LOAD *)

(** A copy of [GET_SIZE 5 = 0] bytes: LOAD onto a [double] slot does
    nothing. *)
Lemma LOAD_double s ptr operand :
  GetType s operand = Some 5 -> LOAD s ptr operand = Some s.
Proof. intros Ht. unfold LOAD. rewrite Ht. reflexivity. Qed.

(** C8 at the failing input. [GET_SIZE] gives the widths 1, 4, 8, 4 for the
    tags 1 to 4, but 0 for tag 5 (its sixth arm repeats the test for 0x02):
    LOAD 0, 8 onto a [double] slot copies no byte and leaves the state
    unchanged, the destination still holding 0 where the eight bytes of 2.5
    were to be copied. *)
Theorem C8_LOAD_double_copies_nothing :
  (GET_SIZE 1 = 1 /\ GET_SIZE 2 = 4 /\ GET_SIZE 3 = 8 /\ GET_SIZE 4 = 4) /\
  GET_SIZE 5 = 0 /\
  GetType (state Example8.double_before) 8 = Some 5 /\
  fetch Example8.double_before = Some (iLOAD 0 8, 4139) /\
  LOAD (state Example8.double_before) 0 8 = Some (state Example8.double_before) /\
  step 0 Example8.double_before
  = Some (goto Example8.double_before (state Example8.double_before) 4139) /\
  load_bytes (state Example8.double_before) 4112 8
  = Some (Example.int64 0x4004000000000000) /\
  load_bytes (state Example8.double_before) 4120 8 = Some (Example.int64 0).
Proof. repeat split; vm_compute; reflexivity. Qed.

(** ** Claims on control flow *)

(** C1, as the code has it. An IF instruction (opcode 0x0F, operands [cond],
    [true_off], [false_off]) calls the handler with the start of the code
    segment as base: the branch target it computes is
    [run_code + long (true_off)] when the value [GetByteData] reads at [cond]
    is not zero and [run_code + long (false_off)] when it is zero (modulo
    2^64); the instruction completes and leaves the memory as it was. *)
Theorem C1_IF_target fresh m p cond true_off false_off c o :
  byte_at (state m) (bytecode_file m) = Some 0x0F ->
  Get3Parament (state m) (to_size_t (bytecode_file m + 1))
  = Some (p, cond, true_off, false_off) ->
  GetByteData (state m) cond = Some c ->
  GetLongData (state m) (if c =? 0 then false_off else true_off) = Some o ->
  fetch m = Some (iIF cond true_off false_off, p) /\
  IF (state m) (run_code m) cond true_off false_off
  = Some (to_size_t (run_code m + o)) /\
  exists m', step fresh m = Some m' /\ state m' = state m.
Proof.
  intros Hop Hdec Hc Ho.
  assert (Hf : fetch m = Some (iIF cond true_off false_off, p)).
  { unfold fetch. rewrite Hop. simpl. rewrite Hdec. reflexivity. }
  assert (Hif : IF (state m) (run_code m) cond true_off false_off
                = Some (to_size_t (run_code m + o))).
  { unfold IF. rewrite Hc. simpl.
    destruct (c =? 0); simpl; rewrite Ho; reflexivity. }
  split; [exact Hf|]. split; [exact Hif|].
  unfold step. rewrite Hf. simpl. rewrite Hif. simpl.
  eexists. split; reflexivity.
Qed.

Lemma C1_IF_target_witness :
  byte_at (state Example1.if_before) (bytecode_file Example1.if_before)
  = Some 0x0F /\
  GetByteData (state Example1.if_before) 0 = Some 1 /\
  GetLongData (state Example1.if_before) 1 = Some 7 /\
  IF (state Example1.if_before) (run_code Example1.if_before) 0 1 9
  = Some (to_size_t (run_code Example1.if_before + 7)).
Proof.
  split; [vm_compute; reflexivity|]. split; [vm_compute; reflexivity|].
  split; [vm_compute; reflexivity|].
  apply (C1_IF_target 0 Example1.if_before 4144 0 1 9 1 7);
    vm_compute; reflexivity.
Defined.

(** C1 as stated fails. IF 0, 1, 9 stands at code offset 1; the condition
    byte is 1 and [long (true_off)] is 7. The handler's target is offset 7
    from the start of the code, which is not the program counter plus 7
    whether the counter is taken at the opcode (offset 1), after it (2) or
    after the operands (5); and the counter after the instruction is at
    offset 5, just past the operands. *)
Lemma C1_counterexample :
  load 4096 Example1.if_file = Loaded Example1.if_boot /\
  step 0 Example1.if_boot = Some Example1.if_before /\
  Example.pc Example1.if_before = 1 /\
  fetch Example1.if_before = Some (iIF 0 1 9, run_code Example1.if_before + 5) /\
  GetByteData (state Example1.if_before) 0 = Some 1 /\
  GetLongData (state Example1.if_before) 1 = Some 7 /\
  IF (state Example1.if_before) (run_code Example1.if_before) 0 1 9
  = Some (run_code Example1.if_before + 7) /\
  step 0 Example1.if_before = Some Example1.if_after /\
  Example.pc Example1.if_after = 5 /\
  Example.pc Example1.if_after <> 1 + 7 /\
  Example.pc Example1.if_after <> 2 + 7 /\
  Example.pc Example1.if_after <> 5 + 7.
Proof. repeat split; try (vm_compute; reflexivity); vm_compute; discriminate. Qed.

(** The value of [IF] is dropped by the loop: the program counter after an
    IF is the pointer after its operands. *)
Remark IF_falls_through fresh m p cond true_off false_off m' :
  fetch m = Some (iIF cond true_off false_off, p) ->
  step fresh m = Some m' -> bytecode_file m' = p.
Proof.
  intros Hf H. unfold step in H. rewrite Hf in H. simpl in H.
  destruct (IF _ _ _ _ _); [|discriminate]. inversion H. reflexivity.
Qed.

(** A byte the dispatch does not know leaves the machine as it is, so the
    loop never gets past it. *)
Remark default_stalls fresh m :
  fetch m = Some (iDefault, bytecode_file m) -> step fresh m = Some m.
Proof.
  intros Hf. unfold step. rewrite Hf. destruct m. reflexivity.
Qed.

Remark default_never_finishes host : forall m,
  bytecode_file m < bytecode_end m ->
  fetch m = Some (iDefault, bytecode_file m) ->
  run host m = Running m.
Proof.
  induction host as [|fresh host IH]; intros m Hlt Hf; simpl;
    destruct (Z.ltb_spec (bytecode_file m) (bytecode_end m)); try lia.
  - reflexivity.
  - rewrite (default_stalls fresh m Hf). apply IH; assumption.
Qed.

(** [run] stops only where the loop test fails. *)
Lemma run_Finished host : forall m m',
  run host m = Finished m' -> bytecode_end m' <= bytecode_file m'.
Proof.
  induction host as [|fresh host IH]; intros m m' H; simpl in H.
  - destruct (Z.ltb_spec (bytecode_file m) (bytecode_end m)); [discriminate|].
    inversion H; subst. assumption.
  - destruct (Z.ltb_spec (bytecode_file m) (bytecode_end m)).
    + destruct (step fresh m) as [m1|]; [eauto|discriminate].
    + inversion H; subst. assumption.
Qed.

(** C2, as the code has it. The loop ends exactly when the program counter
    is at or beyond the end of the code: [run] finishes only in such a state,
    finishes at once in any such state, and otherwise performs the next
    iteration. RETURN (opcode 0x15) does not end it: the instruction moves
    the program counter one byte on and changes nothing else. *)
Theorem C2_loop_ends_at_code_end :
  (forall host m m',
      run host m = Finished m' -> bytecode_end m' <= bytecode_file m') /\
  (forall host m,
      bytecode_end m <= bytecode_file m -> run host m = Finished m) /\
  (forall fresh host m,
      bytecode_file m < bytecode_end m ->
      run (fresh :: host) m
      = match step fresh m with
        | Some m' => run host m'
        | None => Crashed
        end) /\
  (forall fresh m,
      byte_at (state m) (bytecode_file m) = Some 0x15 ->
      step fresh m
      = Some (goto m (state m) (to_size_t (bytecode_file m + 1)))).
Proof.
  split; [exact (fun host => run_Finished host)|]. split; [|split].
  - intros host m H. destruct host; simpl;
      destruct (Z.ltb_spec (bytecode_file m) (bytecode_end m)); (lia || reflexivity).
  - intros fresh host m H. simpl.
    destruct (Z.ltb_spec (bytecode_file m) (bytecode_end m)); [reflexivity|lia].
  - intros fresh m H. unfold step, fetch. rewrite H. reflexivity.
Qed.

Lemma C2_loop_ends_at_code_end_witness :
  byte_at (state Example2.ret_boot) (bytecode_file Example2.ret_boot)
  = Some 0x15 /\
  step 0 Example2.ret_boot
  = Some (goto Example2.ret_boot (state Example2.ret_boot)
            (to_size_t (bytecode_file Example2.ret_boot + 1))).
Proof.
  split; [vm_compute; reflexivity|].
  apply (proj2 (proj2 (proj2 C2_loop_ends_at_code_end)) 0 Example2.ret_boot).
  vm_compute; reflexivity.
Defined.

(** C2 as stated fails: executing RETURN does not terminate execution. The
    code is RETURN; ADD 8, 0, 4. After RETURN the loop test still holds, the
    ADD is executed (slot 8 goes from 0 to 7), and only then, at the end of
    the code, does the loop finish. *)
Lemma C2_counterexample :
  load 4096 Example2.ret_file = Loaded Example2.ret_boot /\
  fetch Example2.ret_boot
  = Some (iRETURN, bytecode_file Example2.ret_boot + 1) /\
  step 0 Example2.ret_boot = Some Example2.ret_next /\
  bytecode_file Example2.ret_next < bytecode_end Example2.ret_next /\
  fetch Example2.ret_next
  = Some (iADD 8 0 4, bytecode_end Example2.ret_next) /\
  run [0; 0] Example2.ret_boot = Finished Example2.ret_end /\
  GetIntData (state Example2.ret_boot) 8 = Some 0 /\
  GetIntData (state Example2.ret_end) 8 = Some 7.
Proof. repeat split; vm_compute; reflexivity. Qed.

(** C6, as the code has it. A GOTO instruction (opcode 0x16, operand [off])
    sets the program counter to the start of the code segment plus the
    [long] at slot [off], modulo 2^64, and changes nothing else. In the
    program [16 00 00 15] with slot 0 holding the [long] 2, the GOTO sets
    the counter to offset 2, the NOP; the loop then executes the NOP and the
    RETURN at offset 3 and finishes at the end of the code. *)
Theorem C6_GOTO_target fresh m p off o :
  byte_at (state m) (bytecode_file m) = Some 0x16 ->
  Get1Parament (state m) (to_size_t (bytecode_file m + 1)) = Some (p, off) ->
  GetLongData (state m) off = Some o ->
  step fresh m = Some (goto m (state m) (to_size_t (run_code m + o))) /\
  (load 4096 Example6.skip_file = Loaded Example6.skip_boot /\
   Example.pc Example6.skip_boot = 0 /\
   step 0 Example6.skip_boot = Some Example6.skip_1 /\
   Example.pc Example6.skip_1 = 2 /\
   fetch Example6.skip_1 = Some (iNOP, run_code Example6.skip_1 + 3) /\
   step 0 Example6.skip_1 = Some Example6.skip_2 /\
   fetch Example6.skip_2 = Some (iRETURN, run_code Example6.skip_2 + 4) /\
   step 0 Example6.skip_2 = Some Example6.skip_3 /\
   run [0; 0; 0] Example6.skip_boot = Finished Example6.skip_3).
Proof.
  intros Hop Hdec Ho. split.
  - unfold step, fetch. rewrite Hop. simpl. rewrite Hdec. simpl.
    unfold GOTO. rewrite Ho. reflexivity.
  - repeat split; vm_compute; reflexivity.
Qed.

Lemma C6_GOTO_target_witness :
  byte_at (state Example6.skip_boot) (bytecode_file Example6.skip_boot)
  = Some 0x16 /\
  GetLongData (state Example6.skip_boot) 0 = Some 2 /\
  step 0 Example6.skip_boot
  = Some (goto Example6.skip_boot (state Example6.skip_boot)
            (to_size_t (run_code Example6.skip_boot + 2))).
Proof.
  split; [vm_compute; reflexivity|]. split; [vm_compute; reflexivity|].
  apply (C6_GOTO_target 0 Example6.skip_boot 4126 0 2); vm_compute; reflexivity.
Defined.

(** C6 as stated fails. With GOTO 0 at code offset 1 and the [long] 0 at slot
    0, the counter after the instruction is at offset 0: it is not the
    counter before plus 0, whether that is taken at the opcode (offset 1),
    after it (2) or after the operand (3). And the program [16 00 00 00] has
    no RETURN to reach: after the GOTO the loop fetches the two NOPs at
    offsets 2 and 3 and finishes. *)
Lemma C6_counterexample :
  (load 4096 Example6.back_file = Loaded Example6.back_boot /\
   step 0 Example6.back_boot = Some Example6.back_before /\
   Example.pc Example6.back_before = 1 /\
   fetch Example6.back_before
   = Some (iGOTO 0, run_code Example6.back_before + 3) /\
   GetLongData (state Example6.back_before) 0 = Some 0 /\
   step 0 Example6.back_before = Some Example6.back_after /\
   Example.pc Example6.back_after = 0 /\
   Example.pc Example6.back_after <> 1 + 0 /\
   Example.pc Example6.back_after <> 2 + 0 /\
   Example.pc Example6.back_after <> 3 + 0) /\
  (load 4096 Example6.nops_file = Loaded Example6.nops_boot /\
   step 0 Example6.nops_boot = Some Example6.nops_1 /\
   fetch Example6.nops_1 = Some (iNOP, run_code Example6.nops_1 + 3) /\
   step 0 Example6.nops_1 = Some Example6.nops_2 /\
   fetch Example6.nops_2 = Some (iNOP, run_code Example6.nops_2 + 4) /\
   step 0 Example6.nops_2 = Some Example6.nops_3 /\
   run [0; 0; 0] Example6.nops_boot = Finished Example6.nops_3).
Proof. repeat split; try (vm_compute; reflexivity); vm_compute; discriminate. Qed.

(** ** The arithmetic kernel against its description *)

Lemma sext_divides w w' x : 0 <= w <= w' -> sext w (sext w' x) = sext w x.
Proof.
  intros H. destruct (sext_congr w' x) as [q Hq]. rewrite Hq. unfold sext.
  replace (2 ^ w') with (2 ^ (w' - w) * 2 ^ w)
    by (rewrite <- Z.pow_add_r by lia; f_equal; lia).
  replace (x + q * (2 ^ (w' - w) * 2 ^ w) + 2 ^ (w - 1))
    with (x + 2 ^ (w - 1) + (q * 2 ^ (w' - w)) * 2 ^ w) by lia.
  now rewrite Z_mod_plus_full.
Qed.

Lemma to_int8_to_int x : to_int8 (to_int x) = to_int8 x.
Proof. apply sext_divides. lia. Qed.

Lemma to_int8_idem x : to_int8 (to_int8 x) = to_int8 x.
Proof. apply sext_divides. lia. Qed.

Lemma sext_range w z : 0 < w -> - 2 ^ (w - 1) <= sext w z < 2 ^ (w - 1).
Proof.
  intros Hw. unfold sext.
  assert (H2 : 2 ^ w = 2 * 2 ^ (w - 1)).
  { replace w with (w - 1 + 1) at 1 by lia. rewrite Z.pow_add_r by lia. lia. }
  assert (Hp : 0 < 2 ^ (w - 1)) by (apply Z.pow_pos_nonneg; lia).
  pose proof (Z.mod_pos_bound (z + 2 ^ (w - 1)) (2 ^ w)). lia.
Qed.

Lemma sext_idem w w' z : 0 < w <= w' -> sext w' (sext w z) = sext w z.
Proof.
  intros H. apply sext_small; [lia|].
  pose proof (sext_range w z ltac:(lia)).
  assert (2 ^ (w - 1) <= 2 ^ (w' - 1)) by (apply Z.pow_le_mono_r; lia).
  lia.
Qed.

Lemma tier3_Some s k r a b tr ta tb :
  GetType s r = Some tr -> GetType s a = Some ta -> GetType s b = Some tb ->
  tier3 s k r a b = Some ((tr =? k) || (ta =? k) || (tb =? k)).
Proof.
  intros Hr Ha Hb. unfold tier3, orelse, tag_is. rewrite Hr, Ha, Hb. simpl.
  destruct (tr =? k), (ta =? k), (tb =? k); reflexivity.
Qed.

Lemma tier2_Some s k r a tr ta :
  GetType s r = Some tr -> GetType s a = Some ta ->
  tier2 s k r a = Some ((tr =? k) || (ta =? k)).
Proof.
  intros Hr Ha. unfold tier2, orelse, tag_is. rewrite Hr, Ha. simpl.
  destruct (tr =? k), (ta =? k); reflexivity.
Qed.

(** ** The handlers against the description *)

Lemma sext_signed w z : 0 < w -> sext w z = Described.signed w z.
Proof.
  intros Hw. unfold sext, Described.signed.
  assert (H2 : 2 ^ w = 2 * 2 ^ (w - 1)).
  { replace w with (w - 1 + 1) at 1 by lia. rewrite Z.pow_add_r by lia. lia. }
  assert (Hp : 0 < 2 ^ (w - 1)) by (apply Z.pow_pos_nonneg; lia).
  set (h := 2 ^ (w - 1)) in *. rewrite H2.
  pose proof (Z.mod_pos_bound z (2 * h) ltac:(lia)) as Hr.
  pose proof (Z.div_mod z (2 * h) ltac:(lia)) as Hz.
  set (r := z mod (2 * h)) in *. set (q := z / (2 * h)) in *.
  destruct (Z.ltb_spec r h).
  - replace (z + h) with (r + h + q * (2 * h)) by lia.
    rewrite Z.mod_add by lia. rewrite Z.mod_small by lia. lia.
  - replace (z + h) with (r - h + (q + 1) * (2 * h)) by lia.
    rewrite Z.mod_add by lia. rewrite Z.mod_small by lia. lia.
Qed.

Lemma SFtrunc_trunc x : SFtrunc x = Described.trunc x.
Proof.
  destruct x as [sg| | |sg m e]; try reflexivity.
  unfold SFtrunc, Described.trunc. f_equal.
  destruct (Z.leb_spec 0 e).
  - destruct sg; simpl; lia.
  - assert (Hp : 0 < 2 ^ (- e)) by (apply Z.pow_pos_nonneg; lia).
    destruct sg; simpl.
    + change (Z.neg m) with (- Z.pos m). rewrite Z.quot_opp_l by lia.
      rewrite Z.quot_div_nonneg by lia. reflexivity.
    + rewrite Z.quot_div_nonneg by lia. reflexivity.
Qed.

Lemma high_nibble b : Z.shiftr (Z.land b 0xF0) 4 = Z.land (Z.shiftr b 4) 0xF.
Proof.
  apply Z.bits_inj'. intros n Hn.
  rewrite Z.shiftr_spec, !Z.land_spec, Z.shiftr_spec by lia.
  f_equal.
  change 0xF0 with (Z.shiftl 0xF 4).
  rewrite Z.shiftl_spec by lia. f_equal. lia.
Qed.

Lemma GetType_type_of s i : GetType s i = Described.type_of s i.
Proof.
  unfold GetType, Described.type_of, to_size_t, wrap.
  destruct (byte_at s _) as [b|]; [|reflexivity]. simpl.
  rewrite Zeven_mod. destruct (i mod 2 =? 0); simpl; f_equal.
  apply high_nibble.
Qed.

Lemma slot_addr_address s i : slot_addr s i = Described.address s i.
Proof. reflexivity. Qed.

Lemma to_int8_signed z : to_int8 z = Described.signed 8 z.
Proof. apply sext_signed. lia. Qed.
Lemma to_int_signed z : to_int z = Described.signed 32 z.
Proof. apply sext_signed. lia. Qed.
Lemma to_long_signed z : to_long z = Described.signed 64 z.
Proof. apply sext_signed. lia. Qed.

(** Narrowing an integer that was wrapped to a wider kind. *)
Lemma signed_signed w w' z :
  0 < w <= w' -> Described.signed w (Described.signed w' z) = Described.signed w z.
Proof.
  intros H. rewrite <- !sext_signed by lia. apply sext_divides. lia.
Qed.

(** An integer in the range of a kind is unchanged by the conversion. *)
Lemma signed_idem w w' z :
  0 < w <= w' -> Described.signed w' (Described.signed w z) = Described.signed w z.
Proof.
  intros H. rewrite <- !sext_signed by lia. apply sext_idem. lia.
Qed.

Ltac widths :=
  cbn [Described.width];
  change (8 * 1 - 1) with 7; change (8 * 4 - 1) with 31;
  change (8 * 8 - 1) with 63;
  change (8 * 1) with 8; change (8 * 4) with 32; change (8 * 8) with 64;
  change (Z.to_nat 1) with 1%nat; change (Z.to_nat 4) with 4%nat;
  change (Z.to_nat 8) with 8%nat;
  change (- 2 ^ 7) with (-128); change (2 ^ 7 - 1) with 127;
  change (- 2 ^ 31) with INT_MIN; change (2 ^ 31 - 1) with INT_MAX;
  change (- 2 ^ 63) with LONG_MIN; change (2 ^ 63 - 1) with LONG_MAX.

Ltac tags t H :=
  let E := fresh "E" in
  assert (E : t = 1 \/ t = 2 \/ t = 3 \/ t = 4 \/ t = 5) by lia;
  clear H; destruct E as [->|[->|[->|[->| ->]]]].

(** The native value of a slot is what the typed dereference of its tag
    reads. *)
Lemma native_read s i t :
  1 <= t <= 5 ->
  Described.native s i t
  = match t with
    | 0x01 => v ← read_int8 s (slot_addr s i); Some (I v)
    | 0x02 => v ← read_int s (slot_addr s i); Some (I v)
    | 0x03 => v ← read_long s (slot_addr s i); Some (I v)
    | 0x04 => x ← read_float s (slot_addr s i); Some (F x)
    | _ => x ← read_double s (slot_addr s i); Some (F x)
    end.
Proof.
  intros Ht. tags t Ht;
    unfold Described.native, read_int8, read_int, read_long, read_float,
      read_double;
    unfold Described.address, slot_addr, to_size_t, wrap; widths;
    destruct (load_bytes s _ _) as [bs|]; try reflexivity;
    cbn [mbind option_bind];
    rewrite ?to_int8_signed, ?to_int_signed, ?to_long_signed; reflexivity.
Qed.

(** The C conversions of the interpreter are the conversions described. *)
Lemma convert_cast k v :
  1 <= k <= 5 ->
  Described.convert k v
  = match k with
    | 0x01 => z ← cast_int8 v; Some (I z)
    | 0x02 => z ← cast_int v; Some (I z)
    | 0x03 => z ← cast_long v; Some (I z)
    | 0x04 => Some (F (cast_float v))
    | _ => Some (F (cast_double v))
    end.
Proof.
  intros Hk. tags k Hk; destruct v as [z|x];
    unfold Described.convert, cast_int8, cast_int, cast_long, cast_float,
      cast_double; widths; cbn [mbind option_bind];
    rewrite ?to_int8_signed, ?to_int_signed, ?to_long_signed,
      ?SFtrunc_trunc; try reflexivity.
  all: try (destruct (Described.trunc x) as [q|]; [|reflexivity];
            cbn [mbind option_bind];
            destruct (_ && _); reflexivity).
  all: destruct x; reflexivity.
Qed.

(** Reading a slot as a kind is what the getter of that kind does. *)
Lemma read_as_Get s i t :
  GetType s i = Some t -> 1 <= t <= 5 ->
  Described.read_as s i 1 = (v ← GetByteData s i; Some (I v)) /\
  Described.read_as s i 2 = (v ← GetIntData s i; Some (I v)) /\
  Described.read_as s i 3 = (v ← GetLongData s i; Some (I v)) /\
  Described.read_as s i 4 = (x ← GetFloatData s i; Some (F x)) /\
  Described.read_as s i 5 = (x ← GetDoubleData s i; Some (F x)).
Proof.
  intros Ht Bt.
  unfold Described.read_as, GetByteData, GetIntData, GetLongData,
    GetFloatData, GetDoubleData.
  rewrite <- GetType_type_of, Ht. cbn [mbind option_bind].
  rewrite (native_read s i t Bt).
  tags t Bt; cbn [mbind option_bind];
    match goal with
    | |- context [?rd s (slot_addr s i)] =>
        destruct (rd s (slot_addr s i)) as [n|]
    end; cbn [mbind option_bind]; try (repeat split; reflexivity);
    rewrite !convert_cast by lia; cbn [mbind option_bind];
    repeat split; try reflexivity.
Qed.

Lemma nan_pattern32 : Described.ieee 23 8 S754_nan (bits_of_float S754_nan).
Proof. vm_compute. repeat split; discriminate. Qed.

Lemma nan_pattern64 : Described.ieee 52 11 S754_nan (bits_of_double S754_nan).
Proof. vm_compute. repeat split; discriminate. Qed.

Lemma ieee_bits_of_float x : Described.ieee 23 8 x (bits_of_float x).
Proof.
  destruct x as [sg|sg| |sg m e]; try reflexivity; [apply nan_pattern32|].
  unfold Described.ieee, bits_of_float, bits_of_SF.
  destruct (Z.pos m <? 2 ^ 23); [reflexivity|].
  unfold emin. do 2 f_equal. lia.
Qed.

Lemma ieee_bits_of_double x : Described.ieee 52 11 x (bits_of_double x).
Proof.
  destruct x as [sg|sg| |sg m e]; try reflexivity; [apply nan_pattern64|].
  unfold Described.ieee, bits_of_double, bits_of_SF.
  destruct (Z.pos m <? 2 ^ 52); [reflexivity|].
  unfold emin. do 2 f_equal. lia.
Qed.

(** The typed store of the interpreter writes the value as described. *)
Lemma assign_write s i t v :
  GetType s i = Some t -> 1 <= t <= 5 ->
  Described.write_as s i v (assign s t i v).
Proof.
  intros Ht Bt. unfold Described.write_as.
  rewrite <- GetType_type_of, Ht. cbn [mbind option_bind].
  rewrite (convert_cast t v Bt).
  tags t Bt; unfold assign; cbn [mbind option_bind].
  - destruct (cast_int8 v); cbn [mbind option_bind]; [|reflexivity].
    eexists. split; reflexivity.
  - destruct (cast_int v); cbn [mbind option_bind]; [|reflexivity].
    eexists. split; reflexivity.
  - destruct (cast_long v); cbn [mbind option_bind]; [|reflexivity].
    eexists. split; reflexivity.
  - eexists. split; [|reflexivity].
    exists (bits_of_float (cast_float v)).
    split; [apply ieee_bits_of_float|reflexivity].
  - eexists. split; [|reflexivity].
    exists (bits_of_double (cast_double v)).
    split; [apply ieee_bits_of_double|reflexivity].
Qed.

Lemma assign_write_int s i t v :
  GetType s i = Some t -> 1 <= t <= 3 ->
  assign s t i v = Described.write_int s i v.
Proof.
  intros Ht Bt. unfold Described.write_int.
  rewrite <- GetType_type_of, Ht. cbn [mbind option_bind].
  rewrite (convert_cast t v) by lia.
  assert (E : t = 1 \/ t = 2 \/ t = 3) by lia.
  destruct E as [->|[->| ->]]; unfold assign; cbn [mbind option_bind].
  - destruct (cast_int8 v); reflexivity.
  - destruct (cast_int v); reflexivity.
  - destruct (cast_long v); reflexivity.
Qed.

(** What is written depends on the value through its conversion only. *)
Lemma write_as_convert s i t v v' o :
  GetType s i = Some t ->
  Described.convert t v = Described.convert t v' ->
  Described.write_as s i v' o -> Described.write_as s i v o.
Proof.
  intros Ht E. unfold Described.write_as.
  rewrite <- GetType_type_of, Ht. cbn [mbind option_bind]. rewrite E. auto.
Qed.

Lemma working_type_ge tr ta tb :
  1 <= tr <= 5 -> 1 <= ta <= 5 -> 1 <= tb <= 5 ->
  tr <= Described.working_type tr ta tb <= 5 /\
  ta <= Described.working_type tr ta tb /\
  tb <= Described.working_type tr ta tb.
Proof.
  intros Br Ba Bb. tags tr Br; tags ta Ba; tags tb Bb;
    vm_compute; repeat split; discriminate.
Qed.

Section Refinement.

Variables (s : State) (r a b tr ta tb : Z).
Hypothesis Hr : GetType s r = Some tr.
Hypothesis Ha : GetType s a = Some ta.
Hypothesis Hb : GetType s b = Some tb.
Hypothesis Br : 1 <= tr <= 5.
Hypothesis Ba : 1 <= ta <= 5.
Hypothesis Bb : 1 <= tb <= 5.

(** The [switch] of a tier, once the operation has given [v]. *)
Lemma switch_write w v v' :
  Described.working_type tr ta tb = w ->
  Described.convert tr v' = Described.convert tr v ->
  Described.write_as s r v' (switch w s r (Some v)).
Proof.
  intros Hw E. destruct (working_type_ge tr ta tb Br Ba Bb) as (G & _).
  rewrite Hw in G. unfold switch. rewrite Hr. cbn [mbind option_bind].
  rewrite (proj2 (Z.leb_le 1 tr)), (proj2 (Z.leb_le tr w)) by lia.
  cbn [andb]. apply (write_as_convert s r tr v' v _ Hr E).
  apply assign_write; assumption.
Qed.

Lemma switch_None w :
  Described.working_type tr ta tb = w -> switch w s r None = None.
Proof.
  intros Hw. destruct (working_type_ge tr ta tb Br Ba Bb) as (G & _).
  rewrite Hw in G. unfold switch. rewrite Hr. cbn [mbind option_bind].
  rewrite (proj2 (Z.leb_le 1 tr)), (proj2 (Z.leb_le tr w)) by lia.
  reflexivity.
Qed.

Ltac described_operands get :=
  let A := fresh "A" in
  let B := fresh "B" in
  pose proof (read_as_Get s a ta Ha Ba) as A;
  pose proof (read_as_Get s b tb Hb Bb) as B;
  rewrite <- !GetType_type_of, Hr, Ha, Hb; cbn [mbind option_bind];
  match goal with Hw : Described.working_type tr ta tb = _ |- _ => rewrite Hw end;
  first [ rewrite (proj1 A), (proj1 B)
        | rewrite (proj1 (proj2 A)), (proj1 (proj2 B))
        | rewrite (proj1 (proj2 (proj2 A))), (proj1 (proj2 (proj2 B)))
        | rewrite (proj1 (proj2 (proj2 (proj2 A)))),
            (proj1 (proj2 (proj2 (proj2 B))))
        | rewrite (proj2 (proj2 (proj2 (proj2 A)))),
            (proj2 (proj2 (proj2 (proj2 B)))) ];
  clear A B;
  unfold binop;
  destruct (get s a) as [x|]; cbn [mbind option_bind];
    [|apply switch_None; assumption];
  destruct (get s b) as [y|]; cbn [mbind option_bind];
    [|apply switch_None; assumption].

Lemma ADD_double :
  Described.working_type tr ta tb = 5 ->
  Described.ADD_described s r a b
    (switch 5 s r (binop GetDoubleData double_add s a b)).
Proof.
  intros Hw. unfold Described.ADD_described.
  described_operands (@GetDoubleData).
  apply switch_write; [exact Hw|reflexivity].
Qed.

Lemma ADD_float :
  Described.working_type tr ta tb = 4 ->
  Described.ADD_described s r a b
    (switch 4 s r (binop GetFloatData float_add s a b)).
Proof.
  intros Hw. unfold Described.ADD_described.
  described_operands (@GetFloatData).
  apply switch_write; [exact Hw|reflexivity].
Qed.

Lemma ADD_long :
  Described.working_type tr ta tb = 3 ->
  Described.ADD_described s r a b
    (switch 3 s r (binop GetLongData long_add s a b)).
Proof.
  intros Hw. unfold Described.ADD_described.
  described_operands (@GetLongData).
  apply switch_write; [exact Hw|].
  rewrite to_long_signed. reflexivity.
Qed.

Lemma ADD_int :
  Described.working_type tr ta tb = 2 ->
  Described.ADD_described s r a b
    (switch 2 s r (binop GetIntData int_add s a b)).
Proof.
  intros Hw. unfold Described.ADD_described.
  described_operands (@GetIntData).
  apply switch_write; [exact Hw|].
  rewrite to_int_signed. reflexivity.
Qed.

Lemma ADD_byte :
  Described.working_type tr ta tb = 1 ->
  Described.ADD_described s r a b
    (switch 1 s r (binop GetByteData int_add s a b)).
Proof.
  intros Hw. unfold Described.ADD_described.
  described_operands (@GetByteData).
  apply switch_write; [exact Hw|].
  destruct (working_type_ge tr ta tb Br Ba Bb) as (G & _).
  rewrite Hw in G. assert (tr = 1) as -> by lia.
  unfold Described.convert. widths.
  rewrite to_int_signed, !signed_signed by lia. reflexivity.
Qed.

Lemma ADD_refines :
  Described.ADD_described s r a b (ADD s r a b).
Proof.
  unfold ADD. rewrite !(tier3_Some s _ r a b tr ta tb Hr Ha Hb).
  pose proof ADD_double as T5. pose proof ADD_float as T4.
  pose proof ADD_long as T3. pose proof ADD_int as T2.
  pose proof ADD_byte as T1.
  clear Hr Ha Hb.
  assert (Er : tr = 1 \/ tr = 2 \/ tr = 3 \/ tr = 4 \/ tr = 5) by lia.
  assert (Ea : ta = 1 \/ ta = 2 \/ ta = 3 \/ ta = 4 \/ ta = 5) by lia.
  assert (Eb : tb = 1 \/ tb = 2 \/ tb = 3 \/ tb = 4 \/ tb = 5) by lia.
  destruct Er as [->|[->|[->|[->| ->]]]];
  destruct Ea as [->|[->|[->|[->| ->]]]];
  destruct Eb as [->|[->|[->|[->| ->]]]];
  first [ apply T5; reflexivity | apply T4; reflexivity
        | apply T3; reflexivity | apply T2; reflexivity
        | apply T1; reflexivity ].
Qed.

End Refinement.

Section ShiftRefinement.

Variables (s : State) (r a b tr ta tb : Z).
Hypothesis Hr : GetType s r = Some tr.
Hypothesis Ha : GetType s a = Some ta.
Hypothesis Hb : GetType s b = Some tb.
Hypothesis Br : 1 <= tr <= 3.
Hypothesis Ba : 1 <= ta <= 3.
Hypothesis Bb : 1 <= tb <= 3.

Lemma switch_tier w rhs :
  Described.working_type tr ta tb = w ->
  switch w s r rhs = v ← rhs; Described.write_int s r v.
Proof.
  intros Hw.
  destruct (working_type_ge tr ta tb ltac:(lia) ltac:(lia) ltac:(lia))
    as (G & _).
  rewrite Hw in G. unfold switch. rewrite Hr. cbn [mbind option_bind].
  rewrite (proj2 (Z.leb_le 1 tr)), (proj2 (Z.leb_le tr w)) by lia.
  cbn [andb]. destruct rhs as [v|]; [|reflexivity]. cbn [mbind option_bind].
  apply assign_write_int; assumption.
Qed.

Ltac shift_operands get :=
  let A := fresh "A" in
  let B := fresh "B" in
  pose proof (read_as_Get s a ta Ha ltac:(lia)) as A;
  pose proof (read_as_Get s b tb Hb ltac:(lia)) as B;
  unfold Described.ASR_described;
  rewrite <- !GetType_type_of, Hr, Ha, Hb; cbn [mbind option_bind];
  match goal with Hw : Described.working_type tr ta tb = _ |- _ => rewrite Hw end;
  first [ rewrite (proj1 A), (proj1 B)
        | rewrite (proj1 (proj2 A)), (proj1 (proj2 B))
        | rewrite (proj1 (proj2 (proj2 A))), (proj1 (proj2 (proj2 B))) ];
  clear A B;
  unfold binop;
  destruct (get s a) as [x|]; cbn [mbind option_bind]; [|reflexivity];
  destruct (get s b) as [y|]; cbn [mbind option_bind]; [|reflexivity];
  unfold long_shr, int_shr, Described.asr_in, Described.shift_bits;
  destruct (Z.leb_spec 0 y); cbn [andb]; [|reflexivity];
  destruct (y <? _); [|reflexivity];
  rewrite Z.shiftr_div_pow2 by assumption; reflexivity.

Lemma SAR_long :
  Described.working_type tr ta tb = 3 ->
  switch 3 s r (binop GetLongData long_shr s a b)
  = Described.ASR_described s r a b.
Proof.
  intros Hw. rewrite (switch_tier 3 _ Hw). shift_operands (@GetLongData).
Qed.

Lemma SAR_int :
  Described.working_type tr ta tb = 2 ->
  switch 2 s r (binop GetIntData int_shr s a b)
  = Described.ASR_described s r a b.
Proof.
  intros Hw. rewrite (switch_tier 2 _ Hw). shift_operands (@GetIntData).
Qed.

Lemma SAR_byte :
  Described.working_type tr ta tb = 1 ->
  switch 1 s r (binop GetByteData int_shr s a b)
  = Described.ASR_described s r a b.
Proof.
  intros Hw. rewrite (switch_tier 1 _ Hw). shift_operands (@GetByteData).
Qed.

Lemma SAR_refines : SAR s r a b = Described.ASR_described s r a b.
Proof.
  unfold SAR. rewrite !(tier3_Some s _ r a b tr ta tb Hr Ha Hb).
  pose proof SAR_long as T3. pose proof SAR_int as T2.
  pose proof SAR_byte as T1.
  clear Hr Ha Hb.
  assert (Er : tr = 1 \/ tr = 2 \/ tr = 3) by lia.
  assert (Ea : ta = 1 \/ ta = 2 \/ ta = 3) by lia.
  assert (Eb : tb = 1 \/ tb = 2 \/ tb = 3) by lia.
  destruct Er as [->|[->| ->]]; destruct Ea as [->|[->| ->]];
  destruct Eb as [->|[->| ->]];
  first [ apply T3; reflexivity | apply T2; reflexivity
        | apply T1; reflexivity ].
Qed.

End ShiftRefinement.

(** SHR and SAR have the same body. *)
Lemma SHR_SAR_same s r a b : SHR s r a b = SAR s r a b.
Proof. reflexivity. Qed.

(** ** Claims on the arithmetic kernel *)

(** C4. For every ADD over slots whose tags are among byte, int, long, float
    and double, the handler does what the description says: each operand is
    read with the width of its own tag and converted to the working type,
    the highest-ranked of the three tags; the two are added in that type;
    and the sum, converted to the destination's tag, is stored in the bytes
    of the destination. The description is written on the bytes of the
    block and uses none of the interpreter's reads and stores. With slot 0
    the [double] 2.5, slot 8 the [int] 1 and slot 16 an [int], the working
    type is double and ADD 16, 0, 8 stores the [int] 3 at slot 16; with the
    [double] slot 0 as destination, ADD 0, 0, 8 stores the pattern of 3.5. *)
Theorem C4_ADD_working_type s r a b tr ta tb :
  GetType s r = Some tr -> GetType s a = Some ta -> GetType s b = Some tb ->
  1 <= tr <= 5 -> 1 <= ta <= 5 -> 1 <= tb <= 5 ->
  Described.ADD_described s r a b (ADD s r a b) /\
  (load 4096 Example4.mixed_file = Loaded Example4.mixed_before /\
   GetDoubleData (state Example4.mixed_before) 0
   = Some (double_of_bits 0x4004000000000000) /\
   double_of_bits 0x4004000000000000 = S754_finite false (5 * 2 ^ 50) (-51) /\
   GetIntData (state Example4.mixed_before) 8 = Some 1 /\
   GetType (state Example4.mixed_before) 16 = Some 2 /\
   Described.working_type 2 5 2 = 5 /\
   fetch Example4.mixed_before
   = Some (iADD 16 0 8, bytecode_end Example4.mixed_before) /\
   step 0 Example4.mixed_before = Some Example4.mixed_after /\
   read_int (state Example4.mixed_after)
     (slot_addr (state Example4.mixed_after) 16) = Some 3 /\
   (s' ← ADD (state Example4.mixed_before) 0 0 8;
    read_ptr s' (slot_addr s' 0)) = Some 0x400C000000000000).
Proof.
  intros Hr Ha Hb Br Ba Bb. split.
  - eapply ADD_refines; eauto.
  - repeat split; vm_compute; reflexivity.
Qed.

Lemma C4_ADD_working_type_witness :
  GetType (state Example4.mixed_before) 16 = Some 2 /\
  GetType (state Example4.mixed_before) 0 = Some 5 /\
  GetType (state Example4.mixed_before) 8 = Some 2 /\
  Described.ADD_described (state Example4.mixed_before) 16 0 8
    (ADD (state Example4.mixed_before) 16 0 8).
Proof.
  split; [vm_compute; reflexivity|]. split; [vm_compute; reflexivity|].
  split; [vm_compute; reflexivity|].
  apply (C4_ADD_working_type (state Example4.mixed_before) 16 0 8 2 5 2);
    (vm_compute; reflexivity) || lia.
Defined.

(** C5. For every triple of slots with integer tags (byte, int, long), SHR
    and SAR yield the same state, and it is the one the description of an
    arithmetic right shift gives: the operands are read as the working type
    and the quotient of the first by two to the power of the second, rounded
    toward minus infinity, is stored converted to the destination's tag.
    On the [int] -8 shifted by 1 both store -4. *)
Theorem C5_SHR_SAR_arithmetic s r a b tr ta tb :
  GetType s r = Some tr -> GetType s a = Some ta -> GetType s b = Some tb ->
  1 <= tr <= 3 -> 1 <= ta <= 3 -> 1 <= tb <= 3 ->
  SHR s r a b = SAR s r a b /\
  SAR s r a b = Described.ASR_described s r a b /\
  (step 0 Example5.shr_before = Some Example5.shr_after /\
   step 0 Example5.sar_before = Some Example5.sar_after /\
   fetch Example5.shr_before
   = Some (iSHR 8 0 4, bytecode_end Example5.shr_before) /\
   fetch Example5.sar_before
   = Some (iSAR 8 0 4, bytecode_end Example5.sar_before) /\
   GetIntData (state Example5.shr_before) 0 = Some (-8) /\
   GetIntData (state Example5.shr_after) 8 = Some (-4) /\
   GetIntData (state Example5.sar_after) 8 = Some (-4) /\
   Example.data_of Example5.shr_after = Example.data_of Example5.sar_after).
Proof.
  intros Hr Ha Hb Br Ba Bb. split; [reflexivity|]. split.
  - eapply SAR_refines; eauto.
  - repeat split; vm_compute; reflexivity.
Qed.

Lemma C5_SHR_SAR_arithmetic_witness :
  GetType (state Example5.shr_before) 8 = Some 2 /\
  GetType (state Example5.shr_before) 0 = Some 2 /\
  GetType (state Example5.shr_before) 4 = Some 2 /\
  SHR (state Example5.shr_before) 8 0 4 = SAR (state Example5.shr_before) 8 0 4 /\
  SAR (state Example5.shr_before) 8 0 4
  = Described.ASR_described (state Example5.shr_before) 8 0 4.
Proof.
  split; [vm_compute; reflexivity|]. split; [vm_compute; reflexivity|].
  split; [vm_compute; reflexivity|].
  destruct (C5_SHR_SAR_arithmetic (state Example5.shr_before) 8 0 4 2 2 2)
    as (H1 & H2 & _); try (vm_compute; reflexivity); try lia.
  split; [exact H1|exact H2].
Defined.

(** * Further properties of the interpreter *)

(** ** Bytes and machine integers *)

Lemma le_decode_le_encode n z :
  le_decode (le_encode n z) = z mod 256 ^ Z.of_nat n.
Proof.
  revert z. induction n as [|n IH]; intros z.
  - simpl. rewrite Z.mod_1_r. reflexivity.
  - cbn [le_encode le_decode]. rewrite IH.
    rewrite Nat2Z.inj_succ, Z.pow_succ_r by lia.
    rewrite Z.rem_mul_r by lia. lia.
Qed.

Lemma sext_mod w z : sext w (z mod 2 ^ w) = sext w z.
Proof.
  unfold sext. rewrite Zplus_mod_idemp_l. reflexivity.
Qed.

(** What was stored is what is read. *)
Lemma load_bytes_store_bytes s a bs s' :
  store_bytes s a bs = Some s' -> load_bytes s' a (length bs) = Some bs.
Proof.
  unfold store_bytes, load_bytes. intros H.
  destruct (offset_of s a (Z.of_nat (length bs))) as [i|] eqn:Hi; [|discriminate].
  simpl in H. inversion H; subst s'; clear H.
  assert (Hi' : offset_of (set_image s (list_inserts i bs (image s))) a
                  (Z.of_nat (length bs)) = Some i).
  { unfold offset_of in *. simpl. rewrite length_inserts. exact Hi. }
  rewrite Hi'. simpl. f_equal.
  apply offset_of_Some in Hi. destruct Hi as (H0 & H1 & ->).
  apply list_eq. intros j. rewrite lookup_take, lookup_drop.
  case_decide as Hj.
  - rewrite list_lookup_inserts by lia. f_equal. lia.
  - symmetry. apply lookup_ge_None. lia.
Qed.

(** ** The type array *)

Lemma nibbles_of_byte b :
  0 <= b < 256 ->
  Z.shiftr (Z.land b 0xF0) 4 = b / 16 /\ Z.land b 0x0F = b mod 16.
Proof.
  intros Hb. split.
  - change 0xF0 with (Z.shiftl (Z.ones 4) 4).
    apply Z.bits_inj'. intros n Hn.
    rewrite Z.shiftr_spec, Z.land_spec, Z.shiftl_spec by lia.
    replace (n + 4 - 4) with n by lia.
    rewrite <- Z.shiftr_spec by lia. rewrite Z.shiftr_div_pow2 by lia.
    change (2 ^ 4) with 16.
    destruct (Z_lt_le_dec n 4).
    + rewrite Z.ones_spec_low by lia. apply andb_true_r.
    + rewrite Z.ones_spec_high by lia. rewrite andb_false_r. symmetry.
      apply Z.bits_above_log2; [apply Z.div_pos; lia|].
      destruct (Z.eq_dec (b / 16) 0) as [->|Hne]; [simpl; lia|].
      apply Z.log2_lt_pow2; [pose proof (Z.div_pos b 16); lia|].
      assert (b / 16 < 16) by (apply Z.div_lt_upper_bound; lia).
      assert (2 ^ 4 <= 2 ^ n) by (apply Z.pow_le_mono_r; lia). lia.
  - change 0x0F with (Z.ones 4). rewrite Z.land_ones by lia. reflexivity.
Qed.

(** X1. The tags of the slots [2k] and [2k+1] are the high and the low half of
    byte [k] of the type array: both lie in 0 .. 15 and together they give
    the byte back. *)
Theorem GetType_nibbles s k b :
  0 <= k ->
  byte_at s (to_size_t (type (memory s) + k)) = Some b ->
  0 <= b < 256 ->
  exists hi lo,
    GetType s (2 * k) = Some hi /\ GetType s (2 * k + 1) = Some lo /\
    0 <= hi < 16 /\ 0 <= lo < 16 /\ b = 16 * hi + lo.
Proof.
  intros Hk Hbyte Hb.
  destruct (nibbles_of_byte b Hb) as [Hhi Hlo].
  exists (b / 16), (b mod 16).
  assert (E0 : 2 * k / 2 = k) by (symmetry; apply (Z.div_unique _ 2 k 0); lia).
  assert (E1 : (2 * k + 1) / 2 = k)
    by (symmetry; apply (Z.div_unique _ 2 k 1); lia).
  assert (M0 : (2 * k) mod 2 = 0)
    by (symmetry; apply (Z.mod_unique _ 2 k 0); lia).
  assert (M1 : (2 * k + 1) mod 2 = 1)
    by (symmetry; apply (Z.mod_unique _ 2 k 1); lia).
  unfold GetType. rewrite E0, E1, M0, M1, Hbyte. simpl.
  rewrite Hhi, Hlo.
  pose proof (Z.mod_pos_bound b 16 ltac:(lia)).
  assert (0 <= b / 16) by (apply Z.div_pos; lia).
  assert (b / 16 < 16) by (apply Z.div_lt_upper_bound; lia).
  pose proof (Z.div_mod b 16 ltac:(lia)).
  repeat split; try lia.
Qed.

Lemma GetType_nibbles_witness :
  byte_at (state Example.add_before)
    (to_size_t (type (memory (state Example.add_before)) + 0)) = Some 0x20 /\
  exists hi lo,
    GetType (state Example.add_before) (2 * 0) = Some hi /\
    GetType (state Example.add_before) (2 * 0 + 1) = Some lo /\
    0 <= hi < 16 /\ 0 <= lo < 16 /\ 0x20 = 16 * hi + lo.
Proof.
  split; [vm_compute; reflexivity|].
  apply (GetType_nibbles (state Example.add_before) 0 0x20);
    [lia|vm_compute; reflexivity|lia].
Defined.

(** ** Typed reads and stores *)

Lemma to_int8_range x : -128 <= to_int8 x <= 127.
Proof.
  pose proof (sext_range 8 x ltac:(lia)) as R.
  unfold to_int8. change (2 ^ (8 - 1)) with 128 in R. lia.
Qed.

Lemma to_int_range x : INT_MIN <= to_int x <= INT_MAX.
Proof.
  pose proof (sext_range 32 x ltac:(lia)) as R.
  unfold to_int, INT_MIN, INT_MAX. change (32 - 1) with 31 in R. lia.
Qed.

Lemma to_long_range x : LONG_MIN <= to_long x <= LONG_MAX.
Proof.
  pose proof (sext_range 64 x ltac:(lia)) as R.
  unfold to_long, LONG_MIN, LONG_MAX. change (64 - 1) with 63 in R. lia.
Qed.

Lemma cast_int_range v z : cast_int v = Some z -> INT_MIN <= z <= INT_MAX.
Proof.
  intros H. destruct v as [x|x]; simpl in H.
  - inversion H. apply to_int_range.
  - destruct (SFtrunc x) as [y|]; simpl in H; [|discriminate].
    destruct (_ && _) eqn:E; [|discriminate].
    apply andb_prop in E. destruct E as [A B]. apply Z.leb_le in A, B.
    inversion H; subst. lia.
Qed.

Lemma cast_long_range v z : cast_long v = Some z -> LONG_MIN <= z <= LONG_MAX.
Proof.
  intros H. destruct v as [x|x]; simpl in H.
  - inversion H. apply to_long_range.
  - destruct (SFtrunc x) as [y|]; simpl in H; [|discriminate].
    destruct (_ && _) eqn:E; [|discriminate].
    apply andb_prop in E. destruct E as [A B]. apply Z.leb_le in A, B.
    inversion H; subst. lia.
Qed.

Lemma cast_int8_range v z : cast_int8 v = Some z -> -128 <= z <= 127.
Proof.
  intros H. destruct v as [x|x]; simpl in H.
  - inversion H. apply to_int8_range.
  - destruct (SFtrunc x) as [y|]; simpl in H; [|discriminate].
    destruct (_ && _) eqn:E; [|discriminate].
    apply andb_prop in E. destruct E as [A B]. apply Z.leb_le in A, B.
    inversion H; subst. lia.
Qed.

(** The cases of a [switch] on a tag: one of the five scalar tags, or the
    [default]. *)
Ltac by_tag t :=
  destruct t as [|t|t];
  [|do 3 (try destruct t as [t|t|])|].

Lemma bind_cast {A} (cast : num -> option Z) (P : Z -> Prop)
    (r : option A) (f : A -> num) v :
  (forall w z, cast w = Some z -> P z) ->
  r ≫= (fun x => cast (f x)) = Some v -> P v.
Proof.
  intros Hc H. destruct r as [x|]; [|discriminate]. simpl in H. eauto.
Qed.

Lemma GetByteData_range s i v : GetByteData s i = Some v -> -128 <= v <= 127.
Proof.
  unfold GetByteData. destruct (GetType s i) as [t|]; simpl; [|discriminate].
  by_tag t; simpl; intros H; try (inversion H; lia);
    first [ apply (bind_cast cast_int8 _ _ I _ cast_int8_range H)
          | apply (bind_cast cast_int8 _ _ F _ cast_int8_range H) ].
Qed.

Lemma GetIntData_range s i v : GetIntData s i = Some v -> INT_MIN <= v <= INT_MAX.
Proof.
  unfold GetIntData. destruct (GetType s i) as [t|]; simpl; [|discriminate].
  by_tag t; simpl; intros H; try (inversion H; unfold INT_MIN, INT_MAX; lia);
    first [ apply (bind_cast cast_int _ _ I _ cast_int_range H)
          | apply (bind_cast cast_int _ _ F _ cast_int_range H) ].
Qed.

Lemma GetLongData_range s i v :
  GetLongData s i = Some v -> LONG_MIN <= v <= LONG_MAX.
Proof.
  unfold GetLongData. destruct (GetType s i) as [t|]; simpl; [|discriminate].
  by_tag t; simpl; intros H; try (inversion H; unfold LONG_MIN, LONG_MAX; lia);
    first [ apply (bind_cast cast_long _ _ I _ cast_long_range H)
          | apply (bind_cast cast_long _ _ F _ cast_long_range H) ].
Qed.

Lemma fits_iff (lo hi : Z) (q : option Z) v :
  (z ← q; if (lo <=? z) && (z <=? hi) then Some z else None) = Some v <->
  q = Some v /\ lo <= v <= hi.
Proof.
  destruct q as [z|]; simpl;
    [|split; [discriminate|intros [E _]; discriminate]].
  destruct (Z.leb_spec lo z) as [A|A], (Z.leb_spec z hi) as [B|B]; simpl; split;
    try (intros E; inversion E; subst; split; [reflexivity|lia]);
    try discriminate;
    intros [E R]; inversion E; subst; try reflexivity; lia.
Qed.

(** X2. Whatever the tag of the slot and the bytes in it, an integer read
    that returns gives a value of its C return type. On a slot that holds a
    floating value, [float] or [double], each integer read returns exactly
    when the value has a truncation toward zero (it is no NaN and no
    infinity) that lies in the range of the return type, and returns that
    truncation; a value that does not fit gives no result. *)
Theorem integer_reads_in_range s i :
  (from_option (fun v => -128 <= v <= 127) True (GetByteData s i) /\
   from_option (fun v => INT_MIN <= v <= INT_MAX) True (GetIntData s i) /\
   from_option (fun v => LONG_MIN <= v <= LONG_MAX) True (GetLongData s i)) /\
  forall x,
    GetType s i = Some 4 /\ read_float s (slot_addr s i) = Some x \/
    GetType s i = Some 5 /\ read_double s (slot_addr s i) = Some x ->
    forall v,
      (GetByteData s i = Some v <-> SFtrunc x = Some v /\ -128 <= v <= 127) /\
      (GetIntData s i = Some v
       <-> SFtrunc x = Some v /\ INT_MIN <= v <= INT_MAX) /\
      (GetLongData s i = Some v
       <-> SFtrunc x = Some v /\ LONG_MIN <= v <= LONG_MAX).
Proof.
  split.
  - pose proof (GetByteData_range s i) as B.
    pose proof (GetIntData_range s i) as N.
    pose proof (GetLongData_range s i) as L.
    destruct (GetByteData s i), (GetIntData s i), (GetLongData s i); simpl;
      (split; [|split]);
      first [exact Logic.I | apply B; reflexivity | apply N; reflexivity
            | apply L; reflexivity].
  - intros x Hx v. unfold GetByteData, GetIntData, GetLongData.
    destruct Hx as [[-> ->]|[-> ->]]; cbn [mbind option_bind];
      unfold cast_int8, cast_int, cast_long;
      (split; [|split]); apply fits_iff.
Qed.

Lemma integer_reads_in_range_witness :
  GetType (state Example9.float_boot) 0 = Some 4 /\
  read_float (state Example9.float_boot)
    (slot_addr (state Example9.float_boot) 0)
  = Some (S754_finite false 13107200 (-16)) /\
  SFtrunc (S754_finite false 13107200 (-16)) = Some 200 /\
  GetByteData (state Example9.float_boot) 0 = None /\
  GetIntData (state Example9.float_boot) 0 = Some 200 /\
  forall v,
    (GetByteData (state Example9.float_boot) 0 = Some v
     <-> SFtrunc (S754_finite false 13107200 (-16)) = Some v /\ -128 <= v <= 127) /\
    (GetIntData (state Example9.float_boot) 0 = Some v
     <-> SFtrunc (S754_finite false 13107200 (-16)) = Some v
         /\ INT_MIN <= v <= INT_MAX) /\
    (GetLongData (state Example9.float_boot) 0 = Some v
     <-> SFtrunc (S754_finite false 13107200 (-16)) = Some v
         /\ LONG_MIN <= v <= LONG_MAX).
Proof.
  split; [vm_compute; reflexivity|]. split; [vm_compute; reflexivity|].
  split; [vm_compute; reflexivity|]. split; [vm_compute; reflexivity|].
  split; [vm_compute; reflexivity|].
  apply (proj2 (integer_reads_in_range (state Example9.float_boot) 0)).
  left. split; vm_compute; reflexivity.
Defined.

(** X3. On a slot that holds an integer (or has no scalar tag), the three
    integer reads agree: the [int] and the [byte] read are the [long] read
    cut to 32 and to 8 bits. *)
Theorem integer_reads_agree s i t l :
  GetType s i = Some t -> t <> 4 -> t <> 5 ->
  GetLongData s i = Some l ->
  GetIntData s i = Some (to_int l) /\ GetByteData s i = Some (to_int8 l).
Proof.
  unfold GetLongData, GetIntData, GetByteData. intros -> H4 H5.
  simpl. by_tag t; try lia; simpl.
  all: try (intros H; inversion H; split; reflexivity).
  all: match goal with |- ?r ≫= _ = _ -> _ => destruct r as [v|]; simpl end.
  all: try discriminate.
  all: intros H; inversion H; subst l; unfold to_int, to_int8, to_long.
  all: rewrite ?sext_divides by lia; split; reflexivity.
Qed.

Lemma integer_reads_agree_witness :
  GetIntData (state Example1.if_boot) 1 = Some (to_int 7) /\
  GetByteData (state Example1.if_boot) 1 = Some (to_int8 7).
Proof.
  apply (integer_reads_agree (state Example1.if_boot) 1 3 7);
    [vm_compute; reflexivity|lia|lia|vm_compute; reflexivity].
Defined.

(** X4. A slot whose tag is none of the five scalar tags reads as zero at every
    type, and every typed store to it returns with memory as it was. *)
Theorem untyped_slot_inert s i t :
  GetType s i = Some t -> ~ (1 <= t <= 5) ->
  (GetByteData s i = Some 0 /\ GetIntData s i = Some 0 /\
   GetLongData s i = Some 0 /\
   GetFloatData s i = Some (S754_zero false) /\
   GetDoubleData s i = Some (S754_zero false)) /\
  (forall v, SetByteData s i v = Some s /\ SetIntData s i v = Some s /\
             SetLongData s i v = Some s) /\
  (forall x, SetFloatData s i x = Some s /\ SetDoubleData s i x = Some s).
Proof.
  intros Ht Hn.
  unfold GetByteData, GetIntData, GetLongData, GetFloatData, GetDoubleData,
    SetByteData, SetIntData, SetLongData, SetFloatData, SetDoubleData, switch.
  rewrite Ht. simpl.
  destruct ((1 <=? t) && (t <=? 5)) eqn:E.
  { apply andb_prop in E. destruct E as [A B]. apply Z.leb_le in A, B. lia. }
  by_tag t; try lia; repeat split; reflexivity.
Qed.

Lemma untyped_slot_inert_witness :
  (GetByteData (state Example.add_before) 1 = Some 0 /\
   GetIntData (state Example.add_before) 1 = Some 0 /\
   GetLongData (state Example.add_before) 1 = Some 0 /\
   GetFloatData (state Example.add_before) 1 = Some (S754_zero false) /\
   GetDoubleData (state Example.add_before) 1 = Some (S754_zero false)) /\
  (forall v, SetByteData (state Example.add_before) 1 v
               = Some (state Example.add_before) /\
             SetIntData (state Example.add_before) 1 v
               = Some (state Example.add_before) /\
             SetLongData (state Example.add_before) 1 v
               = Some (state Example.add_before)) /\
  (forall x, SetFloatData (state Example.add_before) 1 x
               = Some (state Example.add_before) /\
             SetDoubleData (state Example.add_before) 1 x
               = Some (state Example.add_before)).
Proof.
  apply (untyped_slot_inert (state Example.add_before) 1 0);
    [vm_compute; reflexivity|lia].
Defined.

Lemma slot_addr_in_data s i n :
  layout s -> 0 <= i -> 0 <= n -> i + n <= size (memory s) ->
  slot_addr s i = data (memory s) + i /\
  writes_within_data s (slot_addr s i) n.
Proof.
  intros (Hd & Hs & Ht & Hlt) Hi Hn Hle.
  assert (0 <= size (memory s) / 2) by (apply Z.div_pos; lia).
  assert (E : slot_addr s i = data (memory s) + i).
  { unfold slot_addr. apply to_size_t_small. lia. }
  split; [exact E|]. right. rewrite E. lia.
Qed.

Lemma sizeof_tag_nonneg t : 0 <= sizeof_tag t.
Proof. by_tag t; simpl; lia. Qed.

(** The bytes of an integer, stored and loaded, give the integer back up to
    the width stored. *)
Lemma load_store_le_encode s a n z s' :
  store_bytes s a (le_encode n z) = Some s' ->
  exists bs, load_bytes s' a n = Some bs /\
             sext (8 * Z.of_nat n) (le_decode bs) = sext (8 * Z.of_nat n) z.
Proof.
  intros H. apply load_bytes_store_bytes in H.
  rewrite length_le_encode in H. eexists; split; [exact H|].
  rewrite le_decode_le_encode.
  replace (256 ^ Z.of_nat n) with (2 ^ (8 * Z.of_nat n))
    by (rewrite Z.pow_mul_r by lia; reflexivity).
  apply sext_mod.
Qed.

Lemma same_outside_slot_addr s s' a n i :
  same_outside s s' a n -> slot_addr s' i = slot_addr s i.
Proof. intros (_ & Hm & _). unfold slot_addr. rewrite Hm. reflexivity. Qed.

(** A store of an integer to an integer slot of the data segment, read back
    as a [long]. *)
Lemma switch_then_read n s i z t s' :
  layout s -> 0 <= i -> i + sizeof_tag t <= size (memory s) ->
  GetType s i = Some t -> 1 <= t <= 3 -> t <= n ->
  switch n s i (Some (I z)) = Some s' ->
  GetType s' i = Some t /\
  GetLongData s' i = Some (sext (8 * sizeof_tag t) z).
Proof.
  intros Hl Hi Hle Ht Ht3 Htn H.
  destruct (switch_frame _ _ _ _ _ _ H Ht) as [Hso _].
  destruct (slot_addr_in_data s i (sizeof_tag t) Hl Hi (sizeof_tag_nonneg t) Hle)
    as [_ Hw].
  assert (Ht' : GetType s' i = Some t).
  { rewrite <- Ht.
    apply (same_outside_preserves_types _ _ _ _ Hl Hso Hw).
    pose proof (sizeof_tag_nonneg t).
    assert (0 < sizeof_tag t) by (by_tag t; simpl; lia). lia. }
  split; [exact Ht'|].
  unfold switch in H. rewrite Ht in H. simpl in H.
  rewrite (proj2 (Z.leb_le 1 t)), (proj2 (Z.leb_le t n)) in H by lia.
  simpl in H.
  unfold GetLongData. rewrite Ht'. simpl.
  rewrite (same_outside_slot_addr _ _ _ _ i Hso).
  unfold read_int8, read_int, read_long.
  by_tag t; try lia; simpl in H |- *;
    unfold put_int8, put_int, put_long in H;
    apply load_store_le_encode in H; destruct H as (bs & -> & Hbs); simpl;
    f_equal; unfold to_int8, to_int, to_long in *;
    change (8 * Z.of_nat 1) with 8 in Hbs; change (8 * Z.of_nat 4) with 32 in Hbs;
    change (8 * Z.of_nat 8) with 64 in Hbs;
    change (8 * 1) with 8; change (8 * 4) with 32; change (8 * 8) with 64;
    rewrite Hbs, !sext_idem by lia; reflexivity.
Qed.

(** X5. An integer stored to an integer slot of the data segment leaves the tag
    of the slot as it was and reads back as the value cut to the width of
    the slot and sign-extended: 8, 32 or 64 bits for the tags 1, 2 and 3. *)
Theorem integer_store_then_read s i v t s' :
  layout s -> 0 <= i -> i + sizeof_tag t <= size (memory s) ->
  GetType s i = Some t -> 1 <= t <= 3 ->
  SetLongData s i v = Some s' ->
  GetType s' i = Some t /\
  GetLongData s' i = Some (sext (8 * sizeof_tag t) v).
Proof.
  intros Hl Hi Hle Ht Ht3 H.
  apply (switch_then_read 5 s i v t s'); auto. lia.
Qed.

Lemma integer_store_then_read_witness :
  exists s',
    SetLongData (state Example.add_before) 8 4294967301 = Some s' /\
    GetType s' 8 = Some 2 /\
    GetLongData s' 8 = Some (sext (8 * sizeof_tag 2) 4294967301).
Proof.
  eexists. split; [vm_compute; reflexivity|].
  apply (integer_store_then_read (state Example.add_before) 8 4294967301 2);
    [unfold layout; simpl; repeat split; lia|lia|simpl; lia
    |vm_compute; reflexivity|lia|vm_compute; reflexivity].
Defined.

(** Typed reads see only the tag and the bytes of their slot. *)
Lemma same_outside_typed_reads s s' a n j u :
  same_outside s s' a n ->
  GetType s j = Some u -> GetType s' j = Some u ->
  slot_addr s j + sizeof_tag u <= a \/ a + n <= slot_addr s j ->
  GetByteData s' j = GetByteData s j /\
  GetIntData s' j = GetIntData s j /\
  GetLongData s' j = GetLongData s j /\
  GetFloatData s' j = GetFloatData s j /\
  GetDoubleData s' j = GetDoubleData s j.
Proof.
  intros Hso Hu Hu' Hd.
  unfold GetByteData, GetIntData, GetLongData, GetFloatData, GetDoubleData.
  rewrite Hu, Hu', (same_outside_slot_addr _ _ _ _ j Hso). simpl.
  unfold read_int8, read_int, read_long, read_float, read_double.
  by_tag u; simpl in Hd; repeat split; try reflexivity;
    rewrite (same_outside_load_bytes _ _ _ _ _ _ Hso) by (simpl; lia);
    reflexivity.
Qed.

(** X6. A typed store to a slot of the data segment leaves every slot that does
    not overlap it as it was: same tag, and the same value at each of the
    five types. *)
Theorem typed_store_keeps_other_slots s i t v x s' j u :
  layout s -> 0 <= i -> i + sizeof_tag t <= size (memory s) ->
  GetType s i = Some t ->
  SetLongData s i v = Some s' \/ SetDoubleData s i x = Some s' ->
  0 <= j < size (memory s) -> GetType s j = Some u ->
  j + sizeof_tag u <= i \/ i + sizeof_tag t <= j ->
  GetType s' j = Some u /\
  GetByteData s' j = GetByteData s j /\
  GetIntData s' j = GetIntData s j /\
  GetLongData s' j = GetLongData s j /\
  GetFloatData s' j = GetFloatData s j /\
  GetDoubleData s' j = GetDoubleData s j.
Proof.
  intros Hl Hi Hle Ht Hset Hj Hu Hd.
  assert (Hso : same_outside s s' (slot_addr s i) (sizeof_tag t)).
  { destruct Hset as [H|H];
      exact (proj1 (switch_frame _ _ _ _ _ _ H Ht)). }
  destruct (slot_addr_in_data s i (sizeof_tag t) Hl Hi (sizeof_tag_nonneg t) Hle)
    as [Ei Hw].
  assert (Hu' : GetType s' j = Some u).
  { rewrite <- Hu. apply (same_outside_preserves_types _ _ _ _ Hl Hso Hw j Hj). }
  split; [exact Hu'|].
  assert (Ej : slot_addr s j = data (memory s) + j).
  { apply (slot_addr_in_data s j 0 Hl); lia. }
  apply (same_outside_typed_reads s s' _ _ j u Hso Hu Hu').
  rewrite Ei, Ej. lia.
Qed.

Lemma typed_store_keeps_other_slots_witness :
  exists s',
    SetLongData (state Example.add_before) 8 7 = Some s' /\
    GetType s' 0 = Some 2 /\
    GetByteData s' 0 = GetByteData (state Example.add_before) 0 /\
    GetIntData s' 0 = GetIntData (state Example.add_before) 0 /\
    GetLongData s' 0 = GetLongData (state Example.add_before) 0 /\
    GetFloatData s' 0 = GetFloatData (state Example.add_before) 0 /\
    GetDoubleData s' 0 = GetDoubleData (state Example.add_before) 0.
Proof.
  eexists. split; [vm_compute; reflexivity|].
  apply (typed_store_keeps_other_slots
           (state Example.add_before) 8 2 7 (S754_zero false) _ 0 2);
    [unfold layout; simpl; repeat split; lia|lia|simpl; lia
    |vm_compute; reflexivity|left; vm_compute; reflexivity|simpl; lia
    |vm_compute; reflexivity|simpl; lia].
Defined.

(** ** Copies and pointers *)







Lemma pointer_round_trip s i t p s' :
  layout s -> 0 <= i -> i + 8 <= size (memory s) ->
  GetType s i = Some t ->
  store_bytes s (slot_addr s i) (le_encode 8 p) = Some s' ->
  GetType s' i = Some t /\ GetPtrData s' i = Some (to_size_t p).
Proof.
  intros Hl Hi Hle Ht H.
  pose proof (store_bytes_same_outside _ _ _ _ H) as Hso.
  rewrite length_le_encode in Hso.
  destruct (slot_addr_in_data s i 8 Hl Hi ltac:(lia) Hle) as [_ Hw].
  pose proof (same_outside_preserves_types _ _ _ _ Hl Hso Hw i ltac:(lia)) as Ht'.
  rewrite Ht in Ht'. split; [exact Ht'|].
  unfold GetPtrData, read_ptr. rewrite Ht'. simpl.
  rewrite (same_outside_slot_addr _ _ _ _ i Hso).
  apply load_bytes_store_bytes in H. rewrite length_le_encode in H.
  rewrite H. simpl. f_equal. apply (le_decode_le_encode 8).
Qed.

(** X9. After PTR, the slot [ptr] read as a pointer gives the address of the
    slot [index], whatever the tag of [ptr], which stays as it was; the
    eight bytes are to lie in the data segment. *)
Theorem PTR_then_GetPtrData s index ptr t s' :
  layout s -> 0 <= ptr -> ptr + 8 <= size (memory s) ->
  GetType s ptr = Some t ->
  PTR s index ptr = Some s' ->
  GetType s' ptr = Some t /\ GetPtrData s' ptr = Some (slot_addr s index).
Proof.
  intros Hl Hi Hle Ht H. unfold PTR, SetPtrData in H.
  rewrite Ht in H. simpl in H.
  destruct (pointer_round_trip s ptr t _ s' Hl Hi Hle Ht H) as [A B].
  split; [exact A|]. rewrite B. f_equal.
  unfold slot_addr, to_size_t, wrap. apply Z.mod_mod. lia.
Qed.

(** X10. After NEW, the slot [ptr] read as a pointer gives the address the
    allocator returned, whatever the tag of the slot and whatever size was
    asked for. *)
Theorem NEW_then_GetPtrData fresh s ptr size_ t s' :
  layout s -> 0 <= ptr -> ptr + 8 <= size (memory s) ->
  GetType s ptr = Some t ->
  NEW fresh s ptr size_ = Some s' ->
  GetType s' ptr = Some t /\ GetPtrData s' ptr = Some (to_size_t fresh).
Proof.
  intros Hl Hi Hle Ht H. unfold NEW in H.
  destruct (GetLongData s size_); [|discriminate].
  change (store_bytes s (slot_addr s ptr) (le_encode 8 fresh) = Some s') in H.
  exact (pointer_round_trip s ptr t _ s' Hl Hi Hle Ht H).
Qed.


Lemma PTR_then_GetPtrData_witness :
  exists s',
    PTR (state Example1.if_boot) 0 1 = Some s' /\
    GetType s' 1 = Some 3 /\
    GetPtrData s' 1 = Some (slot_addr (state Example1.if_boot) 0).
Proof.
  eexists. split; [vm_compute; reflexivity|].
  apply (PTR_then_GetPtrData (state Example1.if_boot) 0 1 3);
    [unfold layout; simpl; repeat split; lia|lia|simpl; lia
    |vm_compute; reflexivity|vm_compute; reflexivity].
Defined.

Lemma NEW_then_GetPtrData_witness :
  exists s',
    NEW 65536 (state Example1.if_boot) 1 9 = Some s' /\
    GetType s' 1 = Some 3 /\
    GetPtrData s' 1 = Some (to_size_t 65536).
Proof.
  eexists. split; [vm_compute; reflexivity|].
  apply (NEW_then_GetPtrData 65536 (state Example1.if_boot) 1 9 3);
    [unfold layout; simpl; repeat split; lia|lia|simpl; lia
    |vm_compute; reflexivity|vm_compute; reflexivity].
Defined.

(** ** The operand decoder, in general *)

Lemma Parament_loop_prefix pre : forall b rest ptr size,
  Forall (fun x => 255 <= x) pre -> b < 255 ->
  Parament_loop (pre ++ b :: rest) ptr size
  = Some (to_size_t (ptr + Z.of_nat (length pre) + 1),
          to_size_t (to_int (255 * (size + Z.of_nat (length pre)) + b))).
Proof.
  induction pre as [|x pre IH]; intros b rest ptr size Hpre Hb.
  - simpl. destruct (Z.ltb_spec b 255); [|lia].
    repeat f_equal; lia.
  - inversion Hpre as [|? ? Hx Hpre']; subst.
    cbn [app Parament_loop]. destruct (Z.ltb_spec x 255); [lia|].
    rewrite IH by assumption. unfold to_size_t, to_int.
    f_equal. f_equal.
    + rewrite <- Z.add_assoc, wrap_wrap_add. f_equal. simpl length. lia.
    + f_equal.
      replace (255 * (sext 32 (size + 1) + Z.of_nat (length pre)) + b)
        with (255 * sext 32 (size + 1) + (255 * Z.of_nat (length pre) + b))
        by lia.
      rewrite sext_mul_sext_add. f_equal. simpl length. lia.
Qed.

Lemma Parament_loop_inv bytes : forall ptr size p v,
  Parament_loop bytes ptr size = Some (p, v) ->
  exists pre b rest,
    bytes = pre ++ b :: rest /\ Forall (fun x => 255 <= x) pre /\ b < 255.
Proof.
  induction bytes as [|x bytes IH]; intros ptr size p v H; [discriminate|].
  cbn [Parament_loop] in H. destruct (Z.ltb_spec x 255).
  - exists [], x, bytes. repeat split; [constructor|assumption].
  - destruct (IH _ _ _ _ H) as (pre & b & rest & -> & Hpre & Hb).
    exists (x :: pre), b, rest. repeat split; [constructor|]; assumption.
Qed.

(** X11. The decoder in full: an operand is decoded exactly when, from the
    pointer on, the block holds some bytes not below 255 and then a byte
    below 255; the pointer then moves past that byte, and the value is the
    [int] 255 * count + byte, the count of leading bytes being kept in an
    [int], widened to [size_t]. *)
Theorem Get1Parament_decodes s ptr p v :
  Get1Parament s ptr = Some (p, v) <->
  exists pre b rest,
    bytes_from s ptr = pre ++ b :: rest /\
    Forall (fun x => 255 <= x) pre /\ b < 255 /\
    p = to_size_t (ptr + Z.of_nat (length pre) + 1) /\
    v = to_size_t (to_int (255 * Z.of_nat (length pre) + b)).
Proof.
  unfold Get1Parament. split.
  - intros H. destruct (Parament_loop_inv _ _ _ _ _ H)
      as (pre & b & rest & E & Hpre & Hb).
    exists pre, b, rest. rewrite E in H.
    rewrite Parament_loop_prefix in H by assumption.
    inversion H. repeat split; auto.
  - intros (pre & b & rest & E & Hpre & Hb & -> & ->).
    rewrite E, Parament_loop_prefix by assumption. reflexivity.
Qed.


Lemma bytes_from_length s ptr :
  bytes_from s ptr <> [] ->
  0 <= ptr - bytecode_begin s /\
  Z.of_nat (length (bytes_from s ptr))
  = Z.of_nat (length (image s)) - (ptr - bytecode_begin s).
Proof.
  unfold bytes_from. destruct (offset_of s ptr 0) as [i|] eqn:Hi; [|congruence].
  intros _. apply offset_of_Some in Hi. destruct Hi as (H0 & H1 & ->).
  rewrite length_drop. lia.
Qed.

(** Decoding an operand moves the pointer forward by at least one byte and
    never beyond the end of the block. *)
Lemma Get1Parament_advances s ptr p v :
  block_ok s -> Get1Parament s ptr = Some (p, v) ->
  ptr < p <= bytecode_begin s + Z.of_nat (length (image s)).
Proof.
  intros [Hb He] H. unfold Get1Parament in H.
  destruct (Parament_loop_inv _ _ _ _ _ H) as (pre & b & rest & E & Hpre & Hlt).
  rewrite E, Parament_loop_prefix in H by assumption. inversion H; subst p.
  destruct (bytes_from_length s ptr) as [H0 Hlen]; [rewrite E; by destruct pre|].
  rewrite E, length_app in Hlen. cbn [length] in Hlen.
  rewrite to_size_t_small by lia. lia.
Qed.

Lemma Get2Parament_advances s ptr p a b :
  block_ok s -> Get2Parament s ptr = Some (p, a, b) ->
  ptr < p <= bytecode_begin s + Z.of_nat (length (image s)).
Proof.
  intros Hok H. unfold Get2Parament in H.
  destruct (Get1Parament s ptr) as [[p1 v1]|] eqn:H1; [|discriminate].
  simpl in H.
  destruct (Get1Parament s p1) as [[p2 v2]|] eqn:H2; [|discriminate].
  simpl in H. inversion H; subst.
  apply Get1Parament_advances in H1, H2; auto. lia.
Qed.

Lemma Get3Parament_advances s ptr p a b c :
  block_ok s -> Get3Parament s ptr = Some (p, a, b, c) ->
  ptr < p <= bytecode_begin s + Z.of_nat (length (image s)).
Proof.
  intros Hok H. unfold Get3Parament in H.
  destruct (Get1Parament s ptr) as [[p1 v1]|] eqn:H1; [|discriminate].
  simpl in H.
  destruct (Get1Parament s p1) as [[p2 v2]|] eqn:H2; [|discriminate].
  simpl in H.
  destruct (Get1Parament s p2) as [[p3 v3]|] eqn:H3; [|discriminate].
  simpl in H. inversion H; subst.
  apply Get1Parament_advances in H1, H2, H3; auto. lia.
Qed.

Lemma Get4Parament_advances s ptr p a b c d :
  block_ok s -> Get4Parament s ptr = Some (p, a, b, c, d) ->
  ptr < p <= bytecode_begin s + Z.of_nat (length (image s)).
Proof.
  intros Hok H. unfold Get4Parament in H.
  destruct (Get1Parament s ptr) as [[p1 v1]|] eqn:H1; [|discriminate].
  simpl in H.
  destruct (Get1Parament s p1) as [[p2 v2]|] eqn:H2; [|discriminate].
  simpl in H.
  destruct (Get1Parament s p2) as [[p3 v3]|] eqn:H3; [|discriminate].
  simpl in H.
  destruct (Get1Parament s p3) as [[p4 v4]|] eqn:H4; [|discriminate].
  simpl in H. inversion H; subst.
  apply Get1Parament_advances in H1, H2, H3, H4; auto. lia.
Qed.

Lemma GetParaments_advances n s : forall ptr p args,
  block_ok s -> GetParaments n s ptr = Some (p, args) ->
  length args = n /\
  (ptr = p \/ ptr < p <= bytecode_begin s + Z.of_nat (length (image s))).
Proof.
  induction n as [|n IH]; intros ptr p args Hok H; simpl in H.
  - inversion H. auto.
  - destruct (Get1Parament s ptr) as [[p1 v1]|] eqn:H1; [|discriminate].
    simpl in H.
    destruct (GetParaments n s p1) as [[p2 vs]|] eqn:H2; [|discriminate].
    simpl in H. inversion H; subst.
    apply Get1Parament_advances in H1; auto.
    destruct (IH _ _ _ Hok H2) as [Hlen Hp]. simpl. split; [lia|]. lia.
Qed.

Lemma GetUnknownCountParament_advances s ptr p func ret args :
  block_ok s -> GetUnknownCountParament s ptr = Some (p, func, ret, args) ->
  ptr < p <= bytecode_begin s + Z.of_nat (length (image s)).
Proof.
  intros Hok H. unfold GetUnknownCountParament in H.
  destruct (Get1Parament s ptr) as [[p1 v1]|] eqn:H1; [|discriminate].
  simpl in H.
  destruct (Get1Parament s p1) as [[p2 v2]|] eqn:H2; [|discriminate].
  simpl in H.
  destruct (Get1Parament s p2) as [[p3 v3]|] eqn:H3; [|discriminate].
  simpl in H.
  destruct (GetLongData s v3) as [n|]; [|discriminate]. simpl in H.
  destruct (_ <? _); [discriminate|].
  destruct (GetParaments _ s p3) as [[p4 vs]|] eqn:H4; [|discriminate].
  simpl in H. inversion H; subst.
  apply Get1Parament_advances in H1, H2, H3; auto.
  destruct (GetParaments_advances _ _ _ _ _ Hok H4) as [_ Hp]. lia.
Qed.

Lemma byte_at_in_block s a b :
  byte_at s a = Some b ->
  0 <= a - bytecode_begin s < Z.of_nat (length (image s)).
Proof.
  unfold byte_at. intros H.
  destruct (offset_of s a 1) as [i|] eqn:Hi; [|discriminate].
  apply offset_of_Some in Hi. lia.
Qed.

(** Fetching any instruction the dispatch knows moves the pointer forward,
    and not beyond the end of the block. *)
Lemma fetch_advances m i p :
  block_ok (state m) -> fetch m = Some (i, p) -> i <> iDefault ->
  bytecode_file m < p
  <= bytecode_begin (state m) + Z.of_nat (length (image (state m))).
Proof.
  intros Hok H Hi. unfold fetch in H.
  destruct (byte_at (state m) (bytecode_file m)) as [op|] eqn:Hop;
    [|discriminate].
  simpl in H. apply byte_at_in_block in Hop.
  assert (Hn : to_size_t (bytecode_file m + 1) = bytecode_file m + 1).
  { destruct Hok. apply to_size_t_small. lia. }
  rewrite Hn in H.
  repeat case_match; try (inversion H; subst; (congruence || lia)).
  all: match type of H with
       | (?g ≫= _) = Some _ => destruct g as [r|] eqn:Hg; [|discriminate]
       end.
  all: simpl in H; repeat match goal with r : (_ * _)%type |- _ => destruct r end.
  all: inversion H; subst.
  all: first [ apply Get1Parament_advances in Hg
             | apply Get2Parament_advances in Hg
             | apply Get3Parament_advances in Hg
             | apply Get4Parament_advances in Hg
             | apply GetUnknownCountParament_advances in Hg ]; auto; lia.
Qed.

Lemma execute_registers fresh m i p m' :
  execute fresh m i p = Some m' ->
  bytecode_end m' = bytecode_end m /\ run_code m' = run_code m /\
  (jumps_or_stays i = false -> bytecode_file m' = p).
Proof.
  intros H. destruct i; simpl in H;
    match type of H with
    | (?g ≫= _) = Some _ => destruct g; [|discriminate]; simpl in H
    | _ => idtac
    end;
    inversion H; subst; simpl; repeat split; auto; discriminate.
Qed.

Lemma execute_block_ok fresh m i p m' :
  execute fresh m i p = Some m' -> block_ok (state m) -> block_ok (state m').
Proof.
  intros H [Hb He].
  destruct (footprint_sound _ _ _ _ _ H) as (a & n & _ & (Eb & _ & El & _)).
  unfold block_ok. rewrite Eb, El. auto.
Qed.

(** X12. An iteration that executes neither GOTO nor an unknown byte leaves the
    program counter strictly further on, at most at the end of the block;
    IF is among them. *)
Theorem step_advances fresh m i p m' :
  block_ok (state m) ->
  fetch m = Some (i, p) -> jumps_or_stays i = false ->
  step fresh m = Some m' ->
  bytecode_file m < bytecode_file m'
  <= bytecode_begin (state m) + Z.of_nat (length (image (state m))) /\
  bytecode_end m' = bytecode_end m.
Proof.
  intros Hok Hf Hj H. unfold step in H. rewrite Hf in H. simpl in H.
  destruct (execute_registers _ _ _ _ _ H) as (He & _ & Hp).
  rewrite (Hp Hj). split; [|exact He].
  apply (fetch_advances m i p Hok Hf). intros ->. discriminate.
Qed.

Lemma step_advances_witness :
  bytecode_file Example1.if_before < bytecode_file Example1.if_after
  <= bytecode_begin (state Example1.if_before)
     + Z.of_nat (length (image (state Example1.if_before))) /\
  bytecode_end Example1.if_after = bytecode_end Example1.if_before.
Proof.
  apply (step_advances 0 Example1.if_before (iIF 0 1 9) 4144);
    [unfold block_ok; simpl; lia|vm_compute; reflexivity|reflexivity
    |vm_compute; reflexivity].
Defined.

(** X13. A run in which no iteration executes GOTO or an unknown byte ends,
    by reaching the end of the code or by a fault, within as many
    iterations as there are bytes between the program counter and the end
    of the code. *)
Theorem straight_line_terminates host : forall m,
  block_ok (state m) -> straight_line host m ->
  bytecode_end m - bytecode_file m <= Z.of_nat (length host) ->
  run host m = Crashed \/ exists m', run host m = Finished m'.
Proof.
  induction host as [|fresh host IH]; intros m Hok Hs Hlen; simpl in *.
  - destruct (Z.ltb_spec (bytecode_file m) (bytecode_end m)); [lia|eauto].
  - destruct (Z.ltb_spec (bytecode_file m) (bytecode_end m)); [|eauto].
    unfold step. destruct (fetch m) as [[i p]|] eqn:Hf; simpl; [|auto].
    destruct Hs as [Hj Hs].
    destruct (execute fresh m i p) as [m1|] eqn:He; [|auto].
    destruct (execute_registers _ _ _ _ _ He) as (Hend & _ & Hp).
    specialize (Hp Hj).
    assert (Hadv := fetch_advances m i p Hok Hf ltac:(intros ->; discriminate)).
    apply IH; [eapply execute_block_ok; eauto|exact Hs|lia].
Qed.

Lemma straight_line_terminates_witness :
  run (replicate 5 0) Example2.ret_boot = Crashed \/
  exists m', run (replicate 5 0) Example2.ret_boot = Finished m'.
Proof.
  apply (straight_line_terminates (replicate 5 0) Example2.ret_boot);
    [unfold block_ok; simpl; lia
    |vm_compute; repeat split
    |vm_compute; discriminate].
Defined.

Lemma fetch_unknown m op :
  byte_at (state m) (bytecode_file m) = Some op ->
  ~ (0 <= op <= 0x17) -> op <> 0xFF ->
  fetch m = Some (iDefault, bytecode_file m).
Proof.
  intros Hop H1 H2. unfold fetch. rewrite Hop. simpl.
  repeat case_match; try reflexivity; lia.
Qed.

(** X14. A byte that is no opcode (not 0x00 .. 0x17 and not 0xFF) where the
    program counter is stops the program for good: each iteration leaves the
    machine as it is, so the loop is still running after any number of
    them. *)
Theorem unknown_opcode_never_ends host m op :
  bytecode_file m < bytecode_end m ->
  byte_at (state m) (bytecode_file m) = Some op ->
  ~ (0 <= op <= 0x17) -> op <> 0xFF ->
  run host m = Running m /\ forall fresh, step fresh m = Some m.
Proof.
  intros Hlt Hop H1 H2. pose proof (fetch_unknown m op Hop H1 H2) as Hf.
  split; [apply default_never_finishes; assumption|].
  intros fresh. apply default_stalls. exact Hf.
Qed.

Lemma unknown_opcode_never_ends_witness :
  run (replicate 100 0) Example9.stuck_1 = Running Example9.stuck_1 /\
  forall fresh, step fresh Example9.stuck_1 = Some Example9.stuck_1.
Proof.
  apply (unknown_opcode_never_ends (replicate 100 0) Example9.stuck_1 0x18);
    [vm_compute; reflexivity|vm_compute; reflexivity|lia|lia].
Defined.

(** ** The name table *)

Lemma hash_loop_app str : forall c h,
  NameTable.hash_loop (str ++ [c]) h
  = to_size_t (to_size_t (to_size_t (Z.shiftl (NameTable.hash_loop str h) 5)
                          + NameTable.hash_loop str h) + to_int8 c).
Proof.
  induction str as [|x str IH]; intros c h; simpl; [reflexivity|].
  apply IH.
Qed.

Lemma to_size_t_congr z : exists q, to_size_t z = z + 1024 * q.
Proof.
  exists (- (2 ^ 54 * (z / 2 ^ 64))). unfold to_size_t, wrap.
  pose proof (Z.div_mod z (2 ^ 64) ltac:(lia)) as E.
  change (2 ^ 64) with (1024 * 2 ^ 54) in *. lia.
Qed.

(** X15. [hash] gives an index of the 1024-entry table, and can be computed a
    character at a time on the residues modulo 1024: the wrap-around of the
    [unsigned long] accumulator never shows in the result. *)
Theorem hash_step str c :
  0 <= NameTable.hash str < 1024 /\
  NameTable.hash (str ++ [c])
  = (33 * NameTable.hash str + to_int8 c) mod 1024.
Proof.
  unfold NameTable.hash. split; [apply Z.mod_pos_bound; lia|].
  rewrite hash_loop_app. set (h := NameTable.hash_loop str 5381).
  rewrite Z.shiftl_mul_pow2 by lia. change (2 ^ 5) with 32.
  destruct (to_size_t_congr (h * 32)) as [q1 ->].
  destruct (to_size_t_congr (h * 32 + 1024 * q1 + h)) as [q2 ->].
  destruct (to_size_t_congr (h * 32 + 1024 * q1 + h + 1024 * q2 + to_int8 c))
    as [q3 ->].
  pose proof (Z.div_mod h 1024 ltac:(lia)) as E.
  replace (h * 32 + 1024 * q1 + h + 1024 * q2 + to_int8 c + 1024 * q3)
    with (33 * (h mod 1024) + to_int8 c + (q1 + q2 + q3 + 33 * (h / 1024)) * 1024)
    by lia.
  apply Z.mod_add. lia.
Qed.

Lemma hash_print_name : NameTable.hash NameTable.print_name = 274.
Proof. vm_compute. reflexivity. Qed.

(** X16. [InitializeNameTable] on the zeroed table returns, and in the table it
    leaves [GetFunction] finds [print] under its name and, for every other
    name, reads through an invalid pointer: the null [pair.first] of an
    empty bucket, or the uninitialised node after [print]. No lookup
    returns the null function. The function INVOKE calls is the one found
    where the lookup is valid. *)
Theorem name_table_lookup :
  exists table,
    NameTable.InitializeNameTable NameTable.name_table = Some table /\
    forall name,
      NameTable.GetFunction_in table name
      = (if decide (name = NameTable.print_name)
         then NameTable.Found (Some print) else NameTable.Invalid) /\
      GetFunction name
      = match NameTable.GetFunction_in table name with
        | NameTable.Found f => f
        | _ => None
        end.
Proof.
  unfold NameTable.InitializeNameTable. rewrite hash_print_name.
  eexists. split.
  - unfold NameTable.name_table.
    rewrite lookup_replicate_2 by (vm_compute; lia). reflexivity.
  - intros name.
    match goal with |- ?l = ?r /\ _ => assert (E : l = r) end.
    + unfold NameTable.GetFunction_in.
      assert (Hr : 0 <= NameTable.hash name < 1024)
        by (apply Z.mod_pos_bound; lia).
      destruct (decide (name = NameTable.print_name)) as [->|Hne].
      * rewrite hash_print_name.
        rewrite list_lookup_insert_eq
          by (unfold NameTable.name_table; rewrite length_replicate; lia).
        cbn [NameTable.GetFunction_loop]. case_decide; [reflexivity|congruence].
      * destruct (decide (Z.to_nat (NameTable.hash name) = Z.to_nat 274))
          as [E|E].
        -- rewrite E.
           rewrite list_lookup_insert_eq
             by (unfold NameTable.name_table; rewrite length_replicate; lia).
           cbn [NameTable.GetFunction_loop].
           case_decide; [congruence|reflexivity].
        -- rewrite list_lookup_insert_ne by congruence.
           unfold NameTable.name_table.
           rewrite lookup_replicate_2 by lia. reflexivity.
    + split; [exact E|]. rewrite E. unfold GetFunction.
      change [112; 114; 105; 110; 116] with NameTable.print_name.
      destruct (decide (name = NameTable.print_name)); reflexivity.
Qed.

(** ** The loader *)

Lemma orelse_false a b : orelse a b = Some false <-> a = Some false /\ b = Some false.
Proof.
  destruct a as [[|]|], b as [[|]|]; simpl; split; intros; try tauto;
    try discriminate; destruct H; discriminate.
Qed.

(** X17. The loader enters the loop exactly for the files of at least 16
    bytes that begin with the four bytes 41 51 42 43 and hold the eight bytes
    at the start of the type array, which the loader reads for its
    diagnostic: those at the file offsets 16 + [memory_size] and on. It
    reports a bad magic number exactly when, reading the four bytes in
    turn, it meets one that differs; it then never looks at the length. *)
Theorem load_outcome b file :
  ((exists m, load b file = Loaded m) <->
   take 4 file = [0x41; 0x51; 0x42; 0x43] /\
   16 <= Z.of_nat (length file) /\
   let type_ :=
     to_size_t (to_size_t (to_size_t (b + 8) + 8)
                + be_decode (take 8 (drop 8 file))) in
   0 <= type_ - b /\ type_ - b + 8 <= Z.of_nat (length file)) /\
  (load b file = BadMagic <->
   exists (k : nat) x,
     (k < 4)%nat /\ take k file = take k [0x41; 0x51; 0x42; 0x43] /\
     file !! k = Some x /\ [0x41; 0x51; 0x42; 0x43] !! k <> Some x).
Proof.
  split; unfold load.
  all: set (r := orelse _ _).
  all: assert (Hr : (r = Some false <-> take 4 file = [0x41; 0x51; 0x42; 0x43]) /\
                    (r = Some true <->
                     exists (k : nat) x,
                       (k < 4)%nat /\
                       take k file = take k [0x41; 0x51; 0x42; 0x43] /\
                       file !! k = Some x /\
                       [0x41; 0x51; 0x42; 0x43] !! k <> Some x)).
  1, 3: subst r;
    destruct file as [|c0 [|c1 [|c2 [|c3 rest]]]];
    cbn [lookup list_lookup mbind option_bind orelse negb];
    repeat match goal with
           | |- context [?c =? ?k] => destruct (Z.eqb_spec c k)
           end;
    cbn [negb orelse mbind option_bind]; (split; split);
    try (intros Hd; discriminate Hd);
    try (intros _; subst; reflexivity);
    try (intros Hd; inversion Hd; subst; congruence);
    try (intros (k & x & Hk & Ht & Hx & Hne);
         destruct k as [|[|[|[|k]]]]; try lia; simpl in Ht, Hx, Hne;
         try discriminate; inversion Ht; inversion Hx; subst;
         first [reflexivity | congruence]);
    intros _;
    first [ exists 0%nat; eexists; repeat split;
            first [lia | reflexivity | simpl; congruence]
          | exists 1%nat; eexists; repeat split;
            first [lia | reflexivity | simpl; congruence]
          | exists 2%nat; eexists; repeat split;
            first [lia | reflexivity | simpl; congruence]
          | exists 3%nat; eexists; repeat split;
            first [lia | reflexivity | simpl; congruence] ].
  - destruct Hr as [Hf _]. split.
    + intros [m H]. destruct r as [[|]|]; try discriminate H.
      destruct (Z.ltb_spec (Z.of_nat (length file)) 16); [discriminate H|].
      match type of H with
      | match load_bytes ?s ?t 8 with _ => _ end = _ =>
          destruct (load_bytes s t 8) eqn:E; [|discriminate H]
      end.
      split; [apply Hf; reflexivity|]. split; [assumption|].
      unfold load_bytes in E.
      match type of E with
      | (offset_of ?s ?t ?n ≫= _) = _ =>
          destruct (offset_of s t n) eqn:Eo; [|discriminate E]
      end.
      apply offset_of_Some in Eo. cbn [bytecode_begin image] in Eo.
      cbv zeta. lia.
    + intros (Hm & Hl & Ht0 & Ht1). apply Hf in Hm. rewrite Hm.
      destruct (Z.ltb_spec (Z.of_nat (length file)) 16); [lia|].
      unfold load_bytes, offset_of. cbn [bytecode_begin image].
      rewrite (proj2 (Z.leb_le 0 _) Ht0).
      rewrite (proj2 (Z.leb_le _ _)) by (change (Z.of_nat 8) with 8; exact Ht1).
      cbn [andb mbind option_bind]. eexists. reflexivity.
  - destruct Hr as [_ Ht]. rewrite <- Ht.
    destruct r as [[|]|]; split; try discriminate; try reflexivity;
      try (intros H; exfalso; revert H);
      destruct (Z.of_nat (length file) <? 16); try discriminate;
      match goal with
      | |- context [load_bytes ?s ?t 8] => destruct (load_bytes s t 8)
      end; discriminate.
Qed.

(** ** The handlers on particular tags *)

Lemma switch_untyped n s r rhs t :
  GetType s r = Some t -> ~ (1 <= t <= 5) -> n <= 5 ->
  switch n s r rhs = Some s.
Proof.
  intros Ht Hn Hle. unfold switch. rewrite Ht. simpl.
  destruct (Z.leb_spec 1 t), (Z.leb_spec t n); simpl; try reflexivity. lia.
Qed.

Lemma ifelse_same {A} (c : bool) (x : option A) : ifelse (Some c) x x = x.
Proof. destruct c; reflexivity. Qed.

(** X18. With a destination that has none of the five scalar tags, every
    arithmetic, bitwise and comparison handler returns with memory as it
    was once the tags of its slots are read: no operand value is read, so a
    division by zero, a shift out of range or an unconvertible operand is
    not met. *)
Theorem alu_untyped_destination s r a b t ta tb :
  GetType s r = Some t -> ~ (1 <= t <= 5) ->
  GetType s a = Some ta -> GetType s b = Some tb ->
  ADD s r a b = Some s /\ SUB s r a b = Some s /\ MUL s r a b = Some s /\
  DIV s r a b = Some s /\ REM s r a b = Some s /\ NEG s r a = Some s /\
  SHL s r a b = Some s /\ SHR s r a b = Some s /\ SAR s r a b = Some s /\
  AND s r a b = Some s /\ OR s r a b = Some s /\ XOR s r a b = Some s /\
  (forall opcode, GetByteData s opcode <> None -> CMP s r opcode a b = Some s).
Proof.
  intros Ht Hn Ha Hb.
  assert (T3 := fun k => tier3_Some s k r a b t ta tb Ht Ha Hb).
  assert (T2 := fun k => tier2_Some s k r a t ta Ht Ha).
  assert (Sw := fun n rhs (H : n <= 5) => switch_untyped n s r rhs t Ht Hn H).
  repeat split.
  13: { intros opcode Ho. unfold CMP.
        destruct (GetByteData s opcode) as [o|]; [|congruence]. simpl.
        repeat case_match; try reflexivity;
          rewrite !T3, !Sw by lia;
          rewrite !ifelse_same; reflexivity. }
  all: unfold ADD, SUB, MUL, DIV, REM, NEG, SHL, SHR, SAR, AND, OR, XOR;
    rewrite ?T3, ?T2, !Sw by lia; rewrite !ifelse_same; reflexivity.
Qed.

Lemma alu_untyped_destination_witness :
  ADD (state Example.add_before) 1 0 4 = Some (state Example.add_before) /\
  SUB (state Example.add_before) 1 0 4 = Some (state Example.add_before) /\
  MUL (state Example.add_before) 1 0 4 = Some (state Example.add_before) /\
  DIV (state Example.add_before) 1 0 4 = Some (state Example.add_before) /\
  REM (state Example.add_before) 1 0 4 = Some (state Example.add_before) /\
  NEG (state Example.add_before) 1 0 = Some (state Example.add_before) /\
  SHL (state Example.add_before) 1 0 4 = Some (state Example.add_before) /\
  SHR (state Example.add_before) 1 0 4 = Some (state Example.add_before) /\
  SAR (state Example.add_before) 1 0 4 = Some (state Example.add_before) /\
  AND (state Example.add_before) 1 0 4 = Some (state Example.add_before) /\
  OR (state Example.add_before) 1 0 4 = Some (state Example.add_before) /\
  XOR (state Example.add_before) 1 0 4 = Some (state Example.add_before) /\
  (forall opcode, GetByteData (state Example.add_before) opcode <> None ->
     CMP (state Example.add_before) 1 opcode 0 4
     = Some (state Example.add_before)).
Proof.
  apply (alu_untyped_destination (state Example.add_before) 1 0 4 0 2 2);
    [vm_compute; reflexivity|lia|vm_compute; reflexivity|vm_compute; reflexivity].
Defined.

Lemma store_bytes_succeeds s a n bs bs' :
  load_bytes s a n = Some bs -> length bs' = n ->
  exists s', store_bytes s a bs' = Some s'.
Proof.
  unfold load_bytes, store_bytes. intros H <-.
  destruct (offset_of s a (Z.of_nat (length bs'))); [|discriminate].
  simpl. eauto.
Qed.

(** An [int] stored by the [int] tier to an [int] slot of the data segment
    whose bytes are in the block. *)
Lemma switch_int_slot s r z v :
  layout s -> 0 <= r -> r + 4 <= size (memory s) ->
  GetType s r = Some 2 -> GetIntData s r = Some z ->
  exists s', switch 2 s r (Some (I v)) = Some s' /\
             GetIntData s' r = Some (to_int v).
Proof.
  intros Hl Hr Hle Ht Hz.
  assert (Hld : exists bs, load_bytes s (slot_addr s r) 4 = Some bs).
  { unfold GetIntData, read_int in Hz. rewrite Ht in Hz. simpl in Hz.
    destruct (load_bytes s (slot_addr s r) 4); [eauto|discriminate]. }
  destruct Hld as [bs Hld].
  destruct (store_bytes_succeeds s _ 4 bs (le_encode 4 (to_int v)) Hld
              (length_le_encode _ _)) as [s' Hs'].
  assert (Hsw : switch 2 s r (Some (I v)) = Some s').
  { unfold switch. rewrite Ht. exact Hs'. }
  exists s'. split; [exact Hsw|].
  destruct (switch_then_read 2 s r v 2 s' Hl Hr Hle Ht ltac:(lia) ltac:(lia) Hsw)
    as [Ht' Hlong].
  unfold GetLongData in Hlong. unfold GetIntData.
  rewrite Ht' in *. simpl in *.
  destruct (read_int s' (slot_addr s' r)) as [w|]; [|discriminate].
  simpl in *. inversion Hlong as [E]. f_equal.
  change (8 * 4) with 32 in E. fold (to_int v) in E.
  unfold to_int, to_long in *.
  rewrite <- (sext_divides 32 64 w) by lia. rewrite E.
  apply sext_idem. lia.
Qed.

(** X19. On three [int] slots, the destination in the data segment, the total
    operations return, and the destination then holds the result computed
    on the two operand values and wrapped to 32 bits. *)
Theorem int_arithmetic s r a b z x y :
  layout s -> 0 <= r -> r + 4 <= size (memory s) ->
  GetType s r = Some 2 -> GetType s a = Some 2 -> GetType s b = Some 2 ->
  GetIntData s r = Some z -> GetIntData s a = Some x -> GetIntData s b = Some y ->
  (exists s', ADD s r a b = Some s' /\ GetIntData s' r = Some (to_int (x + y))) /\
  (exists s', SUB s r a b = Some s' /\ GetIntData s' r = Some (to_int (x - y))) /\
  (exists s', MUL s r a b = Some s' /\ GetIntData s' r = Some (to_int (x * y))) /\
  (exists s', NEG s r a = Some s' /\ GetIntData s' r = Some (to_int (- x))) /\
  (exists s', AND s r a b = Some s' /\ GetIntData s' r = Some (to_int (Z.land x y))) /\
  (exists s', OR s r a b = Some s' /\ GetIntData s' r = Some (to_int (Z.lor x y))) /\
  (exists s', XOR s r a b = Some s' /\ GetIntData s' r = Some (to_int (Z.lxor x y))).
Proof.
  intros Hl Hr Hle Ht Ha Hb Hz Hx Hy.
  assert (T3 := fun k => tier3_Some s k r a b 2 2 2 Ht Ha Hb).
  assert (T2 := fun k => tier2_Some s k r a 2 2 Ht Ha).
  assert (W := fun v => switch_int_slot s r z v Hl Hr Hle Ht Hz).
  unfold ADD, SUB, MUL, NEG, AND, OR, XOR.
  rewrite ?T3, ?T2. unfold ifelse, binop, unop. simpl.
  rewrite Hx, Hy. simpl.
  unfold int_add, int_sub, int_mul, int_neg, int_and, int_or, int_xor.
  repeat split.
  - destruct (W (to_int (x + y))) as (s' & H1 & H2). exists s'.
    rewrite H2. unfold to_int. rewrite sext_idem by lia. auto.
  - destruct (W (to_int (x - y))) as (s' & H1 & H2). exists s'.
    rewrite H2. unfold to_int. rewrite sext_idem by lia. auto.
  - destruct (W (to_int (x * y))) as (s' & H1 & H2). exists s'.
    rewrite H2. unfold to_int. rewrite sext_idem by lia. auto.
  - destruct (W (to_int (- x))) as (s' & H1 & H2). exists s'.
    rewrite H2. unfold to_int. rewrite sext_idem by lia. auto.
  - apply W.
  - apply W.
  - apply W.
Qed.

Lemma int_arithmetic_witness :
  (exists s', ADD (state Example.add_before) 8 0 4 = Some s' /\
              GetIntData s' 8 = Some (to_int (3 + 4))) /\
  (exists s', SUB (state Example.add_before) 8 0 4 = Some s' /\
              GetIntData s' 8 = Some (to_int (3 - 4))) /\
  (exists s', MUL (state Example.add_before) 8 0 4 = Some s' /\
              GetIntData s' 8 = Some (to_int (3 * 4))) /\
  (exists s', NEG (state Example.add_before) 8 0 = Some s' /\
              GetIntData s' 8 = Some (to_int (- 3))) /\
  (exists s', AND (state Example.add_before) 8 0 4 = Some s' /\
              GetIntData s' 8 = Some (to_int (Z.land 3 4))) /\
  (exists s', OR (state Example.add_before) 8 0 4 = Some s' /\
              GetIntData s' 8 = Some (to_int (Z.lor 3 4))) /\
  (exists s', XOR (state Example.add_before) 8 0 4 = Some s' /\
              GetIntData s' 8 = Some (to_int (Z.lxor 3 4))).
Proof.
  apply (int_arithmetic (state Example.add_before) 8 0 4 0 3 4);
    [unfold layout; simpl; repeat split; lia|lia|simpl; lia
    |vm_compute; reflexivity|vm_compute; reflexivity|vm_compute; reflexivity
    |vm_compute; reflexivity|vm_compute; reflexivity|vm_compute; reflexivity].
Defined.

(** X20. CMP on three [int] slots, the destination in the data segment, with a
    comparison code 0 .. 5 in the slot [opcode]: the handler returns and the
    destination holds 1 if the relation the code selects (equal, different,
    less, at most, greater, at least) holds between the operands, else 0. *)
Theorem CMP_int s r opcode a b o z x y :
  layout s -> 0 <= r -> r + 4 <= size (memory s) ->
  GetType s r = Some 2 -> GetType s a = Some 2 -> GetType s b = Some 2 ->
  GetByteData s opcode = Some o -> 0 <= o <= 5 ->
  GetIntData s r = Some z -> GetIntData s a = Some x -> GetIntData s b = Some y ->
  exists s',
    CMP s r opcode a b = Some s' /\
    GetIntData s' r
    = Some (Z.b2z match o with
                  | 0 => x =? y
                  | 1 => negb (x =? y)
                  | 2 => x <? y
                  | 3 => x <=? y
                  | 4 => x >? y
                  | _ => x >=? y
                  end).
Proof.
  intros Hl Hr Hle Ht Ha Hb Ho Ho5 Hz Hx Hy.
  assert (T3 := fun k => tier3_Some s k r a b 2 2 2 Ht Ha Hb).
  assert (W : forall c : bool,
             exists s', switch 2 s r (Some (I (Z.b2z c))) = Some s' /\
                        GetIntData s' r = Some (Z.b2z c)).
  { intros c. destruct (switch_int_slot s r z (Z.b2z c) Hl Hr Hle Ht Hz)
      as (s' & H1 & H2).
    exists s'. split; [exact H1|]. rewrite H2. destruct c; reflexivity. }
  unfold CMP. rewrite Ho. simpl.
  assert (Hc : o = 0 \/ o = 1 \/ o = 2 \/ o = 3 \/ o = 4 \/ o = 5) by lia.
  destruct Hc as [->|[->|[->|[->|[->| ->]]]]];
    rewrite !T3; unfold ifelse, binop; simpl; rewrite Hx, Hy; simpl; apply W.
Qed.

Lemma CMP_int_witness :
  exists s',
    CMP (state Example.add_before) 8 9 0 4 = Some s' /\
    GetIntData s' 8 = Some (Z.b2z (3 =? 4)).
Proof.
  apply (CMP_int (state Example.add_before) 8 9 0 4 0 0 3 4);
    [unfold layout; simpl; repeat split; lia|lia|simpl; lia
    |vm_compute; reflexivity|vm_compute; reflexivity|vm_compute; reflexivity
    |vm_compute; reflexivity|lia
    |vm_compute; reflexivity|vm_compute; reflexivity|vm_compute; reflexivity].
Defined.

(** ** Whole runs and call frames *)

Lemma goto_same m : goto m (state m) (bytecode_file m) = m.
Proof. destruct m. reflexivity. Qed.

Lemma step_no_op fresh m op :
  block_ok (state m) ->
  byte_at (state m) (bytecode_file m) = Some op ->
  op = 0x00 \/ op = 0x15 \/ op = 0x17 \/ op = 0xFF ->
  step fresh m = Some (goto m (state m) (bytecode_file m + 1)).
Proof.
  intros [Hb He] Hop Hcase. unfold step, fetch. rewrite Hop.
  apply byte_at_in_block in Hop.
  rewrite (to_size_t_small (bytecode_file m + 1)) by lia.
  destruct Hcase as [->|[->|[->| ->]]]; reflexivity.
Qed.

(** X21. Code made of the bytes 0x00, 0x15, 0x17 and 0xFF only (NOP, RETURN,
    THROW, WIDE) runs to the end of the code, one byte an iteration, and
    leaves everything but the program counter as it was. *)
Theorem no_op_code_runs_through host : forall m,
  block_ok (state m) ->
  bytecode_file m <= bytecode_end m ->
  (forall a, bytecode_file m <= a < bytecode_end m ->
     exists op, byte_at (state m) a = Some op /\
                (op = 0x00 \/ op = 0x15 \/ op = 0x17 \/ op = 0xFF)) ->
  bytecode_end m - bytecode_file m <= Z.of_nat (length host) ->
  run host m = Finished (goto m (state m) (bytecode_end m)).
Proof.
  induction host as [|fresh host IH]; intros m Hok Hle Hcode Hlen;
    simpl in Hlen |- *.
  - destruct (Z.ltb_spec (bytecode_file m) (bytecode_end m)); [lia|].
    replace (bytecode_end m) with (bytecode_file m) by lia.
    rewrite goto_same. reflexivity.
  - destruct (Z.ltb_spec (bytecode_file m) (bytecode_end m)).
    + destruct (Hcode (bytecode_file m) ltac:(lia)) as (op & Hop & Hcase).
      rewrite (step_no_op fresh m op Hok Hop Hcase).
      rewrite IH; simpl; try assumption; try lia; [reflexivity|].
      intros a Ha. apply Hcode. lia.
    + replace (bytecode_end m) with (bytecode_file m) by lia.
      rewrite goto_same. reflexivity.
Qed.

Lemma no_op_code_runs_through_witness :
  run (replicate 4 0) Example9.quiet_boot
  = Finished (goto Example9.quiet_boot (state Example9.quiet_boot)
                (bytecode_end Example9.quiet_boot)).
Proof.
  apply (no_op_code_runs_through (replicate 4 0) Example9.quiet_boot);
    [unfold block_ok; simpl; lia|simpl; lia| |simpl; lia].
  intros a Ha. simpl in Ha.
  assert (a = 4124 \/ a = 4125 \/ a = 4126 \/ a = 4127) as [->|[->|[->| ->]]]
    by lia;
    eexists; (split; [vm_compute; reflexivity|auto]).
Defined.

Lemma GetParaments_count n s : forall ptr p args,
  block_ok s -> GetParaments n s ptr = Some (p, args) ->
  length args = n /\ ptr + Z.of_nat n <= p /\
  (p = ptr \/ p <= bytecode_begin s + Z.of_nat (length (image s))).
Proof.
  induction n as [|n IH]; intros ptr p args Hok H; simpl in H.
  - inversion H. simpl. split; [reflexivity|]. split; [lia|auto].
  - destruct (Get1Parament s ptr) as [[p1 v1]|] eqn:H1; [|discriminate].
    simpl in H.
    destruct (GetParaments n s p1) as [[p2 vs]|] eqn:H2; [|discriminate].
    simpl in H. inversion H; subst.
    apply Get1Parament_advances in H1; auto.
    destruct (IH _ _ _ Hok H2) as (Hlen & Hp & Hend). simpl length.
    split; [lia|]. split; [lia|]. right. lia.
Qed.

(** X22. The call frame of INVOKE has as many argument operands as the [long]
    in the slot named by its third operand says, read as a [size_t]; with
    the three leading operands they take at least one byte each, inside the
    block. *)
Theorem INVOKE_frame s ptr p func ret args :
  block_ok s ->
  GetUnknownCountParament s ptr = Some (p, func, ret, args) ->
  exists q arg_count n,
    Get3Parament s ptr = Some (q, func, ret, arg_count) /\
    GetLongData s arg_count = Some n /\
    Z.of_nat (length args) = to_size_t n /\
    ptr + 3 + Z.of_nat (length args) <= p
    <= bytecode_begin s + Z.of_nat (length (image s)).
Proof.
  intros Hok H. unfold GetUnknownCountParament in H. unfold Get3Parament.
  destruct (Get1Parament s ptr) as [[p1 v1]|] eqn:H1; [|discriminate].
  simpl in H |- *.
  destruct (Get1Parament s p1) as [[p2 v2]|] eqn:H2; [|discriminate].
  simpl in H |- *.
  destruct (Get1Parament s p2) as [[p3 v3]|] eqn:H3; [|discriminate].
  simpl in H |- *.
  destruct (GetLongData s v3) as [n|] eqn:Hn; [|discriminate]. simpl in H.
  destruct (_ <? _); [discriminate|].
  destruct (GetParaments _ s p3) as [[p4 vs]|] eqn:H4; [|discriminate].
  simpl in H. inversion H; subst.
  apply Get1Parament_advances in H1, H2, H3; auto.
  destruct (GetParaments_count _ _ _ _ _ Hok H4) as (Hlen & Hp & Hend).
  exists p3, v3, n. repeat split; auto.
  - rewrite Hlen. apply Z2Nat.id. unfold to_size_t, wrap.
    apply Z.mod_pos_bound. lia.
  - rewrite Hlen in *. lia.
  - lia.
Qed.

Lemma INVOKE_frame_witness :
  exists q arg_count n,
    Get3Parament (state Example9.invoke_before) 4170
    = Some (q, 0, 16, arg_count) /\
    GetLongData (state Example9.invoke_before) arg_count = Some n /\
    Z.of_nat (length [8]) = to_size_t n /\
    4170 + 3 + Z.of_nat (length [8]) <= 4174
    <= bytecode_begin (state Example9.invoke_before)
       + Z.of_nat (length (image (state Example9.invoke_before))).
Proof.
  apply (INVOKE_frame (state Example9.invoke_before) 4170 4174 0 16 [8]);
    [unfold block_ok; simpl; lia|vm_compute; reflexivity].
Defined.

Lemma printf_count_plain fmt :
  37 ∉ fmt -> printf_count fmt = Some (Z.of_nat (length fmt)).
Proof.
  induction fmt as [|c fmt IH]; intros Hn; [reflexivity|].
  assert (Hc : c <> 37) by (intros ->; apply Hn; left).
  assert (Hf : 37 ∉ fmt) by (intros H; apply Hn; right; exact H).
  assert (E : printf_count (c :: fmt) = n ← printf_count fmt; Some (n + 1)).
  { simpl. repeat case_match; try reflexivity; subst; lia. }
  rewrite E, (IH Hf). simpl. f_equal. lia.
Qed.

(** X23. INVOKE of the name "print" with a format string that holds no [%]
    stores the length of the string, as an [int], at the return slot; the
    arguments after the first are not looked at. *)
Theorem INVOKE_print s func ret a args p q fmt :
  GetPtrData s func = Some p ->
  c_string (bytes_from s p) = Some [112; 114; 105; 110; 116] ->
  GetPtrData s a = Some q ->
  c_string (bytes_from s q) = Some fmt -> 37 ∉ fmt ->
  INVOKE s func [ret] (a :: args)
  = SetIntData s ret (to_int (Z.of_nat (length fmt))).
Proof.
  intros Hp Hname Hq Hfmt Hplain. unfold INVOKE. rewrite Hp. simpl.
  rewrite Hname. simpl.
  unfold print. simpl. rewrite Hq. simpl. rewrite Hfmt. simpl.
  rewrite (printf_count_plain fmt Hplain). reflexivity.
Qed.

Lemma INVOKE_print_witness :
  INVOKE (state Example9.invoke_before) 0 [16] [8]
  = SetIntData (state Example9.invoke_before) 16
      (to_int (Z.of_nat (length [104; 105]))).
Proof.
  apply (INVOKE_print (state Example9.invoke_before) 0 16 8 [] 4140 4146);
    [vm_compute; reflexivity|vm_compute; reflexivity|vm_compute; reflexivity
    |vm_compute; reflexivity|].
  intros H. apply elem_of_cons in H. destruct H as [H|H]; [discriminate|].
  apply elem_of_cons in H. destruct H as [H|H]; [discriminate|].
  inversion H.
Defined.

Lemma quot_int_range x y :
  INT_MIN <= x <= INT_MAX -> y <> 0 -> ~ (x = INT_MIN /\ y = -1) ->
  INT_MIN <= x ÷ y <= INT_MAX.
Proof.
  unfold INT_MIN, INT_MAX. intros Hx Hy Hn.
  assert (Habs : Z.abs (x ÷ y) <= Z.abs x).
  { rewrite <- Z.quot_abs by lia.
    apply Z.quot_le_upper_bound; [lia|]. nia. }
  destruct (Z.eq_dec x (- 2 ^ 31)) as [->|Hx'].
  - destruct (Z.eq_dec y 1) as [->|Hy1]; [rewrite Z.quot_1_r; lia|].
    assert (Hlt : Z.abs ((- 2 ^ 31) ÷ y) <= 2 ^ 30).
    { rewrite <- Z.quot_abs by lia.
      apply Z.quot_le_upper_bound; [lia|].
      change (Z.abs (- 2 ^ 31)) with (2 * 2 ^ 30). nia. }
    lia.
  - lia.
Qed.

Lemma rem_int_range x y :
  INT_MIN <= x <= INT_MAX -> y <> 0 -> INT_MIN <= Z.rem x y <= INT_MAX.
Proof.
  unfold INT_MIN, INT_MAX. intros Hx Hy.
  pose proof (Z.rem_abs x y Hy) as Ha.
  assert (Z.abs (Z.rem x y) <= Z.abs x).
  { rewrite <- Z.rem_abs by lia. apply Z.rem_le; lia. }
  destruct (Z.eq_dec x (- 2 ^ 31)) as [->|Hx']; [|lia].
  assert (Z.abs (Z.rem (- 2 ^ 31) y) < Z.abs y)
    by (apply Z.rem_bound_abs; lia).
  destruct (Z_le_gt_dec 0 (Z.rem (- 2 ^ 31) y)) as [Hs|Hs]; [|lia].
  pose proof (Z.rem_sign_nz (- 2 ^ 31) y) as Hsg.
  destruct (Z.eq_dec (Z.rem (- 2 ^ 31) y) 0) as [->|Hnz]; [lia|].
  specialize (Hsg Hy Hnz). rewrite Z.sgn_pos in Hsg by lia. simpl in Hsg.
  discriminate.
Qed.

(** X24. DIV and REM on three [int] slots, the destination in the data segment:
    with a zero divisor, or INT_MIN divided by -1, neither has a result;
    otherwise both return, and the destination holds the quotient rounded
    toward zero, or the remainder, which has the sign of the dividend. *)
Theorem int_division s r a b z x y :
  layout s -> 0 <= r -> r + 4 <= size (memory s) ->
  GetType s r = Some 2 -> GetType s a = Some 2 -> GetType s b = Some 2 ->
  GetIntData s r = Some z -> GetIntData s a = Some x -> GetIntData s b = Some y ->
  if (y =? 0) || ((x =? INT_MIN) && (y =? -1))
  then DIV s r a b = None /\ REM s r a b = None
  else
    (exists s', DIV s r a b = Some s' /\ GetIntData s' r = Some (x ÷ y)) /\
    (exists s', REM s r a b = Some s' /\ GetIntData s' r = Some (Z.rem x y)).
Proof.
  intros Hl Hr Hle Ht Ha Hb Hz Hx Hy.
  assert (T3 := fun k => tier3_Some s k r a b 2 2 2 Ht Ha Hb).
  assert (W := fun v => switch_int_slot s r z v Hl Hr Hle Ht Hz).
  pose proof (GetIntData_range _ _ _ Hx) as Rx.
  unfold DIV, REM. rewrite !T3. unfold ifelse, binop. simpl.
  rewrite Hx, Hy. simpl. unfold int_div, int_rem.
  destruct ((y =? 0) || ((x =? INT_MIN) && (y =? -1))) eqn:E.
  - unfold switch. rewrite Ht. simpl. auto.
  - apply orb_false_elim in E. destruct E as [E0 E1].
    apply Z.eqb_neq in E0.
    assert (Hn : ~ (x = INT_MIN /\ y = -1)).
    { intros [-> ->]. discriminate. }
    split.
    + destruct (W (x ÷ y)) as (s' & H1 & H2). exists s'.
      split; [exact H1|]. rewrite H2. f_equal.
      apply sext_small; [lia|].
      pose proof (quot_int_range x y Rx E0 Hn) as Q.
      unfold INT_MIN, INT_MAX in Q. change (32 - 1) with 31. lia.
    + destruct (W (Z.rem x y)) as (s' & H1 & H2). exists s'.
      split; [exact H1|]. rewrite H2. f_equal.
      apply sext_small; [lia|].
      pose proof (rem_int_range x y Rx E0) as Q.
      unfold INT_MIN, INT_MAX in Q. change (32 - 1) with 31. lia.
Qed.

Lemma int_division_witness :
  (exists s', DIV (state Example.add_before) 8 0 4 = Some s' /\
              GetIntData s' 8 = Some (3 ÷ 4)) /\
  (exists s', REM (state Example.add_before) 8 0 4 = Some s' /\
              GetIntData s' 8 = Some (Z.rem 3 4)).
Proof.
  apply (int_division (state Example.add_before) 8 0 4 0 3 4);
    [unfold layout; simpl; repeat split; lia|lia|simpl; lia
    |vm_compute; reflexivity|vm_compute; reflexivity|vm_compute; reflexivity
    |vm_compute; reflexivity|vm_compute; reflexivity|vm_compute; reflexivity].
Defined.

(** ** Allocation, and what a run never changes *)

Lemma filter_other (x : Z) (l : list Z) :
  x ∉ l -> filter (fun b => b ≠ x) l = l.
Proof.
  induction l as [|y l IH]; intros Hn; [reflexivity|].
  rewrite filter_cons. apply not_elem_of_cons in Hn. destruct Hn as [Hxy Hl].
  case_decide; [|congruence]. f_equal. apply IH. exact Hl.
Qed.

(** X25. FREE on the slot NEW has just filled releases the block NEW
    allocated and no other, and changes no memory; FREE of the same slot
    once more, the block being released, has no result. The slot is to lie
    in the data segment and the allocator to return a fresh non-null
    address. *)
Theorem NEW_then_FREE fresh blocks' s ptr size_ t s' :
  layout s -> 0 <= ptr -> ptr + 8 <= size (memory s) ->
  GetType s ptr = Some t ->
  0 < fresh < 2 ^ 64 -> fresh ∉ blocks' ->
  NEW fresh s ptr size_ = Some s' ->
  FREE (fresh :: blocks') s' ptr = Some blocks' /\
  FREE blocks' s' ptr = None.
Proof.
  intros Hl Hp Hle Ht Hf Hn H. unfold NEW in H.
  destruct (GetLongData s size_); [|discriminate].
  change (store_bytes s (slot_addr s ptr) (le_encode 8 fresh) = Some s') in H.
  destruct (pointer_round_trip s ptr t _ s' Hl Hp Hle Ht H) as [_ Hg].
  rewrite to_size_t_small in Hg by lia.
  unfold FREE. rewrite Hg. simpl.
  destruct (Z.eqb_spec fresh 0); [lia|].
  split.
  - case_decide as Hin; [|exfalso; apply Hin; left].
    rewrite filter_cons. case_decide; [congruence|].
    f_equal. apply filter_other. exact Hn.
  - case_decide; [contradiction|reflexivity].
Qed.

Lemma NEW_then_FREE_witness :
  exists s',
    NEW 65536 (state Example1.if_boot) 1 9 = Some s' /\
    FREE [65536] s' 1 = Some [] /\ FREE [] s' 1 = None.
Proof.
  eexists. split; [vm_compute; reflexivity|].
  apply (NEW_then_FREE 65536 [] (state Example1.if_boot) 1 9 3);
    [unfold layout; simpl; repeat split; lia|lia|simpl; lia
    |vm_compute; reflexivity|lia|apply not_elem_of_nil|vm_compute; reflexivity].
Defined.

Lemma step_keeps_layout fresh m m' :
  step fresh m = Some m' ->
  run_code m' = run_code m /\ bytecode_end m' = bytecode_end m /\
  memory (state m') = memory (state m) /\
  bytecode_begin (state m') = bytecode_begin (state m) /\
  length (image (state m')) = length (image (state m)).
Proof.
  unfold step. intros H.
  destruct (fetch m) as [[i p]|]; [|discriminate]. simpl in H.
  destruct (execute_registers _ _ _ _ _ H) as (He & Hr & _).
  destruct (footprint_sound _ _ _ _ _ H) as (a & n & _ & (Eb & Em & El & _)).
  auto.
Qed.

(** X26. However long it runs and whatever it executes, the loop never
    changes where the code starts and ends, where the data and the type
    array are and how large they are, nor where the block is and how long:
    only bytes of the block, the program counter and the list of allocated
    blocks change. *)
Theorem run_keeps_layout host : forall m m',
  run host m = Finished m' \/ run host m = Running m' ->
  run_code m' = run_code m /\ bytecode_end m' = bytecode_end m /\
  memory (state m') = memory (state m) /\
  bytecode_begin (state m') = bytecode_begin (state m) /\
  length (image (state m')) = length (image (state m)).
Proof.
  induction host as [|fresh host IH]; intros m m' H; simpl in H.
  - destruct (bytecode_file m <? bytecode_end m);
      destruct H as [H|H]; inversion H; subst; auto.
  - destruct (bytecode_file m <? bytecode_end m).
    + destruct (step fresh m) as [m1|] eqn:Hs;
        [|destruct H as [H|H]; discriminate H].
      destruct (step_keeps_layout _ _ _ Hs) as (A1 & A2 & A3 & A4 & A5).
      destruct (IH _ _ H) as (B1 & B2 & B3 & B4 & B5).
      repeat split; congruence.
    + destruct H as [H|H]; inversion H; subst; auto.
Qed.

Lemma run_keeps_layout_witness :
  run_code Example2.ret_end = run_code Example2.ret_boot /\
  bytecode_end Example2.ret_end = bytecode_end Example2.ret_boot /\
  memory (state Example2.ret_end) = memory (state Example2.ret_boot) /\
  bytecode_begin (state Example2.ret_end)
  = bytecode_begin (state Example2.ret_boot) /\
  length (image (state Example2.ret_end))
  = length (image (state Example2.ret_boot)).
Proof.
  apply (run_keeps_layout [0; 0] Example2.ret_boot Example2.ret_end).
  left. vm_compute. reflexivity.
Defined.
